(** * docker_deploy: the deploy/backup orchestration and its ownership repair

    A shallow embedding of [src/docker_deploy/docker_deploy.py].  The
    program is a sequence of reads of the file system and of external
    commands; it is modelled in a small monad that threads the process
    state (working directory and host), stops at [sys.exit] and at an
    uncaught exception, and records what was printed and which commands
    were run, in order. *)

From Stdlib Require Import String Ascii List Bool Arith ZArith Lia.
Import ListNotations.
Open Scope string_scope.

(** ** Strings, as Python's [str] methods use them *)

Module Str.

(** [s.split(sep)] for a one-character separator: never the empty list. *)
Fixpoint split (sep : ascii) (s : string) : list string :=
  match s with
  | EmptyString => [EmptyString]
  | String c r =>
      if Ascii.eqb c sep then EmptyString :: split sep r
      else match split sep r with
           | h :: t => String c h :: t
           | [] => [String c EmptyString]
           end
  end.

(** [s.startswith(p)] *)
Fixpoint startswith (p s : string) : bool :=
  match p, s with
  | EmptyString, _ => true
  | String a p', String b s' => Ascii.eqb a b && startswith p' s'
  | String _ _, EmptyString => false
  end.

(** [sub in s] on two strings *)
Fixpoint contains (sub s : string) : bool :=
  startswith sub s ||
  match s with
  | EmptyString => false
  | String _ r => contains sub r
  end.

(** [c in s] for a character *)
Fixpoint has_char (c : ascii) (s : string) : bool :=
  match s with
  | EmptyString => false
  | String d r => Ascii.eqb d c || has_char c r
  end.

(** [sep.join(l)] *)
Definition join (sep : string) (l : list string) : string := String.concat sep l.

Definition nl : string := String (ascii_of_nat 10) EmptyString.

(** Decimal digits of a number, zero-padded to [width] as [strftime] does. *)
Definition digit (n : nat) : ascii := ascii_of_nat (48 + n mod 10).

Fixpoint digits_fuel (fuel n : nat) (acc : string) : string :=
  match fuel with
  | O => acc
  | S f =>
      let acc' := String (digit n) acc in
      if Nat.eqb (n / 10) 0 then acc' else digits_fuel f (n / 10) acc'
  end.

Definition of_nat (n : nat) : string := digits_fuel (S n) n EmptyString.

Fixpoint zeros (k : nat) : string :=
  match k with
  | O => EmptyString
  | S k' => String "0"%char (zeros k')
  end.

Definition pad (width n : nat) : string :=
  let d := of_nat n in zeros (width - String.length d) ++ d.

End Str.

(** ** Paths

    The working directory is kept as the list of its components from the
    root, which is what [os.getcwd()] renders.  Two things resolve a path.
    [os.path.abspath] works on the text alone: [walk] drops a [..]
    together with the component before it, whether or not that component
    names anything.  A system call ([stat], [chdir], [open], [listdir])
    goes through the file system: [resolve] steps through one directory
    after the other and names nothing as soon as what it has to step
    through is not a directory, so that [nope/../app] fails where [nope] is
    missing, and [file/] and [file/.] fail on a regular file.  Where it
    succeeds it ends at the entry [walk] gives.  Symbolic links are not
    modelled. *)

Module Path.

Definition dir := list string.

Definition isabs (path : string) : bool := Str.startswith "/" path.

Definition step (acc : dir) (comp : string) : dir :=
  if String.eqb comp EmptyString then acc
  else if String.eqb comp "." then acc
  else if String.eqb comp ".." then removelast acc
  else (acc ++ [comp])%list.

Definition walk (cwd : dir) (path : string) : dir :=
  fold_left step (Str.split "/"%char path) (if isabs path then [] else cwd).

(** The walk of a system call from the directory [acc] through the
    components [comps]; [is_dir] tells which entries are directories. *)
Fixpoint resolve_from (is_dir : dir -> bool) (acc : dir) (comps : list string)
  : option dir :=
  match comps with
  | [] => Some acc
  | comp :: rest =>
      if is_dir acc then resolve_from is_dir (step acc comp) rest else None
  end.

(** The directory entry a system call on [path] reaches; the empty path
    names nothing ([ENOENT]). *)
Definition resolve (is_dir : dir -> bool) (cwd : dir) (path : string) : option dir :=
  if String.eqb path EmptyString then None
  else resolve_from is_dir (if isabs path then [] else cwd) (Str.split "/"%char path).

(** [os.getcwd()] *)
Definition render (d : dir) : string := "/" ++ Str.join "/" d.

(** [os.path.abspath(path)]: [normpath(join(getcwd(), path))]; POSIX keeps
    exactly two leading slashes. *)
Definition abspath (cwd : dir) (path : string) : string :=
  let root :=
    if Str.startswith "//" path && negb (Str.startswith "///" path)
    then "//" else "/" in
  root ++ Str.join "/" (walk cwd path).

(** A component as the kernel reports it. *)
Definition comp_ok (c : string) : bool :=
  negb (String.eqb c EmptyString) && negb (String.eqb c ".") &&
  negb (String.eqb c "..") && negb (Str.has_char "/"%char c).

Definition wf (d : dir) : bool := forallb comp_ok d.

(** Entry [d] lies in the tree under [top], [top] itself included. *)
Fixpoint below (top d : dir) : bool :=
  match top, d with
  | [], _ => true
  | a :: top', b :: d' => String.eqb a b && below top' d'
  | _ :: _, [] => false
  end.

End Path.

(** ** The parsed compose file

    What [yaml.safe_load] returns: a tree of mappings, sequences and
    scalars.  Mapping keys are strings (every key the program looks at is
    one) and are pairwise distinct, as in a Python [dict]; [YOther] stands
    for the scalars of other types (floats, timestamps), which support none
    of the operations used here. *)

Set Warnings "-register-all".

Inductive yaml : Type :=
| YNull
| YBool (b : bool)
| YInt (z : Z)
| YOther
| YStr (s : string)
| YSeq (items : list yaml)
| YMap (fields : list (string * yaml)).

Inductive exn : Type :=
| TypeError
| AttributeError
| KeyError
| IndexError
| OSError
| YAMLError
| CalledProcessError (argv : list string) (returncode : Z).

(** How a call ends: it returns, the process leaves through [sys.exit], or
    an exception nobody catches goes up. *)
Inductive outcome (A : Type) : Type :=
| Ok (a : A)
| Exit (status : Z)
| Raise (e : exn).
Arguments Ok {A} a.
Arguments Exit {A} status.
Arguments Raise {A} e.

Module Py.

Fixpoint assoc (k : string) (m : list (string * yaml)) : option yaml :=
  match m with
  | [] => None
  | (k', v) :: r => if String.eqb k' k then Some v else assoc k r
  end.

Definition is_str (k : string) (y : yaml) : bool :=
  match y with YStr s => String.eqb s k | _ => false end.

(** [k in y] for a string [k] *)
Definition contains (k : string) (y : yaml) : outcome bool :=
  match y with
  | YMap m => Ok (existsb (fun kv => String.eqb (fst kv) k) m)
  | YSeq l => Ok (existsb (is_str k) l)
  | YStr s => Ok (Str.contains k s)
  | _ => Raise TypeError
  end.

Fixpoint chars (s : string) : list yaml :=
  match s with
  | EmptyString => []
  | String c r => YStr (String c EmptyString) :: chars r
  end.

(** What [for x in y] goes through: the keys of a mapping, the items of a
    sequence, the characters of a string. *)
Definition iter (y : yaml) : outcome (list yaml) :=
  match y with
  | YMap m => Ok (map (fun kv => YStr (fst kv)) m)
  | YSeq l => Ok l
  | YStr s => Ok (chars s)
  | _ => Raise TypeError
  end.

(** Python's index: negative counts from the end. *)
Definition index {A} (l : list A) (i : Z) : option A :=
  let n := Z.of_nat (List.length l) in
  let j := (if i <? 0 then i + n else i)%Z in
  if (j <? 0)%Z || (n <=? j)%Z then None else nth_error l (Z.to_nat j).

Definition as_index (k : yaml) : option Z :=
  match k with
  | YInt i => Some i
  | YBool b => Some (if b then 1 else 0)%Z
  | _ => None
  end.

(** [c[k]] *)
Definition getitem (c k : yaml) : outcome yaml :=
  match c with
  | YMap m =>
      match k with
      | YStr s => match assoc s m with Some v => Ok v | None => Raise KeyError end
      | YSeq _ | YMap _ => Raise TypeError
      | _ => Raise KeyError
      end
  | YSeq l =>
      match as_index k with
      | Some i => match index l i with Some v => Ok v | None => Raise IndexError end
      | None => Raise TypeError
      end
  | YStr s =>
      match as_index k with
      | Some i => match index (chars s) i with Some v => Ok v | None => Raise IndexError end
      | None => Raise TypeError
      end
  | _ => Raise TypeError
  end.

(** [repr] of a list of plain strings, as an f-string prints it *)
Definition repr_list (l : list string) : string :=
  "[" ++ Str.join ", " (map (fun s => "'" ++ s ++ "'") l) ++ "]".

End Py.

(** ** The host: file system, user database, clock and process runner *)

Inductive ftype : Type := Reg | Dir | Special.

Record stat_result : Type := { st_type : ftype; st_uid : nat }.

Record datetime : Type :=
  { year : nat; month : nat; day : nat; hour : nat; minute : nat; second : nat }.

(** [now.strftime('%Y%m%d_%H%M%S_utc')] *)
Definition strftime_utc (t : datetime) : string :=
  Str.pad 4 (year t) ++ Str.pad 2 (month t) ++ Str.pad 2 (day t) ++ "_" ++
  Str.pad 2 (hour t) ++ Str.pad 2 (minute t) ++ Str.pad 2 (second t) ++ "_utc".

(** Everything outside the program.  [os_stat] and the other reads take a
    directory entry and answer for that entry alone; the way to it is
    checked by the walk that leads there.  [subprocess_run] gives the host
    after the command and its return code, [None] when the executable
    cannot be started. *)
Class Host : Type := {
  world : Type;
  os_stat : world -> Path.dir -> option stat_result;
  os_listdir : world -> Path.dir -> option (list string);
  pwd_getpwuid : world -> nat -> option string;
  yaml_safe_load : world -> Path.dir -> option yaml;
  datetime_now : world -> datetime;
  subprocess_run : list string -> Path.dir -> world -> world * option Z
}.

Inductive event : Type :=
| Print (msg : string)
| Call (argv : list string) (at_dir : Path.dir).

(** ** The process *)

Section Process.

Context {H : Host}.

(** The state a call can change: the working directory and the host. *)
Record proc : Type := { cwd : Path.dir; env : world }.

(** A computation gives its outcome, the state it leaves (also when it does
    not return) and what it printed and ran, oldest first. *)
Definition M (A : Type) : Type := proc -> outcome A * proc * list event.

Definition ret {A} (a : A) : M A := fun s => (Ok a, s, []).

Definition bind {A B} (m : M A) (k : A -> M B) : M B :=
  fun s =>
    match m s with
    | (Ok a, s1, l1) => let '(r, s2, l2) := k a s1 in (r, s2, (l1 ++ l2)%list)
    | (Exit n, s1, l1) => (Exit n, s1, l1)
    | (Raise e, s1, l1) => (Raise e, s1, l1)
    end.

Definition lift {A} (r : outcome A) : M A := fun s => (r, s, []).

Definition raise {A} (e : exn) : M A := lift (Raise e).

End Process.

Declare Scope proc_scope.
Delimit Scope proc_scope with proc.
Notation "x <- m ;; k" := (bind m (fun x => k))
  (at level 100, m at next level, right associativity) : proc_scope.
Notation "m ;; k" := (bind m (fun _ => k))
  (at level 100, right associativity) : proc_scope.
Open Scope proc_scope.

Section Program.

Context {H : Host}.

(** *** What the program asks of the operating system *)

(** [sys.exit(status)] *)
Definition sys_exit {A} (status : Z) : M A := lift (Exit status).

(** [print(msg)] *)
Definition print (msg : string) : M unit := fun s => (Ok tt, s, [Print msg]).

(** [os.getcwd()] *)
Definition getcwd : M string := fun s => (Ok (Path.render (cwd s)), s, []).

(** Directory entry [d] is a directory. *)
Definition is_directory (w : world) (d : Path.dir) : bool :=
  match os_stat w d with
  | Some st => match st_type st with Dir => true | _ => false end
  | None => false
  end.

(** The entry a system call of the process on [path] reaches. *)
Definition resolve (s : proc) (path : string) : option Path.dir :=
  Path.resolve (is_directory (env s)) (cwd s) path.

Definition is_type (t : ftype) (s : proc) (path : string) : bool :=
  match resolve s path with
  | None => false
  | Some d =>
      match os_stat (env s) d with
      | Some st =>
          match st_type st, t with
          | Reg, Reg | Dir, Dir | Special, Special => true
          | _, _ => false
          end
      | None => false
      end
  end.

(** [os.path.isfile(path)] and [os.path.isdir(path)] *)
Definition isfile (path : string) : M bool := fun s => (Ok (is_type Reg s path), s, []).
Definition isdir (path : string) : M bool := fun s => (Ok (is_type Dir s path), s, []).

(** [os.chdir(path)] *)
Definition chdir (path : string) : M unit :=
  fun s =>
    match resolve s path with
    | Some d =>
        if is_directory (env s) d
        then (Ok tt, {| cwd := d; env := env s |}, [])
        else (Raise OSError, s, [])
    | None => (Raise OSError, s, [])
    end.

(** The name of the user who owns the entry [d]. *)
Definition owner_at (w : world) (d : Path.dir) : outcome string :=
  match os_stat w d with
  | None => Raise OSError
  | Some st =>
      match pwd_getpwuid w (st_uid st) with
      | Some name => Ok name
      | None => Raise KeyError
      end
  end.

(** [pwd.getpwuid(os.stat(path).st_uid).pw_name] *)
Definition owner_name (s : proc) (path : string) : outcome string :=
  match resolve s path with
  | None => Raise OSError
  | Some d => owner_at (env s) d
  end.

Definition stat_owner (path : string) : M string := fun s => (owner_name s path, s, []).

(** [os.listdir(path)] *)
Definition listdir (path : string) : M (list string) :=
  fun s =>
    match resolve s path with
    | None => (Raise OSError, s, [])
    | Some d =>
        match os_listdir (env s) d with
        | Some l => (Ok l, s, [])
        | None => (Raise OSError, s, [])
        end
    end.

(** [open(path)] followed by [yaml.safe_load] *)
Definition load_yaml (path : string) : M yaml :=
  fun s =>
    match resolve s path with
    | None => (Raise OSError, s, [])
    | Some d =>
        match os_stat (env s) d with
        | None => (Raise OSError, s, [])
        | Some st =>
            match st_type st with
            | Dir => (Raise OSError, s, [])
            | _ =>
                match yaml_safe_load (env s) d with
                | Some y => (Ok y, s, [])
                | None => (Raise YAMLError, s, [])
                end
            end
        end
    end.

(** [datetime.now(timezone.utc)] *)
Definition now_utc : M datetime := fun s => (Ok (datetime_now (env s)), s, []).

(** [subprocess.check_call(argv)]: the command runs in the working
    directory; a return code other than zero raises. *)
Definition check_call (argv : list string) : M unit :=
  fun s =>
    let '(w, rc) := subprocess_run argv (cwd s) (env s) in
    let s' := {| cwd := cwd s; env := w |} in
    match rc with
    | None => (Raise OSError, s', [Call argv (cwd s)])
    | Some c =>
        if (c =? 0)%Z then (Ok tt, s', [Call argv (cwd s)])
        else (Raise (CalledProcessError argv c), s', [Call argv (cwd s)])
    end.

(** [for x in l: body] *)
Fixpoint for_each {A} (l : list A) (body : A -> M unit) : M unit :=
  match l with
  | [] => ret tt
  | x :: r => body x ;; for_each r body
  end.

(** A loop that grows a local list, as the extractor does with [volumes]. *)
Fixpoint for_fold {A S} (l : list A) (body : S -> A -> M S) (acc : S) : M S :=
  match l with
  | [] => ret acc
  | x :: r => acc' <- body acc x ;; for_fold r body acc'
  end.

(** *** The program *)

Definition COMPOSE_FILES : list string :=
  ["./docker-compose.yml"; "./docker-compose.yaml"; "./compose.yml"; "./compose.yaml"].

(** [change_cwd]: change the working directory and return the old one. *)
Definition change_cwd (path : option string) : M string :=
  old_cwd <- getcwd ;;
  match path with
  | Some p => chdir p ;; ret old_cwd
  | None => ret old_cwd
  end.

(** The loop [for compose in COMPOSE_FILES: if os.path.isfile(compose):
    break], which both the extractor and [check_compose_file] run: the
    candidate it stopped at, [None] when it ran into its [else]. *)
Fixpoint first_file (candidates : list string) : M (option string) :=
  match candidates with
  | [] => ret None
  | c :: r => found <- isfile c ;; if found then ret (Some c) else first_file r
  end.

(** One pass of the inner loop of the extractor, on one [volume]. *)
Definition volume_entry (volumes : list (string * string)) (volume : yaml)
  : M (list (string * string)) :=
  match volume with
  | YStr v =>
      let volume_path := hd EmptyString (Str.split ":"%char v) in
      is_dir <- isdir volume_path ;;
      if negb is_dir then ret (volumes ++ [(volume_path, "root")])%list
      else if negb (Str.startswith "/opt/" v) then
        print (Str.nl ++ "WARNING: Skipping volume, must start with /opt/ : "
               ++ volume_path ++ Str.nl) ;;
        ret volumes
      else
        owner_username <- stat_owner volume_path ;;
        ret (volumes ++ [(volume_path, owner_username)])%list
  | _ => raise AttributeError
  end.

(** One pass of the outer loop, on one [service].  The source evaluates
    [yaml_data["services"][service]] once for the test and once more for
    the inner loop; it is the same value, bound once here. *)
Definition service_entry (services : yaml) (volumes : list (string * string))
  (service : yaml) : M (list (string * string)) :=
  definition <- lift (Py.getitem services service) ;;
  declares <- lift (Py.contains "volumes" definition) ;;
  if declares then
    declared <- lift (Py.getitem definition (YStr "volumes")) ;;
    entries <- lift (Py.iter declared) ;;
    for_fold entries volume_entry volumes
  else ret volumes.

Definition volumes_from_compose_file : M (list (string * string)) :=
  found <- first_file COMPOSE_FILES ;;
  match found with
  | None =>
      here <- getcwd ;;
      print ("Could not find any of " ++ Py.repr_list COMPOSE_FILES ++ " in " ++ here) ;;
      sys_exit 1
  | Some compose_file =>
      yaml_data <- load_yaml compose_file ;;
      has_services <- lift (Py.contains "services" yaml_data) ;;
      if negb has_services then
        print ("ERROR: Found compose file at " ++ compose_file
               ++ " but not 'services' in it") ;;
        sys_exit 1
      else
        services <- lift (Py.getitem yaml_data (YStr "services")) ;;
        names <- lift (Py.iter services) ;;
        for_fold names (service_entry services) []
  end.

(** One pass of the loop of [fix_volumes_ownership]. *)
Definition fix_volume (volume : string * string) : M unit :=
  is_dir <- isdir (fst volume) ;;
  if negb is_dir then
    print (Str.nl ++ "WARNING: You should probably create and/or set non root owner of volume folder: "
           ++ fst volume ++ Str.nl) ;;
    print ("sudo mkdir -p " ++ fst volume ++ " && sudo chown -R OWNER_HERE "
           ++ fst volume ++ Str.nl)
  else
    owner_username <- stat_owner (fst volume) ;;
    if String.eqb owner_username "root" then
      print (Str.nl ++ "WARNING: You should probably set non root owner of volume folder: "
             ++ fst volume ++ Str.nl) ;;
      print ("sudo chown -R OWNER_HERE " ++ fst volume ++ Str.nl)
    else
      check_call ["sudo"; "chown"; "-R"; snd volume; fst volume].

Definition fix_volumes_ownership : M unit :=
  volumes <- volumes_from_compose_file ;;
  for_each volumes fix_volume.

Definition check_compose_file (project_path : option string) : M unit :=
  old_cwd <- change_cwd project_path ;;
  found <- first_file COMPOSE_FILES ;;
  match found with
  | None =>
      print ("ERROR: Could not find any of " ++ Py.repr_list COMPOSE_FILES) ;;
      sys_exit 1
  | Some _ => chdir old_cwd
  end.

(** One pass of the loop of [backup] over the entries of the data directory. *)
Definition backup_entry (from_path to_path entry : string) : M unit :=
  owner_username <- stat_owner (from_path ++ "/" ++ entry) ;;
  check_call ["sudo"; "chown"; "-R"; owner_username; to_path ++ "/" ++ entry].

Definition backup (project_path : option string) : M unit :=
  old_cwd <- change_cwd project_path ;;
  here <- getcwd ;;
  let app_name := last (Str.split "/"%char here) EmptyString in
  has_data <- isdir ("/opt/" ++ app_name ++ "/data") ;;
  if negb has_data then
    print ("Skipping backup: Nothing to backup at /opt/" ++ app_name ++ "/data")
  else
    check_call ["sudo"; "mkdir"; "-p"; "/opt/" ++ app_name ++ "/backup"] ;;
    now <- now_utc ;;
    let from_path := "/opt/" ++ app_name ++ "/data" in
    let to_path := "/opt/" ++ app_name ++ "/backup/data_" ++ strftime_utc now in
    check_call ["sudo"; "cp"; "-r"; from_path; to_path] ;;
    check_call ["sudo"; "chown"; "700"; to_path] ;;
    entries <- listdir from_path ;;
    for_each entries (backup_entry from_path to_path) ;;
    print (Str.nl ++ "Backed up data to " ++ to_path ++ Str.nl) ;;
    chdir old_cwd.

Definition down_action (project_path : option string) : M unit :=
  check_compose_file project_path ;;
  old_cwd <- change_cwd project_path ;;
  check_call ["docker-compose"; "down"] ;;
  chdir old_cwd.

Definition up_action (project_path : option string) : M unit :=
  check_compose_file project_path ;;
  old_cwd <- change_cwd project_path ;;
  fix_volumes_ownership ;;
  check_call ["docker-compose"; "up"; "-d"] ;;
  chdir old_cwd.

Definition info_action : M unit := check_call ["docker"; "ps"].

Definition build (project_path : option string) : M unit :=
  check_compose_file project_path ;;
  old_cwd <- change_cwd project_path ;;
  check_call ["docker-compose"; "build"] ;;
  chdir old_cwd.

Definition backup_action (project_path : option string) : M unit :=
  check_compose_file project_path ;;
  down_action project_path ;;
  backup project_path ;;
  up_action project_path.

(** [os.path.abspath(path)]; of [None] it raises. *)
Definition abspath (path : option string) : M string :=
  match path with
  | Some p => fun s => (Ok (Path.abspath (cwd s) p), s, [])
  | None => raise TypeError
  end.

Definition deploy_action (project_path replace_path : option string) : M unit :=
  match replace_path with
  | Some replace =>
      replace_abs <- abspath (Some replace) ;;
      project_abs <- abspath project_path ;;
      old_cwd <- getcwd ;;
      chdir "/" ;;
      check_compose_file (Some replace_abs) ;;
      build (Some project_abs) ;;
      down_action (Some replace_abs) ;;
      now <- now_utc ;;
      let to_path := replace_abs ++ "_" ++ strftime_utc now in
      check_call ["mv"; replace_abs; to_path] ;;
      check_call ["cp"; "-r"; project_abs; replace_abs] ;;
      backup_action (Some replace_abs) ;;
      chdir old_cwd ;;
      print ("Backed up project " ++ replace_abs ++ " to " ++ to_path
             ++ " replaced with " ++ project_abs) ;;
      print ("You can now delete " ++ project_abs)
  | None =>
      build project_path ;;
      backup_action project_path
  end.

End Program.

(** ** A host to run the program on

    A file system given as a table of directory entries, a clock, and a
    process runner whose commands all succeed and leave the table as it
    is. *)

Module TestHost.

Inductive node : Type :=
| File (uid : nat) (content : option yaml)
| Directory (uid : nat).

Record state : Type :=
  { nodes : list (Path.dir * node);
    passwd : list (nat * string);
    clock : datetime }.

Fixpoint dir_eqb (a b : Path.dir) : bool :=
  match a, b with
  | [], [] => true
  | x :: a', y :: b' => String.eqb x y && dir_eqb a' b'
  | _, _ => false
  end.

Fixpoint find_node (t : list (Path.dir * node)) (d : Path.dir) : option node :=
  match t with
  | [] => None
  | (p, n) :: r => if dir_eqb p d then Some n else find_node r d
  end.

Definition stat (w : state) (d : Path.dir) : option stat_result :=
  match d with
  | [] => Some {| st_type := Dir; st_uid := 0 |}
  | _ =>
      match find_node (nodes w) d with
      | Some (File u _) => Some {| st_type := Reg; st_uid := u |}
      | Some (Directory u) => Some {| st_type := Dir; st_uid := u |}
      | None => None
      end
  end.

Definition children (w : state) (d : Path.dir) : list string :=
  flat_map (fun pn =>
              match fst pn with
              | [] => []
              | p => if dir_eqb (removelast p) d then [last p EmptyString] else []
              end) (nodes w).

Definition ls (w : state) (d : Path.dir) : option (list string) :=
  match stat w d with
  | Some {| st_type := Dir |} => Some (children w d)
  | _ => None
  end.

Fixpoint user (t : list (nat * string)) (uid : nat) : option string :=
  match t with
  | [] => None
  | (u, name) :: r => if Nat.eqb u uid then Some name else user r uid
  end.

Definition parse (w : state) (d : Path.dir) : option yaml :=
  match find_node (nodes w) d with
  | Some (File _ content) => content
  | _ => None
  end.

(** One second later. *)
Definition tick (t : datetime) : datetime :=
  if Nat.ltb (second t) 59 then
    {| year := year t; month := month t; day := day t;
       hour := hour t; minute := minute t; second := S (second t) |}
  else if Nat.ltb (minute t) 59 then
    {| year := year t; month := month t; day := day t;
       hour := hour t; minute := S (minute t); second := 0 |}
  else
    {| year := year t; month := month t; day := day t;
       hour := S (hour t); minute := 0; second := 0 |}.

(** Every command takes a second, succeeds, and leaves the table alone. *)
Definition run (w : state) : state :=
  {| nodes := nodes w; passwd := passwd w; clock := tick (clock w) |}.

(** The host once [n] commands have run. *)
Fixpoint after (n : nat) (w : state) : state :=
  match n with
  | O => w
  | S k => after k (run w)
  end.

#[global] Instance host : Host :=
  {| world := state;
     os_stat := stat;
     os_listdir := ls;
     pwd_getpwuid := fun w => user (passwd w);
     yaml_safe_load := parse;
     datetime_now := clock;
     subprocess_run := fun _ _ w => (run w, Some 0%Z) |}.

Definition users : list (nat * string) := [(0, "root"); (1000, "alice"); (1001, "bob")].

Definition noon : datetime :=
  {| year := 2024; month := 3; day := 9; hour := 12; minute := 5; second := 7 |}.

(** One service with one bind mount. *)
Definition compose (volumes : list string) : yaml :=
  YMap [("version", YStr "3");
        ("services",
         YMap [("web", YMap [("image", YStr "nginx");
                             ("volumes", YSeq (map YStr volumes))])])].

(** A project [/home/u/app] with its data under [/opt/app/data]; the
    compose file also mounts a directory outside [/opt/] and one that is
    not there. *)
Definition app_world : state :=
  {| nodes :=
       [ (["home"], Directory 0);
         (["home"; "u"], Directory 1000);
         (["home"; "u"; "app"], Directory 1000);
         (["home"; "u"; "app"; "docker-compose.yml"],
          File 1000 (Some (compose ["/opt/app/data:/data"; "/srv/x:/x"; "/tmp:/t"])));
         (["opt"], Directory 0);
         (["opt"; "app"], Directory 0);
         (["opt"; "app"; "data"], Directory 1000);
         (["opt"; "app"; "data"; "db"], Directory 1001);
         (["opt"; "app"; "data"; "log"], File 1000 None);
         (["tmp"], Directory 0) ];
     passwd := users;
     clock := noon |}.

(** The same project before any data was written: no [/opt/app/data]. *)
Definition fresh_world : state :=
  {| nodes :=
       [ (["home"], Directory 0);
         (["home"; "u"], Directory 1000);
         (["home"; "u"; "app"], Directory 1000);
         (["home"; "u"; "app"; "docker-compose.yml"],
          File 1000 (Some (compose ["/opt/app/data:/data"])));
         (["opt"], Directory 0) ];
     passwd := users;
     clock := noon |}.

(** A directory without a compose file. *)
Definition bare_world : state :=
  {| nodes := [ (["home"], Directory 0); (["home"; "u"], Directory 1000) ];
     passwd := users;
     clock := noon |}.

(** A new tree [/home/u/new] to be deployed over [/prod/app]. *)
Definition deploy_world : state :=
  {| nodes :=
       [ (["home"], Directory 0);
         (["home"; "u"], Directory 1000);
         (["home"; "u"; "new"], Directory 1000);
         (["home"; "u"; "new"; "docker-compose.yml"],
          File 1000 (Some (compose ["/opt/app/data:/data"])));
         (["prod"], Directory 0);
         (["prod"; "app"], Directory 1000);
         (["prod"; "app"; "compose.yaml"],
          File 1000 (Some (compose ["/opt/app/data:/data"])));
         (["opt"], Directory 0);
         (["opt"; "app"], Directory 0);
         (["opt"; "app"; "data"], Directory 1000);
         (["opt"; "app"; "data"; "db"], Directory 1001) ];
     passwd := users;
     clock := noon |}.

Definition at_home (w : state) : proc := {| cwd := ["home"; "u"]; env := w |}.

Definition in_app (w : state) : proc := {| cwd := ["home"; "u"; "app"]; env := w |}.

End TestHost.

(** ** Notions the statements are written with *)

(** Commands among the events of a run. *)
Definition is_call (e : event) : bool :=
  match e with Call _ _ => true | Print _ => false end.

Definition calls (l : list event) : list event := filter is_call l.

(** The command, if it is one, ran in directory [d]. *)
Definition ran_in (d : Path.dir) (e : event) : Prop :=
  match e with Call _ d' => d' = d | Print _ => True end.

(** The three actions that wrap one compose subcommand. *)
Inductive lifecycle : Type := Up | Down | Build.

Definition subcommand (a : lifecycle) : list string :=
  match a with
  | Up => ["docker-compose"; "up"; "-d"]
  | Down => ["docker-compose"; "down"]
  | Build => ["docker-compose"; "build"]
  end.

(** The four names of a compose file, in the order they are tried. *)
Definition COMPOSE_NAMES : list string :=
  ["docker-compose.yml"; "docker-compose.yaml"; "compose.yml"; "compose.yaml"].

(** The name of the project: the last component of the working directory. *)
Definition app_name_in (d : Path.dir) : string :=
  last (Str.split "/"%char (Path.render d)) EmptyString.

(** The host side of a volume entry [host:container[:mode]]. *)
Definition host_path (volume : string) : string := hd EmptyString (Str.split ":"%char volume).

(** Service [name] of the compose file [doc] declares the volume [v]. *)
Definition declares (doc : yaml) (name v : string) : Prop :=
  exists top services definition entries,
    doc = YMap top /\
    Py.assoc "services" top = Some (YMap services) /\
    Py.assoc name services = Some (YMap definition) /\
    Py.assoc "volumes" definition = Some (YSeq entries) /\
    In (YStr v) entries.

Section Notions.

Context {H : Host}.

(** Directory [d] has an entry [name] that is a regular file. *)
Definition regular (w : world) (d : Path.dir) (name : string) : bool :=
  is_directory w d &&
  match os_stat w (d ++ [name])%list with
  | Some st => match st_type st with Reg => true | _ => false end
  | None => false
  end.

(** The project path, when one is given, can be changed into. *)
Definition reachable (s : proc) (project_path : option string) : Prop :=
  match project_path with
  | Some p => is_type Dir s p = true
  | None => True
  end.

(** A computation that only looks: whatever its outcome, the state is the
    one it started in and no command was run. *)
Definition looks {A} (m : M A) : Prop :=
  forall s r s' l, m s = (r, s', l) -> s' = s /\ calls l = [].

(** A computation that stays where it is: whatever its outcome, the working
    directory is the one it started in, and so is that of its commands. *)
Definition stays {A} (m : M A) : Prop :=
  forall s r s' l, m s = (r, s', l) -> cwd s' = cwd s /\ Forall (ran_in (cwd s)) l.

(** The directory an action given [project_path] works in. *)
Definition target (s : proc) (project_path : option string) : Path.dir :=
  match project_path with
  | Some p => Path.walk (cwd s) p
  | None => cwd s
  end.

(** The process once it has moved to directory [d]. *)
Definition enter (s : proc) (d : Path.dir) : proc := {| cwd := d; env := env s |}.

Definition run_lifecycle (a : lifecycle) : option string -> M unit :=
  match a with
  | Up => up_action
  | Down => down_action
  | Build => build
  end.

(** [os.path.exists(path)] *)
Definition exists_on_disk (s : proc) (path : string) : bool :=
  match resolve s path with
  | Some d => match os_stat (env s) d with Some _ => true | None => false end
  | None => false
  end.

(** The compose file found in the working directory parses to [doc]. *)
Definition reads (s : proc) (doc : yaml) : Prop :=
  exists f,
    find (is_type Reg s) COMPOSE_FILES = Some f /\
    load_yaml f s = (Ok doc, s, []).

(** Every volume entry is a string, and the owner of every directory under
    [/opt/] it names is in the user database. *)
Definition entry_ok (s : proc) (entry : yaml) : bool :=
  match entry with
  | YStr v =>
      if is_type Dir s (host_path v) && Str.startswith "/opt/" v
      then match owner_name s (host_path v) with Ok _ => true | _ => false end
      else true
  | _ => false
  end.

Definition definition_ok (s : proc) (definition : yaml) : bool :=
  match definition with
  | YMap fields =>
      match Py.assoc "volumes" fields with
      | None => true
      | Some (YSeq entries) => forallb (entry_ok s) entries
      | Some _ => false
      end
  | _ => false
  end.

(** A compose file of the usual shape: a mapping whose [services] is a
    mapping of mappings, each with at most a sequence [volumes]. *)
Definition compose_ok (s : proc) (doc : yaml) : bool :=
  match doc with
  | YMap top =>
      match Py.assoc "services" top with
      | Some (YMap services) =>
          forallb (fun kv =>
                     match Py.assoc (fst kv) services with
                     | Some definition => definition_ok s definition
                     | None => false
                     end) services
      | _ => false
      end
  | _ => false
  end.

(** What the extractor keeps of a volume whose host path is [path]: the
    path with ["root"] when it is not a directory, with its owner when it
    is one under [/opt/]. *)
Definition recorded (s : proc) (record : string * string) : Prop :=
  (is_type Dir s (fst record) = false /\ snd record = "root") \/
  (is_type Dir s (fst record) = true /\
   Str.startswith "/opt/" (fst record) = true /\
   owner_name s (fst record) = Ok (snd record)).

(** The two lines the repairer prints for a volume that is not there. *)
Definition missing_warning (path : string) : list event :=
  [Print (Str.nl ++ "WARNING: You should probably create and/or set non root owner of volume folder: "
          ++ path ++ Str.nl);
   Print ("sudo mkdir -p " ++ path ++ " && sudo chown -R OWNER_HERE " ++ path ++ Str.nl)].

End Notions.



(** ** The entry point

    Who runs the program, beside the host: the groups of the user, the
    group database, the environment, and the command line as [argparse]
    hands it over.  [parse_args] either gives the namespace or has already
    left the process (status 2 on a wrong usage, 0 after [-h]); what
    [argparse] itself writes is not part of the events. *)

Module argparse.

Record Namespace : Type :=
  { action : string;
    project_path : option string;
    replace_path : option string }.

End argparse.

Class Caller {H : Host} : Type := {
  os_getgroups : world -> list nat;
  grp_getgrgid : world -> nat -> option string;
  os_environ : world -> string -> option string;
  parse_args : world -> outcome argparse.Namespace
}.

(** The values [choices] allows for the action. *)
Definition ACTIONS : list string := ["info"; "backup"; "up"; "down"; "deploy"].

Section Main.

Context {H : Host} {C : Caller}.

(** [grp.getgrgid(gid).gr_name] *)
Definition group_name (gid : nat) : M string :=
  fun s =>
    match grp_getgrgid (env s) gid with
    | Some name => (Ok name, s, [])
    | None => (Raise KeyError, s, [])
    end.

(** [os.environ[key]] *)
Definition environ (key : string) : M string :=
  fun s =>
    match os_environ (env s) key with
    | Some v => (Ok v, s, [])
    | None => (Raise KeyError, s, [])
    end.

(** The loop [for group in os.getgroups(): if grp.getgrgid(group).gr_name ==
    "docker": break]: whether it left through [break]. *)
Fixpoint docker_among (groups : list nat) : M bool :=
  match groups with
  | [] => ret false
  | group :: r =>
      name <- group_name group ;;
      if String.eqb name "docker" then ret true else docker_among r
  end.

Definition check_docker_membership : M unit :=
  groups <- (fun s => (Ok (os_getgroups (env s)), s, [])) ;;
  found <- docker_among groups ;;
  if found then ret tt
  else
    print "ERROR: Your user is not a member of 'docker' group" ;;
    user <- environ "USER" ;;
    print ("sudo usermod -a -G sudo " ++ user) ;;
    print "Then open a new shell" ;;
    sys_exit 1.

(** One of the two checks of [main] on a path argument. *)
Definition require_dir (path : option string) : M unit :=
  match path with
  | Some p =>
      is_dir <- isdir p ;;
      if negb is_dir then
        print ("No such project directory: " ++ p) ;;
        sys_exit 1
      else ret tt
  | None => ret tt
  end.

Definition main : M unit :=
  check_docker_membership ;;
  args <- (fun s => (parse_args (env s), s, [])) ;;
  require_dir (argparse.project_path args) ;;
  require_dir (argparse.replace_path args) ;;
  if String.eqb (argparse.action args) "deploy" then
    deploy_action (argparse.project_path args) (argparse.replace_path args)
  else if String.eqb (argparse.action args) "backup" then
    backup_action (argparse.project_path args)
  else if String.eqb (argparse.action args) "info" then
    info_action
  else if String.eqb (argparse.action args) "up" then
    up_action (argparse.project_path args)
  else if String.eqb (argparse.action args) "down" then
    down_action (argparse.project_path args)
  else
    print "ERROR: Wrong action" ;;
    sys_exit 1.

(** The user is in the group [docker], as the loop finds it: a group of
    that name, every group before it in the database under another name. *)
Definition docker_member (w : world) : Prop :=
  exists before gid after,
    os_getgroups w = (before ++ gid :: after)%list /\
    grp_getgrgid w gid = Some "docker" /\
    Forall (fun g => exists name,
                grp_getgrgid w g = Some name /\ String.eqb name "docker" = false)
      before.

(** Every group of the user is in the database, none is [docker]. *)
Definition docker_stranger (w : world) : Prop :=
  Forall (fun g => exists name,
              grp_getgrgid w g = Some name /\ String.eqb name "docker" = false)
    (os_getgroups w).

End Main.

(** A caller on the test host: in the groups [groups], named [alice], with
    the command line parsed to [parsed]. *)
Definition test_caller (groups : list nat) (parsed : outcome argparse.Namespace)
  : @Caller TestHost.host :=
  {| os_getgroups := fun _ => groups;
     grp_getgrgid := fun _ gid =>
                       TestHost.user [(1000, "alice"); (27, "sudo"); (998, "docker")] gid;
     os_environ := fun _ key => if String.eqb key "USER" then Some "alice" else None;
     parse_args := fun _ => parsed |}.

(** ** Further notions *)

Section MoreNotions.

Context {H : Host}.

(** The directory [top], and every directory on the way from it down
    through [rest], is one. *)
Fixpoint standing_below (w : world) (top rest : Path.dir) : bool :=
  is_directory w top &&
  match rest with
  | [] => true
  | comp :: r => standing_below w (top ++ [comp])%list r
  end.

(** Directory [d] is there for a process that comes from the root: it is a
    directory, and so is every directory above it. *)
Definition standing (w : world) (d : Path.dir) : bool := standing_below w [] d.

(** An action given [project_path] gets through [check_compose_file]: the
    path can be changed into, one of the four names is a regular file
    there, and the directory the process started in is still there to
    change back into. *)
Definition project_ready (s : proc) (project_path : option string) : Prop :=
  reachable s project_path /\
  standing (env s) (cwd s) = true /\
  find (regular (env s) (target s project_path)) COMPOSE_NAMES <> None.

(** What one volume entry adds to the list of the extractor. *)
Definition entry_records (s : proc) (entry : yaml) : list (string * string) :=
  match entry with
  | YStr v =>
      if negb (is_type Dir s (host_path v)) then [(host_path v, "root")]
      else if negb (Str.startswith "/opt/" v) then []
      else match owner_name s (host_path v) with
           | Ok owner => [(host_path v, owner)]
           | _ => []
           end
  | _ => []
  end.

(** What one volume entry makes the extractor print. *)
Definition entry_warnings (s : proc) (entry : yaml) : list event :=
  match entry with
  | YStr v =>
      if is_type Dir s (host_path v) && negb (Str.startswith "/opt/" v)
      then [Print (Str.nl ++ "WARNING: Skipping volume, must start with /opt/ : "
                   ++ host_path v ++ Str.nl)]
      else []
  | _ => []
  end.

(** The volume entries of a compose file of the usual shape, service after
    service, in the order of the document. *)
Definition declared_entries (doc : yaml) : list yaml :=
  match doc with
  | YMap top =>
      match Py.assoc "services" top with
      | Some (YMap services) =>
          flat_map (fun kv : string * yaml =>
                      match Py.assoc (fst kv) services with
                      | Some (YMap fields) =>
                          match Py.assoc "volumes" fields with
                          | Some (YSeq entries) => entries
                          | _ => []
                          end
                      | _ => []
                      end) services
      | _ => []
      end
  | _ => []
  end.

End MoreNotions.

(** ** Notions of the repair

    What the statements on the repairer say of the commands it runs and of
    the compose file it reads. *)

Section RepairNotions.

Context {H : Host}.

(** The type of the entry [d], if there is one. *)
Definition ftype_at (w : world) (d : Path.dir) : option ftype :=
  option_map st_type (os_stat w d).

(** What [sudo chown -R owner path] has done where it returned 0: it has
    made and removed nothing, has left the content of every file, has
    given every entry of the tree under [path] to [owner], and has left the
    owner of every other entry. *)
Definition chown_works : Prop :=
  forall owner path c w w',
    subprocess_run ["sudo"; "chown"; "-R"; owner; path] c w = (w', Some 0%Z) ->
    (forall d, ftype_at w' d = ftype_at w d) /\
    (forall d, yaml_safe_load w' d = yaml_safe_load w d) /\
    (forall d, os_stat w d <> None ->
       owner_at w' d =
       match resolve {| cwd := c; env := w |} path with
       | Some top => if Path.below top d then Ok owner else owner_at w d
       | None => owner_at w d
       end).

(** A recursive change of owner, run in directory [c], does not bring
    [path] into being. *)
Definition chown_creates_nothing_at (c : Path.dir) (path : string) : Prop :=
  forall owner target w w',
    subprocess_run ["sudo"; "chown"; "-R"; owner; target] c w = (w', Some 0%Z) ->
    exists_on_disk {| cwd := c; env := w |} path = false ->
    exists_on_disk {| cwd := c; env := w' |} path = false.

(** The change of owner of another volume of the list the extractor
    returns in [s] does not take [path] away from [root]. *)
Definition repairs_leave_root (s : proc) (path : string) : Prop :=
  forall out s' l volume owner w w',
    volumes_from_compose_file s = (Ok out, s', l) ->
    In (volume, owner) out -> volume <> path ->
    subprocess_run ["sudo"; "chown"; "-R"; owner; volume] (cwd s) w = (w', Some 0%Z) ->
    owner_name {| cwd := cwd s; env := w |} path = Ok "root" ->
    owner_name {| cwd := cwd s; env := w' |} path = Ok "root".

(** The volume entries of one service, as the inner loop of the extractor
    gets them. *)
Definition entries_of (definition : yaml) : list yaml :=
  match Py.contains "volumes" definition with
  | Ok true =>
      match Py.getitem definition (YStr "volumes") with
      | Ok declared =>
          match Py.iter declared with
          | Ok entries => entries
          | _ => []
          end
      | _ => []
      end
  | _ => []
  end.

(** The volume entries of a compose file, as the two loops of the
    extractor go through them: service after service, in the order of the
    document, whatever the shape of the document. *)
Definition volume_entries (doc : yaml) : list yaml :=
  match Py.getitem doc (YStr "services") with
  | Ok services =>
      match Py.iter services with
      | Ok names =>
          flat_map (fun name =>
                      match Py.getitem services name with
                      | Ok definition => entries_of definition
                      | _ => []
                      end) names
      | _ => []
      end
  | _ => []
  end.





End RepairNotions.


(** More states of the test host. *)

(** The project after a first start: the container engine has made
    [/opt/app/data], which belongs to [root]. *)
Definition created_world : TestHost.state :=
  {| TestHost.nodes :=
       [ (["home"], TestHost.Directory 0);
         (["home"; "u"], TestHost.Directory 1000);
         (["home"; "u"; "app"], TestHost.Directory 1000);
         (["home"; "u"; "app"; "docker-compose.yml"],
          TestHost.File 1000 (Some (TestHost.compose ["/opt/app/data:/data"])));
         (["opt"], TestHost.Directory 0);
         (["opt"; "app"], TestHost.Directory 0);
         (["opt"; "app"; "data"], TestHost.Directory 0) ];
     TestHost.passwd := TestHost.users;
     TestHost.clock := TestHost.noon |}.

(** A compose file that declares no services. *)
Definition unserviced_world : TestHost.state :=
  {| TestHost.nodes :=
       [ (["home"], TestHost.Directory 0);
         (["home"; "u"], TestHost.Directory 1000);
         (["home"; "u"; "app"], TestHost.Directory 1000);
         (["home"; "u"; "app"; "compose.yml"],
          TestHost.File 1000 (Some (YMap [("version", YStr "3")]))) ];
     TestHost.passwd := TestHost.users;
     TestHost.clock := TestHost.noon |}.

(** A process runner that fails: every command returns [code]. *)
Definition failing_host (code : Z) : Host :=
  {| world := TestHost.state;
     os_stat := TestHost.stat;
     os_listdir := TestHost.ls;
     pwd_getpwuid := fun w => TestHost.user (TestHost.passwd w);
     yaml_safe_load := TestHost.parse;
     datetime_now := TestHost.clock;
     subprocess_run := fun _ _ w => (TestHost.run w, Some code) |}.

(** A process on the failing host, in directory [d]. *)
Definition failing_proc (code : Z) (d : Path.dir) (w : TestHost.state)
  : @proc (failing_host code) :=
  @Build_proc (failing_host code) d w.

(** The new tree and the replace target of [TestHost.deploy_world], on the
    failing host. *)
Definition failing_deploy (code : Z) : @proc (failing_host code) :=
  failing_proc code ["home"; "u"] TestHost.deploy_world.

(** ** A host whose commands do their work

    The table of [TestHost], with a [sudo chown -R] that gives the tree
    under its target to the user and a [sudo mkdir -p] that makes, for
    [root], the directories that are missing.  Every other command
    succeeds and leaves the table alone. *)

Module LiveHost.

Definition is_dir (w : TestHost.state) (d : Path.dir) : bool :=
  match TestHost.stat w d with
  | Some st => match st_type st with Dir => true | _ => false end
  | None => false
  end.

Fixpoint uid_of (t : list (nat * string)) (name : string) : option nat :=
  match t with
  | [] => None
  | (u, n) :: r => if String.eqb n name then Some u else uid_of r name
  end.

Definition give (uid : nat) (n : TestHost.node) : TestHost.node :=
  match n with
  | TestHost.File _ content => TestHost.File uid content
  | TestHost.Directory _ => TestHost.Directory uid
  end.

Definition chown_tree (uid : nat) (top : Path.dir) (t : list (Path.dir * TestHost.node))
  : list (Path.dir * TestHost.node) :=
  map (fun pn => if Path.below top (fst pn) then (fst pn, give uid (snd pn)) else pn) t.

Definition later (nodes : list (Path.dir * TestHost.node)) (w : TestHost.state)
  : TestHost.state :=
  {| TestHost.nodes := nodes;
     TestHost.passwd := TestHost.passwd w;
     TestHost.clock := TestHost.tick (TestHost.clock w) |}.

(** [chown -R owner path]: it fails on a path that names nothing, on the
    root and on a name the user database does not give back. *)
Definition chown_r (owner path : string) (c : Path.dir) (w : TestHost.state)
  : TestHost.state * option Z :=
  match Path.resolve (is_dir w) c path, uid_of (TestHost.passwd w) owner with
  | Some (comp :: rest), Some uid =>
      match TestHost.find_node (TestHost.nodes w) (comp :: rest),
            TestHost.user (TestHost.passwd w) uid with
      | Some _, Some name =>
          if String.eqb name owner
          then (later (chown_tree uid (comp :: rest) (TestHost.nodes w)) w, Some 0%Z)
          else (TestHost.run w, Some 1%Z)
      | _, _ => (TestHost.run w, Some 1%Z)
      end
  | _, _ => (TestHost.run w, Some 1%Z)
  end.

Fixpoint make_dirs (t : list (Path.dir * TestHost.node)) (made rest : Path.dir)
  : option (list (Path.dir * TestHost.node)) :=
  match rest with
  | [] => Some t
  | comp :: r =>
      let d := (made ++ [comp])%list in
      match TestHost.find_node t d with
      | Some (TestHost.Directory _) => make_dirs t d r
      | Some (TestHost.File _ _) => None
      | None => make_dirs (t ++ [(d, TestHost.Directory 0)])%list d r
      end
  end.

(** [mkdir -p path] *)
Definition mkdir_p (path : string) (c : Path.dir) (w : TestHost.state)
  : TestHost.state * option Z :=
  match make_dirs (TestHost.nodes w) [] (Path.walk c path) with
  | Some t => (later t w, Some 0%Z)
  | None => (TestHost.run w, Some 1%Z)
  end.

Definition run (argv : list string) (c : Path.dir) (w : TestHost.state)
  : TestHost.state * option Z :=
  match argv with
  | [sudo; command; flag; owner; path] =>
      if String.eqb sudo "sudo" && String.eqb command "chown" && String.eqb flag "-R"
      then chown_r owner path c w
      else (TestHost.run w, Some 0%Z)
  | [sudo; command; flag; path] =>
      if String.eqb sudo "sudo" && String.eqb command "mkdir" && String.eqb flag "-p"
      then mkdir_p path c w
      else (TestHost.run w, Some 0%Z)
  | _ => (TestHost.run w, Some 0%Z)
  end.

Definition host : Host :=
  {| world := TestHost.state;
     os_stat := TestHost.stat;
     os_listdir := TestHost.ls;
     pwd_getpwuid := fun w => TestHost.user (TestHost.passwd w);
     yaml_safe_load := TestHost.parse;
     datetime_now := TestHost.clock;
     subprocess_run := run |}.

(** A process on this host, in directory [d]. *)
Definition process (d : Path.dir) (w : TestHost.state) : @proc host :=
  @Build_proc host d w.

(** A project with three volumes: [/opt/app/media], which belongs to
    [alice] and holds a file of [bob]; [/opt/app/data], which belongs to
    [root]; and [/srv/x], which is not there. *)
Definition sibling_world : TestHost.state :=
  {| TestHost.nodes :=
       [ (["home"], TestHost.Directory 0);
         (["home"; "u"], TestHost.Directory 1000);
         (["home"; "u"; "app"], TestHost.Directory 1000);
         (["home"; "u"; "app"; "docker-compose.yml"],
          TestHost.File 1000
            (Some (TestHost.compose
                     ["/opt/app/media:/media"; "/opt/app/data:/data"; "/srv/x:/x"])));
         (["opt"], TestHost.Directory 0);
         (["opt"; "app"], TestHost.Directory 0);
         (["opt"; "app"; "media"], TestHost.Directory 1000);
         (["opt"; "app"; "media"; "pic"], TestHost.File 1001 None);
         (["opt"; "app"; "data"], TestHost.Directory 0) ];
     TestHost.passwd := TestHost.users;
     TestHost.clock := TestHost.noon |}.


End LiveHost.

(** A compose file whose second volume is written in the long syntax, as a
    mapping, between two in the short syntax: [/opt/app/data] is a
    directory of [alice], [/srv/x] is not there. *)
Definition long_syntax : yaml :=
  YMap [("services",
         YMap [("web",
                YMap [("image", YStr "nginx");
                      ("volumes",
                       YSeq [YStr "/opt/app/data:/data";
                             YMap [("type", YStr "bind");
                                   ("source", YStr "/opt/app/conf");
                                   ("target", YStr "/conf")];
                             YStr "/srv/x:/x"])])])].

Definition long_syntax_world : TestHost.state :=
  {| TestHost.nodes :=
       [ (["home"], TestHost.Directory 0);
         (["home"; "u"], TestHost.Directory 1000);
         (["home"; "u"; "app"], TestHost.Directory 1000);
         (["home"; "u"; "app"; "docker-compose.yml"],
          TestHost.File 1000 (Some long_syntax));
         (["opt"], TestHost.Directory 0);
         (["opt"; "app"], TestHost.Directory 0);
         (["opt"; "app"; "data"], TestHost.Directory 1000);
         (["opt"; "app"; "conf"], TestHost.Directory 1000) ];
     TestHost.passwd := TestHost.users;
     TestHost.clock := TestHost.noon |}.

(** * Properties *)

(** ** Strings and paths *)

Example split_volume :
  Str.split ":"%char "/opt/app/data:/data:ro" = ["/opt/app/data"; "/data"; "ro"].
Proof. reflexivity. Qed.

Example split_root : Str.split "/"%char "/" = [EmptyString; EmptyString].
Proof. reflexivity. Qed.

Example pad_2 : Str.pad 2 7 = "07" /\ Str.pad 4 2026 = "2026" /\ Str.pad 2 0 = "00".
Proof. repeat split; reflexivity. Qed.

Example walk_rel : Path.walk ["home"; "u"] "./proj/../app/" = ["home"; "u"; "app"].
Proof. reflexivity. Qed.

Example abspath_rel : Path.abspath ["home"; "u"] "new" = "/home/u/new".
Proof. reflexivity. Qed.

Example abspath_two_slashes : Path.abspath ["home"] "//prod/app" = "//prod/app".
Proof. reflexivity. Qed.

Lemma split_not_nil sep s : Str.split sep s <> [].
Proof.
  destruct s as [|c r]; simpl; [discriminate|].
  destruct (Ascii.eqb c sep); [discriminate|].
  destruct (Str.split sep r); discriminate.
Qed.

Lemma split_without_sep sep s :
  Str.has_char sep s = false -> Str.split sep s = [s].
Proof.
  induction s as [|c r IH]; simpl; intros Hs; [reflexivity|].
  apply orb_false_iff in Hs as [Hc Hr].
  rewrite Hc, (IH Hr). reflexivity.
Qed.

Lemma split_app_sep sep a b :
  Str.has_char sep a = false ->
  Str.split sep (a ++ String sep b) = a :: Str.split sep b.
Proof.
  induction a as [|c r IH]; simpl; intros Ha.
  - rewrite Ascii.eqb_refl. reflexivity.
  - apply orb_false_iff in Ha as [Hc Hr].
    rewrite Hc, (IH Hr). reflexivity.
Qed.

Lemma split_parts_without_sep sep s :
  Forall (fun c => Str.has_char sep c = false) (Str.split sep s).
Proof.
  induction s as [|c r IH]; simpl.
  - constructor; [reflexivity|constructor].
  - destruct (Ascii.eqb c sep) eqn:Hc.
    + constructor; [reflexivity|assumption].
    + destruct (Str.split sep r) as [|h t].
      * constructor; [simpl; now rewrite Hc|constructor].
      * inversion IH; subst. constructor; [simpl; now rewrite Hc|assumption].
Qed.

Lemma split_join sep (l : list string) :
  l <> [] ->
  Forall (fun c => Str.has_char sep c = false) l ->
  Str.split sep (Str.join (String sep EmptyString) l) = l.
Proof.
  induction l as [|c r IH]; [congruence|].
  intros _ Hall. inversion Hall as [|? ? Hc Hr]; subst.
  destruct r as [|d r'].
  - simpl. now apply split_without_sep.
  - change (Str.join (String sep EmptyString) (c :: d :: r'))
      with (c ++ String sep (Str.join (String sep EmptyString) (d :: r'))).
    rewrite (split_app_sep _ _ _ Hc). f_equal. apply IH; [discriminate|assumption].
Qed.

Lemma comp_ok_spec c :
  Path.comp_ok c = true ->
  c <> EmptyString /\ c <> "." /\ c <> ".." /\ Str.has_char "/"%char c = false.
Proof.
  unfold Path.comp_ok. intros Hc.
  repeat (apply andb_true_iff in Hc as [Hc ?]).
  repeat match goal with
         | Hn : negb _ = true |- _ => apply negb_true_iff in Hn
         end.
  repeat split; try assumption; intros ->; discriminate.
Qed.

Lemma step_ok acc c : Path.comp_ok c = true -> Path.step acc c = (acc ++ [c])%list.
Proof.
  intros Hc. apply comp_ok_spec in Hc as (H1 & H2 & H3 & _).
  unfold Path.step.
  apply String.eqb_neq in H1, H2, H3. now rewrite H1, H2, H3.
Qed.

Lemma fold_step_ok d : forall acc,
  Path.wf d = true -> fold_left Path.step d acc = (acc ++ d)%list.
Proof.
  induction d as [|c r IH]; simpl; intros acc Hd.
  - now rewrite app_nil_r.
  - apply andb_true_iff in Hd as [Hc Hr].
    rewrite (step_ok _ _ Hc), (IH _ Hr), <- app_assoc. reflexivity.
Qed.

Lemma wf_without_slash d :
  Path.wf d = true -> Forall (fun c => Str.has_char "/"%char c = false) d.
Proof.
  unfold Path.wf. rewrite forallb_forall, Forall_forall.
  intros Hd c Hc. now apply comp_ok_spec, Hd.
Qed.

Lemma walk_join_wf d :
  Path.wf d = true ->
  fold_left Path.step (Str.split "/"%char (Str.join "/" d)) [] = d.
Proof.
  intros Hd. destruct d as [|c r]; [reflexivity|].
  rewrite split_join; [|discriminate|now apply wf_without_slash].
  now rewrite fold_step_ok.
Qed.

Lemma isabs_slash rest : Path.isabs (String "/" rest) = true.
Proof. reflexivity. Qed.

(** Changing to the directory [os.getcwd()] gave leads back to it. *)
Lemma walk_render c d : Path.wf d = true -> Path.walk c (Path.render d) = d.
Proof.
  intros Hd. unfold Path.walk, Path.render.
  change ("/" ++ Str.join "/" d) with (String "/" (Str.join "/" d)).
  rewrite isabs_slash. simpl. now apply walk_join_wf.
Qed.

Lemma wf_removelast d : Path.wf d = true -> Path.wf (removelast d) = true.
Proof.
  unfold Path.wf. rewrite !forallb_forall. intros Hd c Hc.
  apply Hd. destruct d as [|x r]; [contradiction|].
  destruct (exists_last (l := x :: r)) as (l' & a & E); [discriminate|].
  rewrite E in *. rewrite removelast_last in Hc. apply in_or_app. now left.
Qed.

Lemma wf_step acc c :
  Path.wf acc = true -> Str.has_char "/"%char c = false -> Path.wf (Path.step acc c) = true.
Proof.
  intros Hacc Hc. unfold Path.step.
  destruct (String.eqb c EmptyString) eqn:E1; [assumption|].
  destruct (String.eqb c ".") eqn:E2; [assumption|].
  destruct (String.eqb c "..") eqn:E3; [now apply wf_removelast|].
  unfold Path.wf in *. rewrite forallb_app, Hacc. simpl.
  unfold Path.comp_ok. now rewrite E1, E2, E3, Hc.
Qed.

Lemma wf_fold_step l : forall acc,
  Path.wf acc = true -> Forall (fun c => Str.has_char "/"%char c = false) l ->
  Path.wf (fold_left Path.step l acc) = true.
Proof.
  induction l as [|c r IH]; simpl; intros acc Hacc Hl; [assumption|].
  inversion Hl; subst. apply IH; [now apply wf_step|assumption].
Qed.

Lemma wf_walk c path : Path.wf c = true -> Path.wf (Path.walk c path) = true.
Proof.
  intros Hc. unfold Path.walk. apply wf_fold_step.
  - now destruct (Path.isabs path).
  - apply split_parts_without_sep.
Qed.

(** Resolving what [os.path.abspath] returned, from anywhere, reaches the
    directory entry the path itself named. *)
Lemma walk_abspath c c' path :
  Path.wf c' = true -> Path.walk c (Path.abspath c' path) = Path.walk c' path.
Proof.
  intros Hc'. pose proof (wf_walk c' path Hc') as Hw.
  unfold Path.abspath.
  destruct (Str.startswith "//" path && negb (Str.startswith "///" path));
    unfold Path.walk at 1.
  - change ("//" ++ Str.join "/" (Path.walk c' path))
      with (String "/" (String "/" (Str.join "/" (Path.walk c' path)))).
    rewrite isabs_slash. simpl. now apply walk_join_wf.
  - change ("/" ++ Str.join "/" (Path.walk c' path))
      with (String "/" (Str.join "/" (Path.walk c' path))).
    rewrite isabs_slash. simpl. now apply walk_join_wf.
Qed.

(** A walk through the file system, where it gets through, ends where the
    walk on the text ends. *)
Lemma resolve_from_walk is_dir comps : forall acc d,
  Path.resolve_from is_dir acc comps = Some d -> d = fold_left Path.step comps acc.
Proof.
  induction comps as [|c r IH]; cbn [Path.resolve_from fold_left]; intros acc d E.
  - now injection E as <-.
  - destruct (is_dir acc); [now apply IH|discriminate].
Qed.

Lemma resolve_walk is_dir c path d :
  Path.resolve is_dir c path = Some d -> d = Path.walk c path.
Proof.
  unfold Path.resolve, Path.walk. destruct (String.eqb path EmptyString); [discriminate|].
  apply resolve_from_walk.
Qed.

(** The walk asks which entries are directories, and nothing else. *)
Lemma resolve_from_ext f g comps :
  (forall d, f d = g d) ->
  forall acc, Path.resolve_from f acc comps = Path.resolve_from g acc comps.
Proof.
  intros Hfg. induction comps as [|c r IH]; cbn [Path.resolve_from]; intros acc;
    [reflexivity|].
  rewrite Hfg. destruct (g acc); [apply IH|reflexivity].
Qed.

Lemma resolve_ext f g c path :
  (forall d, f d = g d) -> Path.resolve f c path = Path.resolve g c path.
Proof.
  intros Hfg. unfold Path.resolve. destruct (String.eqb path EmptyString); [reflexivity|].
  now apply resolve_from_ext.
Qed.

Lemma split_render d :
  Path.wf d = true ->
  Str.split "/"%char (Path.render d) =
  EmptyString :: match d with [] => [EmptyString] | _ => d end.
Proof.
  intros Hd. unfold Path.render.
  change ("/" ++ Str.join "/" d) with (String "/" (Str.join "/" d)).
  cbn [Str.split]. rewrite Ascii.eqb_refl. f_equal.
  destruct d as [|c r]; [reflexivity|].
  apply split_join; [discriminate|now apply wf_without_slash].
Qed.

(** ** The monad *)

Section Facts.

Context {H : Host}.

Lemma bind_ok {A B} (m : M A) (k : A -> M B) s b s' l :
  bind m k s = (Ok b, s', l) ->
  exists a s1 l1 l2,
    m s = (Ok a, s1, l1) /\ k a s1 = (Ok b, s', l2) /\ l = (l1 ++ l2)%list.
Proof.
  unfold bind. destruct (m s) as [[[a|n|e] s1] l1]; try discriminate.
  destruct (k a s1) as [[r s2] l2] eqn:Ek. intros E; inversion E; subst.
  now exists a, s1, l1, l2.
Qed.

Lemma bind_run {A B} (m : M A) (k : A -> M B) s a s1 l1 :
  m s = (Ok a, s1, l1) ->
  bind m k s = (let '(r, s2, l2) := k a s1 in (r, s2, (l1 ++ l2)%list)).
Proof. unfold bind. now intros ->. Qed.

Lemma bind_exit {A B} (m : M A) (k : A -> M B) s n s1 l1 :
  m s = (Exit n, s1, l1) -> bind m k s = (Exit n, s1, l1).
Proof. unfold bind. now intros ->. Qed.

Lemma bind_raise {A B} (m : M A) (k : A -> M B) s e s1 l1 :
  m s = (Raise e, s1, l1) -> bind m k s = (Raise e, s1, l1).
Proof. unfold bind. now intros ->. Qed.

(** Every way a sequence can end. *)
Lemma bind_cases {A B} (m : M A) (k : A -> M B) s r s' l :
  bind m k s = (r, s', l) ->
  (exists a s1 l1 l2,
      m s = (Ok a, s1, l1) /\ k a s1 = (r, s', l2) /\ l = (l1 ++ l2)%list) \/
  ((exists n, m s = (Exit n, s', l) /\ r = Exit n) \/
   (exists e, m s = (Raise e, s', l) /\ r = Raise e)).
Proof.
  unfold bind. destruct (m s) as [[[a|n|e] s1] l1].
  - destruct (k a s1) as [[r2 s2] l2] eqn:Ek. intros E; inversion E; subst.
    left. now exists a, s1, l1, l2.
  - intros E; inversion E; subst. right; left. now exists n.
  - intros E; inversion E; subst. right; right. now exists e.
Qed.

(** A step that returns without a trace does not show in the sequence. *)
Lemma bind_silent {A B} (m : M A) (k : A -> M B) s a :
  m s = (Ok a, s, []) -> bind m k s = k a s.
Proof.
  intros E. unfold bind. rewrite E. now destruct (k a s) as [[r s'] l].
Qed.

(** A step that returns without a trace passes its state on. *)
Lemma bind_quiet {A B} (m : M A) (k : A -> M B) s a s1 :
  m s = (Ok a, s1, []) -> bind m k s = k a s1.
Proof.
  intros E. unfold bind. rewrite E. now destruct (k a s1) as [[r s'] l].
Qed.

Lemma proc_eta (s s' : proc) : cwd s' = cwd s -> env s' = env s -> s' = s.
Proof. destruct s, s'; simpl; intros; subst; reflexivity. Qed.

Lemma calls_app l1 l2 : calls (l1 ++ l2) = (calls l1 ++ calls l2)%list.
Proof. apply filter_app. Qed.

Lemma looks_ret {A} (a : A) : looks (ret a).
Proof. intros s r s' l E; inversion E; now subst. Qed.

Lemma looks_lift {A} (r : outcome A) : looks (lift r).
Proof. intros s r' s' l E; inversion E; now subst. Qed.

Lemma looks_bind {A B} (m : M A) (k : A -> M B) :
  looks m -> (forall a, looks (k a)) -> looks (bind m k).
Proof.
  intros Hm Hk s r s' l E.
  apply bind_cases in E as [(a & s1 & l1 & l2 & E1 & E2 & ->)|[(n & E1 & _)|(e & E1 & _)]].
  - apply Hm in E1 as [-> C1]. apply Hk in E2 as [-> C2].
    split; [reflexivity|]. now rewrite calls_app, C1, C2.
  - now apply Hm in E1.
  - now apply Hm in E1.
Qed.

Lemma looks_for_fold {A S} (body : S -> A -> M S) l :
  (forall acc x, looks (body acc x)) -> forall acc, looks (for_fold l body acc).
Proof.
  intros Hb. induction l as [|x r IH]; intros acc; simpl.
  - apply looks_ret.
  - apply looks_bind; [apply Hb|intros a; apply IH].
Qed.

Lemma looks_print msg : looks (print msg).
Proof. intros s r s' l E; inversion E; now subst. Qed.

Lemma looks_isfile p : looks (isfile p).
Proof. intros s r s' l E; inversion E; now subst. Qed.

Lemma looks_isdir p : looks (isdir p).
Proof. intros s r s' l E; inversion E; now subst. Qed.

Lemma looks_getcwd : looks getcwd.
Proof. intros s r s' l E; inversion E; now subst. Qed.

Lemma looks_stat_owner p : looks (stat_owner p).
Proof. intros s r s' l E; inversion E; now subst. Qed.

Lemma looks_load_yaml p : looks (load_yaml p).
Proof.
  intros s r s' l. unfold load_yaml.
  destruct (resolve s p); [|intros E; inversion E; now subst].
  destruct (os_stat (env s) d); [|intros E; inversion E; now subst].
  destruct (st_type s0);
    try (destruct (yaml_safe_load (env s) d));
    intros E; inversion E; now subst.
Qed.

Lemma looks_first_file cands : looks (first_file cands).
Proof.
  induction cands as [|c r IH]; simpl.
  - apply looks_ret.
  - apply looks_bind; [apply looks_isfile|].
    intros [|]; [apply looks_ret|apply IH].
Qed.

Lemma looks_volume_entry acc v : looks (volume_entry acc v).
Proof.
  destruct v; try apply looks_lift. unfold volume_entry.
  apply looks_bind; [apply looks_isdir|]. intros is_dir.
  destruct (negb is_dir); [apply looks_ret|].
  destruct (negb (Str.startswith "/opt/" s)).
  - apply looks_bind; [apply looks_print|intros; apply looks_ret].
  - apply looks_bind; [apply looks_stat_owner|intros; apply looks_ret].
Qed.

Lemma looks_service_entry services acc service :
  looks (service_entry services acc service).
Proof.
  unfold service_entry.
  apply looks_bind; [apply looks_lift|]. intros definition.
  apply looks_bind; [apply looks_lift|]. intros [|]; [|apply looks_ret].
  apply looks_bind; [apply looks_lift|]. intros declared.
  apply looks_bind; [apply looks_lift|]. intros entries.
  apply looks_for_fold. intros; apply looks_volume_entry.
Qed.

(** The extractor reads; it changes nothing and runs nothing. *)
Lemma looks_volumes_from_compose_file : looks volumes_from_compose_file.
Proof.
  unfold volumes_from_compose_file.
  apply looks_bind; [apply looks_first_file|]. intros [f|].
  - apply looks_bind; [apply looks_load_yaml|]. intros yaml_data.
    apply looks_bind; [apply looks_lift|]. intros has.
    destruct (negb has).
    + apply looks_bind; [apply looks_print|intros; apply looks_lift].
    + apply looks_bind; [apply looks_lift|]. intros services.
      apply looks_bind; [apply looks_lift|]. intros names.
      apply looks_for_fold. intros; apply looks_service_entry.
  - apply looks_bind; [apply looks_getcwd|]. intros here.
    apply looks_bind; [apply looks_print|intros; apply looks_lift].
Qed.

End Facts.

(** ** The working directory *)

Ltac bind_ok_in E :=
  let a := fresh "a" in
  let s1 := fresh "s" in
  let l1 := fresh "l" in
  let l2 := fresh "l" in
  let E1 := fresh "E" in
  let E2 := fresh "E" in
  apply bind_ok in E as (a & s1 & l1 & l2 & E1 & E2 & ->);
  repeat match goal with u : unit |- _ => destruct u end.

Section Cwd.

Context {H : Host}.

Lemma no_calls_ran_in d l : calls l = [] -> Forall (ran_in d) l.
Proof.
  induction l as [|e r IH]; simpl; intros Hl; [constructor|].
  destruct e as [msg|argv d']; simpl in Hl; [|discriminate].
  constructor; [exact I|now apply IH].
Qed.

Lemma looks_stays {A} (m : M A) : looks m -> stays m.
Proof.
  intros Hm s r s' l E. apply Hm in E as [-> Hl].
  split; [reflexivity|now apply no_calls_ran_in].
Qed.

Lemma stays_bind {A B} (m : M A) (k : A -> M B) :
  stays m -> (forall a, stays (k a)) -> stays (bind m k).
Proof.
  intros Hm Hk s r s' l E.
  apply bind_cases in E as [(a & s1 & l1 & l2 & E1 & E2 & ->)|[(n & E1 & _)|(e & E1 & _)]].
  - apply Hm in E1 as [C1 F1]. apply Hk in E2 as [C2 F2].
    rewrite C1 in *. split; [assumption|]. apply Forall_app. now split.
  - now apply Hm in E1.
  - now apply Hm in E1.
Qed.

Lemma stays_for_each {A} (body : A -> M unit) l :
  (forall x, stays (body x)) -> stays (for_each l body).
Proof.
  intros Hb. induction l as [|x r IH]; simpl.
  - apply looks_stays, looks_ret.
  - apply stays_bind; [apply Hb|intros _; apply IH].
Qed.

Lemma check_call_inv argv s r s' l :
  check_call argv s = (r, s', l) ->
  l = [Call argv (cwd s)] /\ cwd s' = cwd s /\
  env s' = fst (subprocess_run argv (cwd s) (env s)).
Proof.
  unfold check_call. destruct (subprocess_run argv (cwd s) (env s)) as [w [c|]].
  - destruct (c =? 0)%Z; intros E; inversion E; subst; now simpl.
  - intros E; inversion E; subst; now simpl.
Qed.

Lemma stays_check_call argv : stays (check_call argv).
Proof.
  intros s r s' l E. apply check_call_inv in E as (-> & C & _).
  split; [assumption|]. constructor; [reflexivity|constructor].
Qed.

Lemma stays_fix_volume v : stays (fix_volume v).
Proof.
  unfold fix_volume.
  apply stays_bind; [apply looks_stays, looks_isdir|]. intros is_dir.
  destruct (negb is_dir).
  - apply looks_stays, looks_bind; [apply looks_print|intros; apply looks_print].
  - apply stays_bind; [apply looks_stays, looks_stat_owner|]. intros owner.
    destruct (String.eqb owner "root").
    + apply looks_stays, looks_bind; [apply looks_print|intros; apply looks_print].
    + apply stays_check_call.
Qed.

Lemma stays_fix_volumes_ownership : stays fix_volumes_ownership.
Proof.
  unfold fix_volumes_ownership.
  apply stays_bind; [apply looks_stays, looks_volumes_from_compose_file|].
  intros volumes. apply stays_for_each, stays_fix_volume.
Qed.

Lemma is_type_dir s path :
  is_type Dir s path =
  match resolve s path with
  | Some d => is_directory (env s) d
  | None => false
  end.
Proof.
  unfold is_type, is_directory. destruct (resolve s path) as [d|]; [|reflexivity].
  destruct (os_stat (env s) d) as [st|]; [|reflexivity]. now destruct (st_type st).
Qed.

Lemma chdir_ok path s s' l :
  chdir path s = (Ok tt, s', l) ->
  s' = enter s (Path.walk (cwd s) path) /\ l = [] /\ is_type Dir s path = true.
Proof.
  unfold chdir. rewrite is_type_dir. destruct (resolve s path) as [d|] eqn:R; [|discriminate].
  destruct (is_directory (env s) d); [|discriminate].
  intros E; inversion E; subst. apply resolve_walk in R. now subst.
Qed.

Lemma chdir_run path s :
  is_type Dir s path = true ->
  chdir path s = (Ok tt, enter s (Path.walk (cwd s) path), []).
Proof.
  unfold chdir. rewrite is_type_dir. destruct (resolve s path) as [d|] eqn:R; [|discriminate].
  intros ->. apply resolve_walk in R. now subst.
Qed.

Lemma chdir_fails path s :
  is_type Dir s path = false -> chdir path s = (Raise OSError, s, []).
Proof.
  unfold chdir. rewrite is_type_dir. destruct (resolve s path) as [d|]; [|reflexivity].
  now intros ->.
Qed.

Lemma change_cwd_ok p old s s' l :
  change_cwd p s = (Ok old, s', l) ->
  old = Path.render (cwd s) /\ s' = enter s (target s p) /\ l = [].
Proof.
  unfold change_cwd. intros E. bind_ok_in E.
  inversion E0; subst; clear E0.
  destruct p as [q|].
  - bind_ok_in E1. apply chdir_ok in E as (-> & -> & _).
    inversion E0; subst. now simpl.
  - inversion E1; subst. simpl. repeat split. now apply proc_eta.
Qed.

Lemma first_file_run cands s :
  first_file cands s = (Ok (find (is_type Reg s) cands), s, []).
Proof.
  induction cands as [|c r IH]; simpl; [reflexivity|].
  unfold bind, isfile. destruct (is_type Reg s c); [reflexivity|].
  now rewrite IH.
Qed.

Lemma check_compose_file_ok p s s' l :
  Path.wf (cwd s) = true ->
  check_compose_file p s = (Ok tt, s', l) ->
  s' = s /\ l = [] /\
  exists f, find (is_type Reg (enter s (target s p))) COMPOSE_FILES = Some f.
Proof.
  intros Hwf E. unfold check_compose_file in E. bind_ok_in E.
  apply change_cwd_ok in E0 as (-> & -> & ->).
  bind_ok_in E1. rewrite first_file_run in E.
  remember (find (is_type Reg (enter s (target s p))) COMPOSE_FILES) as found eqn:Ef.
  injection E as <- <- <-. symmetry in Ef.
  destruct found as [f|].
  - apply chdir_ok in E0 as (-> & -> & _). simpl.
    rewrite walk_render by assumption.
    repeat split; [now apply proc_eta|now exists f].
  - bind_ok_in E0. discriminate.
Qed.

End Cwd.

(** A path through a directory that is not there names nothing, although
    the walk on its text ends at a directory; through directories that are
    there it names what the text says. *)
Example resolve_through_missing :
  let s := TestHost.at_home TestHost.app_world in
  Path.walk (cwd s) "nope/../app" = ["home"; "u"; "app"] /\
  resolve s "nope/../app" = None /\
  is_type Dir s "nope/../app" = false /\
  exists_on_disk s "/opt/nope/../app/data" = false /\
  chdir "nope/.." s = (Raise OSError, s, []) /\
  resolve s "app/../app/./" = Some ["home"; "u"; "app"] /\
  is_type Dir s "app/docker-compose.yml/" = false /\
  is_type Reg s "app/docker-compose.yml" = true.
Proof. repeat split; reflexivity. Qed.

(** Inversion of a run that returned, step by step. *)

Section Steps.

Context {H : Host}.

Lemma ret_ok {A} (a b : A) s s' l : ret a s = (Ok b, s', l) -> b = a /\ s' = s /\ l = [].
Proof. intros E; inversion E; now subst. Qed.

Lemma lift_ok {A} (r : outcome A) b s s' l :
  lift r s = (Ok b, s', l) -> r = Ok b /\ s' = s /\ l = [].
Proof. intros E; inversion E; now subst. Qed.

Lemma getcwd_ok a s s' l :
  getcwd s = (Ok a, s', l) -> a = Path.render (cwd s) /\ s' = s /\ l = [].
Proof. intros E; inversion E; now subst. Qed.

Lemma isdir_ok path a s s' l :
  isdir path s = (Ok a, s', l) -> a = is_type Dir s path /\ s' = s /\ l = [].
Proof. intros E; inversion E; now subst. Qed.

Lemma print_ok msg s s' l :
  print msg s = (Ok tt, s', l) -> s' = s /\ l = [Print msg].
Proof. intros E; inversion E; now subst. Qed.

Lemma now_utc_ok a s s' l :
  now_utc s = (Ok a, s', l) -> a = datetime_now (env s) /\ s' = s /\ l = [].
Proof. intros E; inversion E; now subst. Qed.

Lemma listdir_ok path a s s' l :
  listdir path s = (Ok a, s', l) -> s' = s /\ l = [].
Proof.
  unfold listdir. destruct (resolve s path); [|discriminate].
  destruct (os_listdir (env s) d); [|discriminate].
  intros E; inversion E; now subst.
Qed.

Lemma abspath_ok q a s s' l :
  abspath (Some q) s = (Ok a, s', l) -> a = Path.abspath (cwd s) q /\ s' = s /\ l = [].
Proof. intros E; inversion E; now subst. Qed.

Lemma check_call_ok argv s s' l :
  check_call argv s = (Ok tt, s', l) ->
  s' = {| cwd := cwd s; env := fst (subprocess_run argv (cwd s) (env s)) |} /\
  l = [Call argv (cwd s)].
Proof.
  intros E. apply check_call_inv in E as (-> & C & W). split; [|reflexivity].
  apply proc_eta; simpl; assumption.
Qed.

End Steps.

Ltac inv_run :=
  repeat
    (cbv beta in *;
     match goal with
     | u : unit |- _ => destruct u
     | E : bind _ _ _ = (Ok _, _, _) |- _ =>
         apply bind_ok in E as (? & ? & ? & ? & ? & ? & ->)
     | E : ret _ _ = (Ok _, _, _) |- _ => apply ret_ok in E as (-> & -> & ->)
     | E : getcwd _ = (Ok _, _, _) |- _ => apply getcwd_ok in E as (-> & -> & ->)
     | E : isdir _ _ = (Ok _, _, _) |- _ => apply isdir_ok in E as (-> & -> & ->)
     | E : print _ _ = (Ok _, _, _) |- _ => apply print_ok in E as (-> & ->)
     | E : now_utc _ = (Ok _, _, _) |- _ => apply now_utc_ok in E as (-> & -> & ->)
     | E : listdir _ _ = (Ok _, _, _) |- _ => apply listdir_ok in E as (-> & ->)
     | E : abspath (Some _) _ = (Ok _, _, _) |- _ => apply abspath_ok in E as (-> & -> & ->)
     | E : chdir _ _ = (Ok _, _, _) |- _ => apply chdir_ok in E as (-> & -> & ?)
     | E : change_cwd _ _ = (Ok _, _, _) |- _ => apply change_cwd_ok in E as (-> & -> & ->)
     | E : check_call _ _ = (Ok _, _, _) |- _ => apply check_call_ok in E as (-> & ->)
     end).

(** ** The lifecycle actions *)

Section Lifecycle.

Context {H : Host}.

Lemma down_action_ok p s s' l :
  Path.wf (cwd s) = true ->
  down_action p s = (Ok tt, s', l) ->
  l = [Call ["docker-compose"; "down"] (target s p)] /\
  s' = {| cwd := cwd s;
          env := fst (subprocess_run ["docker-compose"; "down"] (target s p) (env s)) |}.
Proof.
  intros Hwf E. unfold down_action in E. bind_ok_in E.
  apply check_compose_file_ok in E0 as (-> & -> & _); [|assumption].
  bind_ok_in E1. apply change_cwd_ok in E as (-> & -> & ->).
  bind_ok_in E0. apply check_call_inv in E as (-> & C & W). simpl in C, W.
  apply chdir_ok in E1 as (-> & -> & _). simpl.
  rewrite C, walk_render by assumption. split; [reflexivity|].
  unfold enter. now rewrite W.
Qed.

Lemma build_ok p s s' l :
  Path.wf (cwd s) = true ->
  build p s = (Ok tt, s', l) ->
  l = [Call ["docker-compose"; "build"] (target s p)] /\
  s' = {| cwd := cwd s;
          env := fst (subprocess_run ["docker-compose"; "build"] (target s p) (env s)) |}.
Proof.
  intros Hwf E. unfold build in E. bind_ok_in E.
  apply check_compose_file_ok in E0 as (-> & -> & _); [|assumption].
  bind_ok_in E1. apply change_cwd_ok in E as (-> & -> & ->).
  bind_ok_in E0. apply check_call_inv in E as (-> & C & W). simpl in C, W.
  apply chdir_ok in E1 as (-> & -> & _). simpl.
  rewrite C, walk_render by assumption. split; [reflexivity|].
  unfold enter. now rewrite W.
Qed.

Lemma up_action_ok p s s' l :
  Path.wf (cwd s) = true ->
  up_action p s = (Ok tt, s', l) ->
  exists s2 l2,
    fix_volumes_ownership (enter s (target s p)) = (Ok tt, s2, l2) /\
    cwd s2 = target s p /\
    l = (l2 ++ [Call ["docker-compose"; "up"; "-d"] (target s p)])%list /\
    s' = {| cwd := cwd s;
            env := fst (subprocess_run ["docker-compose"; "up"; "-d"] (target s p) (env s2)) |}.
Proof.
  intros Hwf E. unfold up_action in E. bind_ok_in E.
  apply check_compose_file_ok in E0 as (-> & -> & _); [|assumption].
  bind_ok_in E1. apply change_cwd_ok in E as (-> & -> & ->).
  bind_ok_in E0.
  pose proof (stays_fix_volumes_ownership _ _ _ _ E) as [C2 _]. simpl in C2.
  bind_ok_in E1. apply check_call_inv in E0 as (-> & C & W).
  apply chdir_ok in E2 as (-> & -> & _). simpl.
  do 2 eexists. split; [eassumption|].
  rewrite C2 in *. rewrite walk_render by assumption.
  repeat split. unfold enter. now rewrite W.
Qed.

End Lifecycle.

(** C6.  A run of the up, down or build action that ends without error
    leaves the working directory where it found it; in between, the
    subcommand was run with the project path as its working directory, and
    so was every other command of the action. *)
Theorem lifecycle_restores_cwd {H : Host} (a : lifecycle) (p : option string) s s' l :
  Path.wf (cwd s) = true ->
  run_lifecycle a p s = (Ok tt, s', l) ->
  cwd s' = cwd s /\
  In (Call (subcommand a) (target s p)) l /\
  Forall (ran_in (target s p)) l.
Proof.
  intros Hwf E. destruct a; simpl in E.
  - apply up_action_ok in E as (s2 & l2 & E2 & C2 & -> & ->); [|assumption].
    split; [reflexivity|]. split; [apply in_or_app; right; now left|].
    apply stays_fix_volumes_ownership in E2 as [_ F]. simpl in F.
    apply Forall_app. split; [assumption|]. constructor; [reflexivity|constructor].
  - apply down_action_ok in E as (-> & ->); [|assumption].
    split; [reflexivity|]. split; [now left|].
    constructor; [reflexivity|constructor].
  - apply build_ok in E as (-> & ->); [|assumption].
    split; [reflexivity|]. split; [now left|].
    constructor; [reflexivity|constructor].
Qed.

Lemma lifecycle_restores_cwd_witness :
  let s := TestHost.at_home TestHost.app_world in
  let run := run_lifecycle Up (Some "app") s in
  Path.wf (cwd s) = true /\
  run = (Ok tt, snd (fst run), snd run) /\
  cwd (snd (fst run)) = ["home"; "u"] /\
  In (Call ["docker-compose"; "up"; "-d"] ["home"; "u"; "app"]) (snd run) /\
  Forall (ran_in ["home"; "u"; "app"]) (snd run).
Proof.
  assert (Hwf : Path.wf (cwd (TestHost.at_home TestHost.app_world)) = true)
    by reflexivity.
  assert (Hrun : run_lifecycle Up (Some "app") (TestHost.at_home TestHost.app_world)
                 = (Ok tt,
                    snd (fst (run_lifecycle Up (Some "app") (TestHost.at_home TestHost.app_world))),
                    snd (run_lifecycle Up (Some "app") (TestHost.at_home TestHost.app_world))))
    by (vm_compute; reflexivity).
  split; [exact Hwf|]. split; [exact Hrun|].
  exact (lifecycle_restores_cwd Up (Some "app") _ _ _ Hwf Hrun).
Defined.

(** ** The compose-file locator *)

Lemma find_first {A} (f : A -> bool) l x :
  find f l = Some x ->
  exists before after,
    l = (before ++ x :: after)%list /\ f x = true /\
    Forall (fun y => f y = false) before.
Proof.
  induction l as [|y r IH]; simpl; [discriminate|].
  destruct (f y) eqn:Fy.
  - intros E; inversion E; subst. exists [], r. repeat split; [assumption|constructor].
  - intros E. destruct (IH E) as (before & after & -> & Fx & Hb).
    exists (y :: before), after. repeat split; [assumption|now constructor].
Qed.

Section Locator.

Context {H : Host}.

(** A candidate, resolved in the working directory, is the entry of that
    name. *)
Lemma candidate_entry s n :
  In n COMPOSE_NAMES -> is_type Reg s ("./" ++ n) = regular (env s) (cwd s) n.
Proof.
  intros Hn. unfold is_type, regular, resolve.
  generalize (is_directory (env s)). intros is_dir.
  assert (E : Path.resolve is_dir (cwd s) ("./" ++ n) =
              if is_dir (cwd s) then Some (cwd s ++ [n])%list else None).
  { simpl in Hn. repeat destruct Hn as [<-|Hn]; try contradiction;
      unfold Path.resolve; simpl; change (Path.step (cwd s) ".") with (cwd s);
      now destruct (is_dir (cwd s)). }
  rewrite E. destruct (is_dir (cwd s)); [|reflexivity]. cbn [andb].
  destruct (os_stat (env s) (cwd s ++ [n])%list) as [st|]; [|reflexivity].
  now destruct (st_type st).
Qed.

Lemma find_candidates s :
  find (is_type Reg s) COMPOSE_FILES =
  option_map (String.append "./") (find (regular (env s) (cwd s)) COMPOSE_NAMES).
Proof.
  change COMPOSE_FILES with (map (String.append "./") COMPOSE_NAMES).
  assert (G : forall l, incl l COMPOSE_NAMES ->
                find (is_type Reg s) (map (String.append "./") l) =
                option_map (String.append "./") (find (regular (env s) (cwd s)) l)).
  { induction l as [|n r IH]; intros Hl; [reflexivity|]. cbn [map find].
    rewrite candidate_entry by (apply Hl; now left).
    destruct (regular (env s) (cwd s) n); [reflexivity|].
    apply IH. intros x Hx. apply Hl. now right. }
  apply G, incl_refl.
Qed.

Lemma check_compose_file_missing p s :
  reachable s p ->
  find (regular (env s) (target s p)) COMPOSE_NAMES = None ->
  check_compose_file p s =
  (Exit 1, enter s (target s p),
   [Print ("ERROR: Could not find any of " ++ Py.repr_list COMPOSE_FILES)]).
Proof.
  intros Hp Hnone.
  assert (E : change_cwd p s = (Ok (Path.render (cwd s)), enter s (target s p), [])).
  { unfold change_cwd, bind, getcwd. destruct p as [q|]; simpl in *.
    - now rewrite (chdir_run _ _ Hp).
    - unfold ret, enter. now destruct s. }
  unfold check_compose_file.
  rewrite (bind_run _ _ _ _ _ _ E).
  rewrite (bind_run _ _ _ _ _ _ (first_file_run _ _)).
  rewrite find_candidates.
  change (cwd (enter s (target s p))) with (target s p).
  change (env (enter s (target s p))) with (env s).
  rewrite Hnone. reflexivity.
Qed.

Lemma extractor_missing s :
  find (regular (env s) (cwd s)) COMPOSE_NAMES = None ->
  volumes_from_compose_file s =
  (Exit 1, s,
   [Print ("Could not find any of " ++ Py.repr_list COMPOSE_FILES ++ " in "
           ++ Path.render (cwd s))]).
Proof.
  intros Hnone. unfold volumes_from_compose_file.
  rewrite (bind_run _ _ _ _ _ _ (first_file_run _ _)).
  rewrite find_candidates, Hnone. reflexivity.
Qed.

End Locator.

(** C7.  In the directory searched, the locator stops at the first of the
    four names, in their fixed order, that is a regular file.  When none of
    them is one, the extractor and [check_compose_file] end the process
    with status 1 after one message, and so does every action, which all
    begin with that check: no command is run. *)
Theorem locator_priority_or_exit {H : Host} (s : proc) :
  let found := find (regular (env s) (cwd s)) COMPOSE_NAMES in
  first_file COMPOSE_FILES s = (Ok (option_map (String.append "./") found), s, []) /\
  (forall n, found = Some n ->
     exists before after,
       COMPOSE_NAMES = (before ++ n :: after)%list /\
       regular (env s) (cwd s) n = true /\
       Forall (fun m => regular (env s) (cwd s) m = false) before) /\
  (found = None ->
     volumes_from_compose_file s =
     (Exit 1, s,
      [Print ("Could not find any of " ++ Py.repr_list COMPOSE_FILES ++ " in "
              ++ Path.render (cwd s))])) /\
  (forall p,
     reachable s p ->
     find (regular (env s) (target s p)) COMPOSE_NAMES = None ->
     forall action,
       In action [check_compose_file p; up_action p; down_action p; build p;
                  backup_action p; deploy_action p None] ->
       action s =
       (Exit 1, enter s (target s p),
        [Print ("ERROR: Could not find any of " ++ Py.repr_list COMPOSE_FILES)])).
Proof.
  cbv zeta. split; [|split; [|split]].
  - rewrite first_file_run. now rewrite find_candidates.
  - intros n Hn. now apply find_first.
  - apply extractor_missing.
  - intros p Hp Hnone action Hact.
    pose proof (check_compose_file_missing p s Hp Hnone) as E.
    simpl in Hact.
    destruct Hact as [<-|[<-|[<-|[<-|[<-|[<-|[]]]]]]]; try exact E.
    + unfold up_action. now rewrite (bind_exit _ _ _ _ _ _ E).
    + unfold down_action. now rewrite (bind_exit _ _ _ _ _ _ E).
    + unfold build. now rewrite (bind_exit _ _ _ _ _ _ E).
    + unfold backup_action. now rewrite (bind_exit _ _ _ _ _ _ E).
    + unfold deploy_action, build.
      apply bind_exit. now rewrite (bind_exit _ _ _ _ _ _ E).
Qed.

Lemma locator_priority_or_exit_witness :
  let s := TestHost.at_home TestHost.bare_world in
  reachable s None /\
  find (regular (env s) (target s None)) COMPOSE_NAMES = None /\
  up_action None s =
  (Exit 1, s,
   [Print ("ERROR: Could not find any of " ++ Py.repr_list COMPOSE_FILES)]).
Proof.
  cbv zeta. split; [exact I|]. split; [reflexivity|].
  exact (proj2 (proj2 (proj2 (locator_priority_or_exit
                                (TestHost.at_home TestHost.bare_world))))
           None I eq_refl (up_action None) (or_intror (or_introl eq_refl))).
Defined.

(** ** The backup *)

Section Backup.

Context {H : Host}.

(** What the loop over the entries of the data directory runs: one
    recursive change of owner for each entry of the snapshot. *)
Lemma backup_entries_ok from_path to_path entries : forall s s' l,
  for_each entries (backup_entry from_path to_path) s = (Ok tt, s', l) ->
  cwd s' = cwd s /\
  Forall (fun e => exists entry owner,
              In entry entries /\
              e = Call ["sudo"; "chown"; "-R"; owner; to_path ++ "/" ++ entry] (cwd s)) l.
Proof.
  induction entries as [|x r IH]; simpl; intros s s' l E.
  - inversion E; subst. split; [reflexivity|constructor].
  - bind_ok_in E. unfold backup_entry in E0. bind_ok_in E0.
    injection E as _ <- <-.
    apply check_call_inv in E2 as (-> & C & _).
    apply IH in E1 as [C1 F1]. rewrite C in C1. split; [assumption|].
    constructor.
    + exists x, a. split; [now left|reflexivity].
    + rewrite C in F1. eapply Forall_impl; [|exact F1].
      intros e (entry & owner & Hin & ->). exists entry, owner. split; [now right|reflexivity].
Qed.

Lemma backup_entries_exact from_path to_path entries : forall s s' l,
  for_each entries (backup_entry from_path to_path) s = (Ok tt, s', l) ->
  exists owners,
    List.length owners = List.length entries /\
    l = map (fun eo : string * string =>
               Call ["sudo"; "chown"; "-R"; snd eo; to_path ++ "/" ++ fst eo] (cwd s))
          (combine entries owners).
Proof.
  induction entries as [|x r IH]; cbn [for_each]; intros s s' l E.
  - injection E as <- <-. now exists [].
  - apply bind_ok in E as ([] & s1 & l1 & l2 & E1 & E2 & ->).
    unfold backup_entry in E1.
    apply bind_ok in E1 as (owner & s0 & l0 & l3 & Eo & Ec & ->).
    injection Eo as _ <- <-.
    apply check_call_ok in Ec as (-> & ->).
    apply IH in E2 as (owners & Hlen & ->). cbn [cwd].
    exists (owner :: owners). split; [cbn [List.length]; now rewrite Hlen|reflexivity].
Qed.

Lemma change_cwd_run p s :
  reachable s p ->
  change_cwd p s = (Ok (Path.render (cwd s)), enter s (target s p), []).
Proof.
  intros Hp. unfold change_cwd, bind, getcwd. destruct p as [q|]; simpl in *.
  - now rewrite (chdir_run _ _ Hp).
  - unfold ret, enter. now destruct s.
Qed.

Lemma backup_skip_run p s :
  reachable s p ->
  is_type Dir (enter s (target s p))
    ("/opt/" ++ app_name_in (target s p) ++ "/data") = false ->
  backup p s =
  (Ok tt, enter s (target s p),
   [Print ("Skipping backup: Nothing to backup at /opt/"
           ++ app_name_in (target s p) ++ "/data")]).
Proof.
  intros Hp Hdata. unfold backup.
  rewrite (bind_run _ _ _ _ _ _ (change_cwd_run _ _ Hp)).
  unfold bind at 1. unfold getcwd at 1. unfold bind at 1. unfold isdir at 1.
  change (cwd (enter s (target s p))) with (target s p).
  fold (app_name_in (target s p)). now rewrite Hdata.
Qed.

Lemma backup_data_ok p s s' l :
  Path.wf (cwd s) = true ->
  is_type Dir (enter s (target s p))
    ("/opt/" ++ app_name_in (target s p) ++ "/data") = true ->
  backup p s = (Ok tt, s', l) ->
  let d := target s p in
  let app_name := app_name_in d in
  let from_path := "/opt/" ++ app_name ++ "/data" in
  let backup_dir := "/opt/" ++ app_name ++ "/backup" in
  let w := fst (subprocess_run ["sudo"; "mkdir"; "-p"; backup_dir] d (env s)) in
  let to_path := "/opt/" ++ app_name ++ "/backup/data_" ++ strftime_utc (datetime_now w) in
  let done := Str.nl ++ "Backed up data to " ++ to_path ++ Str.nl in
  cwd s' = cwd s /\
  exists l_entries,
    l = ([Call ["sudo"; "mkdir"; "-p"; backup_dir] d;
          Call ["sudo"; "cp"; "-r"; from_path; to_path] d;
          Call ["sudo"; "chown"; "700"; to_path] d]
         ++ l_entries ++ [Print done])%list /\
    Forall (fun e => exists entry owner,
                e = Call ["sudo"; "chown"; "-R"; owner; to_path ++ "/" ++ entry] d)
      l_entries.
Proof.
  intros Hwf Hdata E. cbv zeta. unfold backup in E. inv_run.
  change (cwd (enter s (target s p))) with (target s p) in *.
  fold (app_name_in (target s p)) in *.
  rewrite Hdata in *. cbn [negb] in *. inv_run.
  cbn [cwd env enter] in *.
  match goal with
  | E : for_each _ _ _ = _ |- _ => apply backup_entries_ok in E as [C F]
  end.
  cbn [cwd] in C, F. split.
  - rewrite C. now apply walk_render.
  - eexists. split; [cbn [app]; reflexivity|].
    eapply Forall_impl; [|exact F].
    intros e (entry & owner & _ & ->). now exists entry, owner.
Qed.

(** The log of a backup that copies, in full. *)
Lemma backup_copy_log p s s' l :
  Path.wf (cwd s) = true ->
  is_type Dir (enter s (target s p))
    ("/opt/" ++ app_name_in (target s p) ++ "/data") = true ->
  backup p s = (Ok tt, s', l) ->
  let d := target s p in
  let from_path := "/opt/" ++ app_name_in d ++ "/data" in
  let backup_dir := "/opt/" ++ app_name_in d ++ "/backup" in
  let w1 := fst (subprocess_run ["sudo"; "mkdir"; "-p"; backup_dir] d (env s)) in
  let to_path :=
    "/opt/" ++ app_name_in d ++ "/backup/data_" ++ strftime_utc (datetime_now w1) in
  let w2 := fst (subprocess_run ["sudo"; "cp"; "-r"; from_path; to_path] d w1) in
  let w3 := fst (subprocess_run ["sudo"; "chown"; "700"; to_path] d w2) in
  let done := Str.nl ++ "Backed up data to " ++ to_path ++ Str.nl in
  exists entries owners,
    listdir from_path {| cwd := d; env := w3 |} = (Ok entries, {| cwd := d; env := w3 |}, []) /\
    List.length owners = List.length entries /\
    l = ([Call ["sudo"; "mkdir"; "-p"; backup_dir] d;
          Call ["sudo"; "cp"; "-r"; from_path; to_path] d;
          Call ["sudo"; "chown"; "700"; to_path] d]
         ++ map (fun eo : string * string =>
                   Call ["sudo"; "chown"; "-R"; snd eo; (to_path ++ "/" ++ fst eo)%string] d)
              (combine entries owners)
         ++ [Print done])%list.
Proof.
  intros Hwf Hdata E. cbv zeta. unfold backup in E. inv_run.
  change (cwd (enter s (target s p))) with (target s p) in *.
  fold (app_name_in (target s p)) in *.
  rewrite Hdata in *. cbn [negb] in *.
  repeat match goal with
         | E0 : bind _ _ _ = (Ok _, _, _) |- _ =>
             apply bind_ok in E0 as (? & ? & ? & ? & ? & ? & ->)
         | u : unit |- _ => destruct u
         | E0 : now_utc _ = (Ok _, _, _) |- _ => apply now_utc_ok in E0 as (-> & -> & ->)
         | E0 : print _ _ = (Ok _, _, _) |- _ => apply print_ok in E0 as (-> & ->)
         | E0 : chdir _ _ = (Ok _, _, _) |- _ => apply chdir_ok in E0 as (-> & -> & ?)
         | E0 : check_call _ _ = (Ok _, _, _) |- _ => apply check_call_ok in E0 as (-> & ->)
         end.
  cbn [cwd env enter] in *.
  match goal with
  | El : listdir _ _ = (Ok ?entries, _, _) |- _ =>
      pose proof (listdir_ok _ _ _ _ _ El) as [Hs Hl]; subst;
      match goal with
      | Ef : for_each _ _ _ = _ |- _ =>
          apply backup_entries_exact in Ef as (owners & Hlen & ->);
          exists entries, owners
      end;
      split; [exact El|]; split; [exact Hlen|]
  end.
  cbn [app cwd]. reflexivity.
Qed.

End Backup.

(** C10.  When [/opt/<name>/data] is not a directory, [backup] prints its
    skip message and returns at once: the process is left in the project
    directory it changed into, not in the directory of the caller.  Only
    the run that makes the copy changes back. *)
Theorem backup_skip_keeps_project_cwd {H : Host} (p : option string) s :
  reachable s p ->
  Path.wf (cwd s) = true ->
  let data := "/opt/" ++ app_name_in (target s p) ++ "/data" in
  (is_type Dir (enter s (target s p)) data = false ->
   exists s',
     backup p s = (Ok tt, s', [Print ("Skipping backup: Nothing to backup at " ++ data)]) /\
     cwd s' = target s p /\ env s' = env s) /\
  (is_type Dir (enter s (target s p)) data = true ->
   forall s' l, backup p s = (Ok tt, s', l) -> cwd s' = cwd s).
Proof.
  intros Hp Hwf data. split.
  - intros Hdata. exists (enter s (target s p)).
    split; [|now split]. now apply backup_skip_run.
  - intros Hdata s' l E.
    now destruct (backup_data_ok p s s' l Hwf Hdata E) as [C _].
Qed.

Lemma backup_skip_keeps_project_cwd_witness :
  let s := TestHost.at_home TestHost.fresh_world in
  reachable s (Some "app") /\
  Path.wf (cwd s) = true /\
  is_type Dir (enter s (target s (Some "app"))) "/opt/app/data" = false /\
  exists s',
    backup (Some "app") s =
    (Ok tt, s', [Print "Skipping backup: Nothing to backup at /opt/app/data"]) /\
    cwd s' = ["home"; "u"; "app"] /\ env s' = TestHost.fresh_world.
Proof.
  cbv zeta. split; [reflexivity|]. split; [reflexivity|]. split; [reflexivity|].
  exact (proj1 (backup_skip_keeps_project_cwd (Some "app")
                  (TestHost.at_home TestHost.fresh_world) eq_refl eq_refl) eq_refl).
Defined.

(** C5, at an input where the code departs from it.  From [/home/u], with
    the project given as [app] and no [/opt/app/data]: the stack is
    stopped and the skip message printed, then [up_action] fails to change
    into [app] from inside the project, where the skipped backup left the
    process.  [docker-compose up -d] is never run. *)
Theorem backup_action_skip_never_restarts :
  backup_action (Some "app") (TestHost.at_home TestHost.fresh_world) =
  (Raise OSError,
   TestHost.in_app (TestHost.after 1 TestHost.fresh_world),
   [Call ["docker-compose"; "down"] ["home"; "u"; "app"];
    Print "Skipping backup: Nothing to backup at /opt/app/data"]).
Proof. vm_compute. reflexivity. Qed.

(** The same project, named by [.] from inside it: the bracket is whole. *)
Example backup_action_skip_from_inside :
  backup_action (Some ".") (TestHost.in_app TestHost.fresh_world) =
  (Ok tt,
   TestHost.in_app (TestHost.after 2 TestHost.fresh_world),
   [Call ["docker-compose"; "down"] ["home"; "u"; "app"];
    Print "Skipping backup: Nothing to backup at /opt/app/data";
    Print (Str.nl ++ "WARNING: You should probably create and/or set non root owner of volume folder: /opt/app/data" ++ Str.nl);
    Print ("sudo mkdir -p /opt/app/data && sudo chown -R OWNER_HERE /opt/app/data" ++ Str.nl);
    Call ["docker-compose"; "up"; "-d"] ["home"; "u"; "app"]]).
Proof. vm_compute. reflexivity. Qed.

(** C1, at an input where the code departs from it.  With data to back up,
    the command run on the snapshot root after the copy is [chown 700]: it
    gives the directory to the user numbered 700 and leaves its mode alone.
    No command of the run changes a mode. *)
Theorem backup_snapshot_root_command :
  backup (Some ".") (TestHost.in_app TestHost.app_world) =
  (Ok tt,
   TestHost.in_app (TestHost.after 5 TestHost.app_world),
   [Call ["sudo"; "mkdir"; "-p"; "/opt/app/backup"] ["home"; "u"; "app"];
    Call ["sudo"; "cp"; "-r"; "/opt/app/data"; "/opt/app/backup/data_20240309_120508_utc"]
      ["home"; "u"; "app"];
    Call ["sudo"; "chown"; "700"; "/opt/app/backup/data_20240309_120508_utc"]
      ["home"; "u"; "app"];
    Call ["sudo"; "chown"; "-R"; "bob"; "/opt/app/backup/data_20240309_120508_utc/db"]
      ["home"; "u"; "app"];
    Call ["sudo"; "chown"; "-R"; "alice"; "/opt/app/backup/data_20240309_120508_utc/log"]
      ["home"; "u"; "app"];
    Print (Str.nl ++ "Backed up data to /opt/app/backup/data_20240309_120508_utc" ++ Str.nl)]).
Proof. vm_compute. reflexivity. Qed.

(** ** Backup and deploy as sequences *)

Section Sequences.

Context {H : Host}.

Lemma backup_ok p s s' l :
  Path.wf (cwd s) = true ->
  backup p s = (Ok tt, s', l) ->
  let data := "/opt/" ++ app_name_in (target s p) ++ "/data" in
  (is_type Dir (enter s (target s p)) data = true /\ cwd s' = cwd s) \/
  (is_type Dir (enter s (target s p)) data = false /\
   s' = enter s (target s p) /\
   l = [Print ("Skipping backup: Nothing to backup at " ++ data)]).
Proof.
  intros Hwf E. cbv zeta.
  destruct (is_type Dir (enter s (target s p))
              ("/opt/" ++ app_name_in (target s p) ++ "/data")) eqn:Hdata.
  - left. split; [reflexivity|].
    now destruct (backup_data_ok p s s' l Hwf Hdata E) as [C _].
  - right. split; [reflexivity|]. unfold backup in E. inv_run.
    change (cwd (enter s (target s p))) with (target s p) in *.
    fold (app_name_in (target s p)) in *.
    rewrite Hdata in *. cbn [negb] in *. inv_run. now split.
Qed.

Lemma wf_target s p : Path.wf (cwd s) = true -> Path.wf (target s p) = true.
Proof. destruct p as [q|]; simpl; [apply wf_walk|trivial]. Qed.

(** [backup_action] is the stop, the copy and the start, in this order. *)
Lemma backup_action_ok p s s' l :
  Path.wf (cwd s) = true ->
  backup_action p s = (Ok tt, s', l) ->
  exists s_down s_copy l_copy l_up,
    down_action p s = (Ok tt, s_down, [Call ["docker-compose"; "down"] (target s p)]) /\
    backup p s_down = (Ok tt, s_copy, l_copy) /\
    up_action p s_copy = (Ok tt, s', l_up) /\
    Path.wf (cwd s_copy) = true /\
    l = (Call ["docker-compose"; "down"] (target s p) :: l_copy ++ l_up)%list.
Proof.
  intros Hwf E. unfold backup_action in E. inv_run.
  match goal with
  | E : check_compose_file _ _ = _ |- _ =>
      apply check_compose_file_ok in E as (-> & -> & _); [|assumption]
  end.
  match goal with
  | E : down_action _ _ = _ |- _ =>
      pose proof (down_action_ok _ _ _ _ Hwf E) as (-> & Hs)
  end.
  match goal with
  | E : backup _ _ = _ |- _ => pose proof E as Hb; apply backup_ok in Hb
  end; [|subst; assumption].
  match goal with
  | Hd : down_action _ _ = (_, ?sd, _),
    Hc : backup _ _ = (_, ?sc, ?lc),
    Hu : up_action _ _ = (_, _, ?lu) |- _ => exists sd, sc, lc, lu
  end.
  split; [assumption|]. split; [assumption|]. split; [assumption|].
  split; [|reflexivity].
  rewrite Hs in Hb. cbv zeta in Hb. cbn [cwd env enter] in Hb.
  destruct Hb as [[_ ->]|(_ & -> & _)]; [assumption|].
  now apply (wf_target s p).
Qed.

(** [backup_action] when there is no data: the stop, the skip message and
    the start.  The start is made from inside the project directory, where
    the skipped backup left the process: its own change of directory, and
    the directory [docker-compose up -d] runs in, are taken from there. *)
Lemma backup_action_skip_ok p s s' l :
  Path.wf (cwd s) = true ->
  let d := target s p in
  let w := fst (subprocess_run ["docker-compose"; "down"] d (env s)) in
  let inside := {| cwd := d; env := w |} in
  let data := "/opt/" ++ app_name_in d ++ "/data" in
  is_type Dir inside data = false ->
  backup_action p s = (Ok tt, s', l) ->
  exists l_repair,
    l = (Call ["docker-compose"; "down"] d
         :: Print ("Skipping backup: Nothing to backup at " ++ data)
         :: l_repair ++ [Call ["docker-compose"; "up"; "-d"] (target inside p)])%list /\
    cwd s' = d.
Proof.
  intros Hwf d w inside data Hdata E.
  apply backup_action_ok in E
    as (s_down & s_copy & l_copy & l_up & Hdown & Hcopy & Hup & Hwfc & ->);
    [|assumption].
  apply down_action_ok in Hdown as (_ & ->); [|assumption].
  pose proof (backup_ok p {| cwd := cwd s; env := w |} _ _ Hwf Hcopy)
    as [[Hd _]|(_ & Hs & Hl)].
  { change (is_type Dir inside data = true) in Hd. congruence. }
  subst s_copy l_copy.
  apply up_action_ok in Hup as (s2 & l_repair & _ & _ & -> & ->); [|exact Hwfc].
  exists l_repair. split; reflexivity.
Qed.

End Sequences.

(** C4.  Deploy in replace mode.  The compose file of the replace target
    is checked before anything is run; a run that ends without error has
    built the new project, stopped the replace target, renamed it to
    [<replace path>_<UTC timestamp>_utc], copied the new tree to the
    replace path, and then gone through [backup_action] on the replace
    path: the stop; the backup of the data, which is the skip message when
    there is no data directory and otherwise [mkdir -p], the recursive
    copy of the data to the snapshot, [chown 700] and one change of owner
    for each entry of the data; the ownership repair; and the start. *)
Theorem deploy_replace_sequence {H : Host} (p r : string) s :
  Path.wf (cwd s) = true ->
  let P := Path.abspath (cwd s) p in
  let R := Path.abspath (cwd s) r in
  let new_dir := Path.walk (cwd s) p in
  let old_dir := Path.walk (cwd s) r in
  let build_cmd := Call ["docker-compose"; "build"] new_dir in
  let down_cmd := Call ["docker-compose"; "down"] old_dir in
  let up_cmd := Call ["docker-compose"; "up"; "-d"] old_dir in
  let w1 := fst (subprocess_run ["docker-compose"; "build"] new_dir (env s)) in
  let w2 := fst (subprocess_run ["docker-compose"; "down"] old_dir w1) in
  let to_path := R ++ "_" ++ strftime_utc (datetime_now w2) in
  let w3 := fst (subprocess_run ["mv"; R; to_path] [] w2) in
  let w4 := fst (subprocess_run ["cp"; "-r"; P; R] [] w3) in
  let w5 := fst (subprocess_run ["docker-compose"; "down"] old_dir w4) in
  let data := "/opt/" ++ app_name_in old_dir ++ "/data" in
  let backup_dir := "/opt/" ++ app_name_in old_dir ++ "/backup" in
  let w6 := fst (subprocess_run ["sudo"; "mkdir"; "-p"; backup_dir] old_dir w5) in
  let snapshot :=
    "/opt/" ++ app_name_in old_dir ++ "/backup/data_" ++ strftime_utc (datetime_now w6) in
  let w7 := fst (subprocess_run ["sudo"; "cp"; "-r"; data; snapshot] old_dir w6) in
  let w8 := fst (subprocess_run ["sudo"; "chown"; "700"; snapshot] old_dir w7) in
  (is_type Dir s "/" = true ->
   is_type Dir (enter s []) R = true ->
   find (regular (env s) old_dir) COMPOSE_NAMES = None ->
   exists s' msg, deploy_action (Some p) (Some r) s = (Exit 1, s', [Print msg])) /\
  (forall s' l,
     deploy_action (Some p) (Some r) s = (Ok tt, s', l) ->
     cwd s' = cwd s /\
     (exists f, find (regular (env s) old_dir) COMPOSE_NAMES = Some f) /\
     exists s_end l_backup s_copy l_copy s_fixed l_repair,
       l = ([build_cmd; down_cmd; Call ["mv"; R; to_path] []; Call ["cp"; "-r"; P; R] []]
            ++ l_backup
            ++ [Print ("Backed up project " ++ R ++ " to " ++ to_path
                       ++ " replaced with " ++ P);
                Print ("You can now delete " ++ P)])%list /\
       backup_action (Some R) {| cwd := []; env := w4 |} = (Ok tt, s_end, l_backup) /\
       l_backup = (down_cmd :: l_copy ++ l_repair ++ [up_cmd])%list /\
       down_action (Some R) {| cwd := []; env := w4 |} =
       (Ok tt, {| cwd := []; env := w5 |}, [down_cmd]) /\
       backup (Some R) {| cwd := []; env := w5 |} = (Ok tt, s_copy, l_copy) /\
       ((is_type Dir {| cwd := old_dir; env := w5 |} data = false /\
         l_copy = [Print ("Skipping backup: Nothing to backup at " ++ data)]) \/
        (is_type Dir {| cwd := old_dir; env := w5 |} data = true /\
         exists entries owners,
           listdir data {| cwd := old_dir; env := w8 |} =
           (Ok entries, {| cwd := old_dir; env := w8 |}, []) /\
           List.length owners = List.length entries /\
           l_copy =
           ([Call ["sudo"; "mkdir"; "-p"; backup_dir] old_dir;
             Call ["sudo"; "cp"; "-r"; data; snapshot] old_dir;
             Call ["sudo"; "chown"; "700"; snapshot] old_dir]
            ++ map (fun eo : string * string =>
                      Call ["sudo"; "chown"; "-R"; snd eo; (snapshot ++ "/" ++ fst eo)%string]
                        old_dir)
                 (combine entries owners)
            ++ [Print (Str.nl ++ "Backed up data to " ++ snapshot ++ Str.nl)])%list)) /\
       up_action (Some R) s_copy = (Ok tt, s_end, (l_repair ++ [up_cmd])%list) /\
       fix_volumes_ownership (enter s_copy old_dir) = (Ok tt, s_fixed, l_repair)).
Proof.
  intros Hwf P R new_dir old_dir build_cmd down_cmd up_cmd w1 w2 to_path w3 w4 w5
    data backup_dir w6 snapshot w7 w8.
  assert (Hnew : Path.walk [] P = new_dir) by now apply walk_abspath.
  assert (Hold : forall c, Path.walk c R = old_dir) by (intros c; now apply walk_abspath).
  split.
  - intros Hroot HR Hnone.
    assert (E : check_compose_file (Some R) (enter s []) =
                (Exit 1, enter s old_dir,
                 [Print ("ERROR: Could not find any of " ++ Py.repr_list COMPOSE_FILES)])).
    { rewrite check_compose_file_missing; [|exact HR|].
      - cbn [target enter cwd env]. now rewrite Hold.
      - cbn [target enter cwd env]. now rewrite Hold. }
    do 2 eexists. unfold deploy_action.
    erewrite bind_run by reflexivity.
    erewrite bind_run by reflexivity.
    erewrite bind_run by reflexivity.
    erewrite bind_run by (apply chdir_run; exact Hroot).
    change (Path.walk (cwd s) "/") with (@nil string).
    fold P R. erewrite (bind_exit (check_compose_file (Some R))) by exact E.
    reflexivity.
  - intros s' l E. unfold deploy_action in E. inv_run.
    change (Path.walk (cwd s) "/") with (@nil string) in *.
    match goal with
    | E : check_compose_file _ _ = _ |- _ =>
        apply check_compose_file_ok in E as (-> & -> & (f & Hf)); [|reflexivity]
    end.
    match goal with
    | E : build _ _ = _ |- _ => apply build_ok in E as (-> & ->); [|reflexivity]
    end.
    match goal with
    | E : down_action _ _ = _ |- _ => apply down_action_ok in E as (-> & ->); [|reflexivity]
    end.
    subst w8 w7 snapshot w6 backup_dir data w5 w4 w3 to_path w2 w1 up_cmd down_cmd build_cmd
      old_dir new_dir R P.
    cbn [target enter cwd env] in *.
    rewrite ?Hnew, ?Hold in *.
    split; [now apply walk_render|]. split.
    { rewrite find_candidates in Hf. cbn [enter cwd env] in Hf.
      destruct (find (regular (env s) (Path.walk (cwd s) r)) COMPOSE_NAMES) as [n|];
        [now exists n|discriminate]. }
    match goal with
    | E : backup_action _ ?s0 = (_, ?s_end, ?lb) |- _ =>
        pose proof E as Hba;
        apply backup_action_ok in E
          as (s_down & s_copy & l_copy & l_up & Hdown & Hcopy & Hup & Hwfc & Hl);
        [|reflexivity];
        exists s_end, lb, s_copy, l_copy
    end.
    pose proof Hdown as Hdown'.
    apply down_action_ok in Hdown' as (_ & Hsd); [|reflexivity].
    cbn [target enter cwd env] in Hsd, Hl, Hdown. rewrite Hold in Hsd, Hl, Hdown.
    subst s_down.
    pose proof Hup as Hup'.
    apply up_action_ok in Hup' as (s_fixed & l_repair & Hfix & _ & Hlup & _); [|assumption].
    cbn [target] in Hfix, Hlup. rewrite Hold in Hfix, Hlup.
    exists s_fixed, l_repair.
    split; [cbn [app]; reflexivity|].
    split; [exact Hba|]. split; [now rewrite Hl, Hlup|].
    split; [exact Hdown|]. split; [exact Hcopy|].
    split; [|split; [now rewrite <- Hlup|exact Hfix]].
    match goal with
    | |- (is_type Dir ?inside ?data = false /\ _) \/ _ =>
        destruct (is_type Dir inside data) eqn:Hdata
    end.
    + right. split; [reflexivity|].
      match type of Hcopy with
      | backup ?q ?s5 = _ =>
          pose proof (backup_copy_log q s5 s_copy l_copy eq_refl) as Hlog
      end.
      cbn [target cwd] in Hlog. rewrite Hold in Hlog.
      unfold enter in Hlog. cbn [env] in Hlog. exact (Hlog Hdata Hcopy).
    + left. split; [reflexivity|].
      match type of Hcopy with
      | backup ?q ?s5 = _ =>
          pose proof (backup_ok q s5 s_copy l_copy eq_refl Hcopy) as Hb
      end.
      cbv zeta in Hb. cbn [target cwd] in Hb. rewrite Hold in Hb.
      unfold enter in Hb. cbn [env] in Hb.
      destruct Hb as [[Hd _]|(_ & _ & ->)]; [congruence|reflexivity].
Qed.

Lemma deploy_replace_sequence_witness :
  let s := TestHost.at_home TestHost.deploy_world in
  let run := deploy_action (Some "new") (Some "/prod/app") s in
  Path.wf (cwd s) = true /\
  run = (Ok tt, snd (fst run), snd run) /\
  cwd (snd (fst run)) = ["home"; "u"] /\
  (exists f, find (regular (env s) ["prod"; "app"]) COMPOSE_NAMES = Some f) /\
  is_type Dir {| cwd := ["prod"; "app"]; env := TestHost.after 5 TestHost.deploy_world |}
    "/opt/app/data" = true /\
  exists l_copy l_repair,
    snd run =
    ([Call ["docker-compose"; "build"] ["home"; "u"; "new"];
      Call ["docker-compose"; "down"] ["prod"; "app"];
      Call ["mv"; "/prod/app"; "/prod/app_20240309_120509_utc"] [];
      Call ["cp"; "-r"; "/home/u/new"; "/prod/app"] []]
     ++ (Call ["docker-compose"; "down"] ["prod"; "app"]
         :: l_copy ++ l_repair ++ [Call ["docker-compose"; "up"; "-d"] ["prod"; "app"]])
     ++ [Print "Backed up project /prod/app to /prod/app_20240309_120509_utc replaced with /home/u/new";
         Print "You can now delete /home/u/new"])%list /\
    exists entries owners,
      l_copy =
      ([Call ["sudo"; "mkdir"; "-p"; "/opt/app/backup"] ["prod"; "app"];
        Call ["sudo"; "cp"; "-r"; "/opt/app/data"; "/opt/app/backup/data_20240309_120513_utc"]
          ["prod"; "app"];
        Call ["sudo"; "chown"; "700"; "/opt/app/backup/data_20240309_120513_utc"]
          ["prod"; "app"]]
       ++ map (fun eo : string * string =>
                 Call ["sudo"; "chown"; "-R"; snd eo;
                       ("/opt/app/backup/data_20240309_120513_utc" ++ "/" ++ fst eo)%string]
                   ["prod"; "app"])
            (combine entries owners)
       ++ [Print (Str.nl ++ "Backed up data to /opt/app/backup/data_20240309_120513_utc"
                  ++ Str.nl)%string])%list.
Proof.
  assert (Hwf : Path.wf (cwd (TestHost.at_home TestHost.deploy_world)) = true)
    by reflexivity.
  assert (Hrun : deploy_action (Some "new") (Some "/prod/app")
                   (TestHost.at_home TestHost.deploy_world) =
                 (Ok tt,
                  snd (fst (deploy_action (Some "new") (Some "/prod/app")
                              (TestHost.at_home TestHost.deploy_world))),
                  snd (deploy_action (Some "new") (Some "/prod/app")
                         (TestHost.at_home TestHost.deploy_world))))
    by (vm_compute; reflexivity).
  assert (Hdata : is_type Dir
                    {| cwd := ["prod"; "app"];
                       env := TestHost.after 5 TestHost.deploy_world |}
                    "/opt/app/data" = true) by reflexivity.
  split; [exact Hwf|]. split; [exact Hrun|].
  destruct (proj2 (deploy_replace_sequence "new" "/prod/app"
                     (TestHost.at_home TestHost.deploy_world) Hwf) _ _ Hrun)
    as (C & F & s_end & l_backup & s_copy & l_copy & s_fixed & l_repair
        & Hl & _ & Hlb & _ & _ & Hcopy & _).
  split; [exact C|]. split; [exact F|]. split; [exact Hdata|].
  exists l_copy, l_repair. split; [rewrite Hl, Hlb; reflexivity|].
  destruct Hcopy as [[Hno _]|(_ & entries & owners & _ & _ & Hlc)].
  - exfalso. change (is_type Dir
                       {| cwd := ["prod"; "app"];
                          env := TestHost.after 5 TestHost.deploy_world |}
                       "/opt/app/data" = false) in Hno. congruence.
  - exists entries, owners. exact Hlc.
Defined.

(** The whole of a deploy in replace mode, on the test host. *)
Example deploy_replace_trace :
  calls (snd (deploy_action (Some "new") (Some "/prod/app")
                (TestHost.at_home TestHost.deploy_world))) =
  [Call ["docker-compose"; "build"] ["home"; "u"; "new"];
   Call ["docker-compose"; "down"] ["prod"; "app"];
   Call ["mv"; "/prod/app"; "/prod/app_20240309_120509_utc"] [];
   Call ["cp"; "-r"; "/home/u/new"; "/prod/app"] [];
   Call ["docker-compose"; "down"] ["prod"; "app"];
   Call ["sudo"; "mkdir"; "-p"; "/opt/app/backup"] ["prod"; "app"];
   Call ["sudo"; "cp"; "-r"; "/opt/app/data"; "/opt/app/backup/data_20240309_120513_utc"]
     ["prod"; "app"];
   Call ["sudo"; "chown"; "700"; "/opt/app/backup/data_20240309_120513_utc"]
     ["prod"; "app"];
   Call ["sudo"; "chown"; "-R"; "bob"; "/opt/app/backup/data_20240309_120513_utc/db"]
     ["prod"; "app"];
   Call ["sudo"; "chown"; "-R"; "alice"; "/opt/app/data"] ["prod"; "app"];
   Call ["docker-compose"; "up"; "-d"] ["prod"; "app"]].
Proof. vm_compute. reflexivity. Qed.

(** ** The volume extractor *)

Lemma startswith_host_side sep p : forall v,
  Str.has_char sep p = false ->
  Str.startswith p v = Str.startswith p (hd EmptyString (Str.split sep v)).
Proof.
  induction p as [|a p' IH]; intros v Hp; [reflexivity|].
  simpl in Hp. apply orb_false_iff in Hp as [Ha Hp'].
  destruct v as [|c r]; [reflexivity|]. simpl.
  destruct (Ascii.eqb c sep) eqn:Hc.
  - apply Ascii.eqb_eq in Hc as ->. simpl. now rewrite Ha.
  - pose proof (split_not_nil sep r) as Hne.
    destruct (Str.split sep r) as [|h t] eqn:Hs; [contradiction|].
    simpl. rewrite (IH r Hp'), Hs. reflexivity.
Qed.

Lemma startswith_opt v :
  Str.startswith "/opt/" v = Str.startswith "/opt/" (host_path v).
Proof. now apply startswith_host_side. Qed.

Lemma host_path_app hp rest :
  Str.has_char ":"%char hp = false -> host_path (hp ++ ":" ++ rest) = hp.
Proof.
  intros Hhp. unfold host_path.
  change (hp ++ ":" ++ rest) with (hp ++ String ":"%char rest).
  now rewrite split_app_sep.
Qed.

Lemma assoc_in_keys k (m : list (string * yaml)) v :
  Py.assoc k m = Some v -> In k (map fst m).
Proof.
  induction m as [|[k' v'] r IH]; simpl; [discriminate|].
  destruct (String.eqb k' k) eqn:Hk.
  - apply String.eqb_eq in Hk. now left.
  - intros E. right. now apply IH.
Qed.

Section Extractor.

Context {H : Host}.

Lemma assoc_contains k m :
  existsb (fun kv : string * yaml => String.eqb (fst kv) k) m =
  match Py.assoc k m with Some _ => true | None => false end.
Proof.
  induction m as [|[k' v] r IH]; [reflexivity|]. simpl.
  destruct (String.eqb k' k); [reflexivity|exact IH].
Qed.

(** One pass of the inner loop, computed. *)
Lemma volume_entry_run acc v s :
  volume_entry acc (YStr v) s =
  if negb (is_type Dir s (host_path v)) then
    (Ok (acc ++ [(host_path v, "root")])%list, s, [])
  else if negb (Str.startswith "/opt/" v) then
    (Ok acc, s,
     [Print (Str.nl ++ "WARNING: Skipping volume, must start with /opt/ : "
             ++ host_path v ++ Str.nl)])
  else
    match owner_name s (host_path v) with
    | Ok owner => (Ok (acc ++ [(host_path v, owner)])%list, s, [])
    | Exit n => (Exit n, s, [])
    | Raise e => (Raise e, s, [])
    end.
Proof.
  unfold volume_entry. fold (host_path v). unfold bind at 1. unfold isdir at 1.
  destruct (negb (is_type Dir s (host_path v))); [reflexivity|].
  destruct (negb (Str.startswith "/opt/" v)); [reflexivity|].
  unfold bind, stat_owner. now destruct (owner_name s (host_path v)).
Qed.

(** Whatever the compose file looks like, a pass of the inner loop that
    returns adds at most one record, of one of the two kinds. *)
Lemma volume_entry_ok acc entry s acc' s' l :
  volume_entry acc entry s = (Ok acc', s', l) ->
  acc' = acc \/ exists record, acc' = (acc ++ [record])%list /\ recorded s record.
Proof.
  destruct entry; try discriminate. rewrite volume_entry_run.
  destruct (is_type Dir s (host_path s0)) eqn:Hd; cbn [negb].
  - destruct (Str.startswith "/opt/" s0) eqn:Hp; cbn [negb].
    + destruct (owner_name s (host_path s0)) as [o| |] eqn:Ho; try discriminate.
      intros E; inversion E; subst. right. eexists. split; [reflexivity|].
      right. cbn [fst snd]. rewrite <- startswith_opt. now repeat split.
    + intros E; inversion E; subst. now left.
  - intros E; inversion E; subst. right. eexists. split; [reflexivity|].
    left. now split.
Qed.

Lemma for_fold_volume_entry_ok entries : forall acc s acc' s' l,
  for_fold entries volume_entry acc s = (Ok acc', s', l) ->
  exists added, acc' = (acc ++ added)%list /\ Forall (recorded s) added.
Proof.
  induction entries as [|e r IH]; cbn [for_fold]; intros acc s acc' s' l E.
  - inv_run. exists []. split; [now rewrite app_nil_r|constructor].
  - inv_run.
    match goal with
    | E1 : volume_entry _ _ _ = _ |- _ =>
        pose proof (looks_volume_entry _ _ _ _ _ _ E1) as [-> _];
        apply volume_entry_ok in E1 as [->|(record & -> & Hr)]
    end.
    + match goal with E2 : for_fold _ _ _ _ = _ |- _ => now apply IH in E2 end.
    + match goal with
      | E2 : for_fold _ _ _ _ = _ |- _ => apply IH in E2 as (added & -> & Ha)
      end.
      exists (record :: added). split; [now rewrite <- app_assoc|now constructor].
Qed.

Lemma service_entry_ok services acc service s acc' s' l :
  service_entry services acc service s = (Ok acc', s', l) ->
  exists added, acc' = (acc ++ added)%list /\ Forall (recorded s) added.
Proof.
  unfold service_entry. intros E. inv_run.
  repeat match goal with
         | E1 : lift _ _ = (Ok _, _, _) |- _ => apply lift_ok in E1 as (? & -> & ->)
         end.
  match goal with
  | E1 : (if ?b then _ else _) _ = _ |- _ => destruct b
  end.
  - inv_run.
    repeat match goal with
           | E1 : lift _ _ = (Ok _, _, _) |- _ => apply lift_ok in E1 as (? & -> & ->)
           end.
    match goal with E2 : for_fold _ _ _ _ = _ |- _ => now apply for_fold_volume_entry_ok in E2 end.
  - inv_run. exists []. split; [now rewrite app_nil_r|constructor].
Qed.

Lemma for_fold_service_entry_ok services names : forall acc s acc' s' l,
  for_fold names (service_entry services) acc s = (Ok acc', s', l) ->
  exists added, acc' = (acc ++ added)%list /\ Forall (recorded s) added.
Proof.
  induction names as [|n r IH]; cbn [for_fold]; intros acc s acc' s' l E.
  - inv_run. exists []. split; [now rewrite app_nil_r|constructor].
  - inv_run.
    match goal with
    | E1 : service_entry _ _ _ _ = _ |- _ =>
        pose proof (looks_service_entry _ _ _ _ _ _ _ E1) as [-> _];
        apply service_entry_ok in E1 as (added1 & -> & Hr1)
    end.
    match goal with
    | E2 : for_fold _ _ _ _ = _ |- _ => apply IH in E2 as (added2 & -> & Hr2)
    end.
    exists (added1 ++ added2)%list. split; [now rewrite app_assoc|].
    apply Forall_app. now split.
Qed.

(** Every record the extractor returns is of one of the two kinds. *)
Lemma extractor_records s out s' l :
  volumes_from_compose_file s = (Ok out, s', l) -> Forall (recorded s) out.
Proof.
  unfold volumes_from_compose_file. intros E. inv_run.
  match goal with
  | E1 : first_file _ _ = _ |- _ =>
      pose proof (looks_first_file _ _ _ _ _ E1) as [-> _]; clear E1
  end.
  match goal with
  | E1 : match ?found with Some _ => _ | None => _ end _ = _ |- _ => destruct found
  end; inv_run; [|discriminate].
  match goal with
  | E1 : load_yaml _ _ = _ |- _ =>
      pose proof (looks_load_yaml _ _ _ _ _ E1) as [-> _]; clear E1
  end.
  repeat match goal with
         | E1 : lift _ _ = (Ok _, _, _) |- _ => apply lift_ok in E1 as (? & -> & ->)
         end.
  match goal with
  | E1 : (if ?b then _ else _) _ = _ |- _ => destruct b
  end; inv_run; [discriminate|].
  repeat match goal with
         | E1 : lift _ _ = (Ok _, _, _) |- _ => apply lift_ok in E1 as (? & -> & ->)
         end.
  match goal with
  | E2 : for_fold _ _ _ _ = _ |- _ =>
      apply for_fold_service_entry_ok in E2 as (added & -> & Ha)
  end.
  exact Ha.
Qed.

End Extractor.

(** What the extractor returns, read off a run that returned: whatever the
    compose file looks like, the records of the entries it went through,
    in their order. *)

Section ExtractorExact.

Context {H : Host}.

Lemma volume_entry_exact acc entry s acc' s' l :
  volume_entry acc entry s = (Ok acc', s', l) ->
  acc' = (acc ++ entry_records s entry)%list /\ s' = s /\ l = entry_warnings s entry.
Proof.
  destruct entry as [| | | |v| |]; try discriminate. rewrite volume_entry_run.
  unfold entry_records, entry_warnings.
  destruct (is_type Dir s (host_path v)); cbn [negb andb].
  - destruct (Str.startswith "/opt/" v); cbn [negb].
    + destruct (owner_name s (host_path v)); try discriminate.
      intros E; inversion E; subst. now repeat split.
    + intros E; inversion E; subst. rewrite app_nil_r. now repeat split.
  - intros E; inversion E; subst. now repeat split.
Qed.

Lemma volume_entries_exact entries : forall acc s acc' s' l,
  for_fold entries volume_entry acc s = (Ok acc', s', l) ->
  acc' = (acc ++ flat_map (entry_records s) entries)%list /\ s' = s /\
  l = flat_map (entry_warnings s) entries.
Proof.
  induction entries as [|e r IH]; cbn [for_fold flat_map]; intros acc s acc' s' l E.
  - apply ret_ok in E as (-> & -> & ->). now rewrite app_nil_r.
  - apply bind_ok in E as (acc1 & s1 & l1 & l2 & E1 & E2 & ->).
    apply volume_entry_exact in E1 as (-> & -> & ->).
    apply IH in E2 as (-> & -> & ->). now rewrite <- app_assoc.
Qed.

Lemma service_entry_exact services acc service s acc' s' l :
  service_entry services acc service s = (Ok acc', s', l) ->
  let entries := match Py.getitem services service with
                 | Ok definition => entries_of definition
                 | _ => []
                 end in
  acc' = (acc ++ flat_map (entry_records s) entries)%list /\ s' = s /\
  l = flat_map (entry_warnings s) entries.
Proof.
  unfold service_entry. intros E. cbv zeta.
  apply bind_ok in E as (definition & s1 & l1 & l2 & E1 & E2 & ->).
  apply lift_ok in E1 as (Hd & -> & ->). rewrite Hd.
  apply bind_ok in E2 as (has & s1 & l1 & l3 & E1 & E2 & ->).
  apply lift_ok in E1 as (Hc & -> & ->). unfold entries_of. rewrite Hc.
  destruct has.
  - apply bind_ok in E2 as (declared & s1 & l1 & l4 & E1 & E2 & ->).
    apply lift_ok in E1 as (Hg & -> & ->). rewrite Hg.
    apply bind_ok in E2 as (entries & s1 & l1 & l5 & E1 & E2 & ->).
    apply lift_ok in E1 as (Hi & -> & ->). rewrite Hi.
    now apply volume_entries_exact in E2.
  - apply ret_ok in E2 as (-> & -> & ->). cbn [flat_map]. now rewrite app_nil_r.
Qed.

Lemma services_exact services names : forall acc s acc' s' l,
  for_fold names (service_entry services) acc s = (Ok acc', s', l) ->
  let entries :=
    flat_map (fun name => match Py.getitem services name with
                          | Ok definition => entries_of definition
                          | _ => []
                          end) names in
  acc' = (acc ++ flat_map (entry_records s) entries)%list /\ s' = s /\
  l = flat_map (entry_warnings s) entries.
Proof.
  induction names as [|n r IH]; cbn [for_fold flat_map]; intros acc s acc' s' l E; cbv zeta.
  - apply ret_ok in E as (-> & -> & ->). now rewrite app_nil_r.
  - apply bind_ok in E as (acc1 & s1 & l1 & l2 & E1 & E2 & ->).
    apply service_entry_exact in E1 as (-> & -> & ->).
    apply IH in E2 as (-> & -> & ->).
    rewrite !flat_map_app, <- app_assoc. now repeat split.
Qed.

Lemma extractor_exact s doc out s' l :
  reads s doc ->
  volumes_from_compose_file s = (Ok out, s', l) ->
  out = flat_map (entry_records s) (volume_entries doc) /\ s' = s /\
  l = flat_map (entry_warnings s) (volume_entries doc).
Proof.
  intros (f & Hf & Hload) E. unfold volumes_from_compose_file in E.
  rewrite (bind_silent _ _ _ _ (first_file_run _ _)), Hf in E.
  rewrite (bind_silent _ _ _ _ Hload) in E.
  apply bind_ok in E as (has & s1 & l1 & l2 & E1 & E2 & ->).
  apply lift_ok in E1 as (Hc & -> & ->).
  destruct has; cbn [negb] in E2.
  - apply bind_ok in E2 as (services & s1 & l1 & l3 & E1 & E2 & ->).
    apply lift_ok in E1 as (Hg & -> & ->).
    apply bind_ok in E2 as (names & s1 & l1 & l4 & E1 & E2 & ->).
    apply lift_ok in E1 as (Hi & -> & ->).
    unfold volume_entries. rewrite Hg, Hi.
    now apply services_exact in E2.
  - apply bind_ok in E2 as (u & s1 & l1 & l3 & _ & E2 & _). discriminate.
Qed.

(** A volume that a service declares is among the entries the extractor
    goes through. *)
Lemma declares_entry doc name v : declares doc name v -> In (YStr v) (volume_entries doc).
Proof.
  intros (top & services & definition & entries & -> & Hs & Hn & Hv & Hin).
  unfold volume_entries. cbn [Py.getitem Py.iter]. rewrite Hs.
  apply in_flat_map. exists (YStr name). split.
  - apply in_map_iff. apply assoc_in_keys in Hn. apply in_map_iff in Hn as ([k d] & <- & Hkd).
    now exists (k, d).
  - cbn [Py.getitem]. rewrite Hn. unfold entries_of. cbn [Py.contains Py.getitem Py.iter].
    now rewrite assoc_contains, Hv.
Qed.

(** Its record is in every list the extractor returns. *)
Lemma extractor_keeps s doc name v out s' l record :
  reads s doc -> declares doc name v ->
  volumes_from_compose_file s = (Ok out, s', l) ->
  In record (entry_records s (YStr v)) -> In record out.
Proof.
  intros Hreads Hdecl E Hin.
  destruct (extractor_exact _ _ _ _ _ Hreads E) as (-> & _ & _).
  apply in_flat_map. exists (YStr v). split; [now apply declares_entry with name|exact Hin].
Qed.

End ExtractorExact.

Section ExtractorTotal.

Context {H : Host}.

Lemma recorded_owner s path o o' :
  recorded s (path, o) -> recorded s (path, o') -> o = o'.
Proof.
  unfold recorded. cbn [fst snd].
  intros [[Hd Ho]|(Hd & _ & Ho)] [[Hd' Ho']|(Hd' & _ & Ho')]; congruence.
Qed.

(** On entries of the usual shape the inner loop returns, and what an entry
    contributes is in the list it returns. *)
Lemma volume_entries_total s entries :
  forallb (entry_ok s) entries = true ->
  forall acc, exists acc' l,
    for_fold entries volume_entry acc s = (Ok acc', s, l) /\
    (exists added, acc' = (acc ++ added)%list) /\
    (forall v o, In (YStr v) entries -> recorded s (host_path v, o) ->
                 In (host_path v, o) acc').
Proof.
  induction entries as [|e r IH]; cbn [for_fold forallb]; intros Hok acc.
  - exists acc, []. split; [reflexivity|]. split; [exists []; now rewrite app_nil_r|].
    intros v o [].
  - apply andb_true_iff in Hok as [He Hr].
    destruct e as [| | | |v'| |]; try discriminate.
    assert (Hstep : exists acc1 l1,
               volume_entry acc (YStr v') s = (Ok acc1, s, l1) /\
               (exists added, acc1 = (acc ++ added)%list) /\
               (forall o, recorded s (host_path v', o) -> In (host_path v', o) acc1)).
    { rewrite volume_entry_run. unfold entry_ok in He.
      destruct (is_type Dir s (host_path v')) eqn:Hd; cbn [negb andb] in *.
      - destruct (Str.startswith "/opt/" v') eqn:Hp; cbn [negb] in *.
        + destruct (owner_name s (host_path v')) as [o'| |] eqn:Ho; try discriminate.
          do 2 eexists. split; [reflexivity|]. split; [now eexists|].
          intros o Hrec. apply in_or_app. right. left. f_equal.
          apply (recorded_owner s (host_path v')); [|exact Hrec].
          right. cbn [fst snd]. rewrite <- startswith_opt. now repeat split.
        + do 2 eexists. split; [reflexivity|]. split; [exists []; now rewrite app_nil_r|].
          intros o [[Hd' _]|(_ & Hp' & _)]; cbn [fst snd] in *; [congruence|].
          rewrite <- startswith_opt in Hp'. congruence.
      - do 2 eexists. split; [reflexivity|]. split; [now eexists|].
        intros o [[_ Ho]|(Hd' & _)]; cbn [fst snd] in *; [|congruence].
        subst o. apply in_or_app. right. now left. }
    destruct Hstep as (acc1 & l1 & E1 & (added1 & ->) & Hin1).
    destruct (IH Hr (acc ++ added1)%list) as (acc' & l2 & E2 & (added2 & ->) & Hin2).
    exists ((acc ++ added1) ++ added2)%list, (l1 ++ l2)%list.
    split; [now rewrite (bind_run _ _ _ _ _ _ E1), E2|].
    split; [exists (added1 ++ added2)%list; now rewrite app_assoc|].
    intros v o [Hv|Hv] Hrec.
    + injection Hv as <-. apply in_or_app. left. now apply Hin1.
    + now apply Hin2.
Qed.

Lemma service_entry_total s services k fields :
  Py.assoc k services = Some (YMap fields) ->
  definition_ok s (YMap fields) = true ->
  forall acc, exists acc' l,
    service_entry (YMap services) acc (YStr k) s = (Ok acc', s, l) /\
    (exists added, acc' = (acc ++ added)%list) /\
    (forall entries v o,
        Py.assoc "volumes" fields = Some (YSeq entries) ->
        In (YStr v) entries -> recorded s (host_path v, o) ->
        In (host_path v, o) acc').
Proof.
  intros Hk Hok acc. unfold service_entry.
  assert (E1 : lift (Py.getitem (YMap services) (YStr k)) s = (Ok (YMap fields), s, []))
    by (unfold lift; cbn [Py.getitem]; now rewrite Hk).
  rewrite (bind_run _ _ _ _ _ _ E1).
  assert (E2 : lift (Py.contains "volumes" (YMap fields)) s =
               (Ok (match Py.assoc "volumes" fields with Some _ => true | None => false end),
                s, []))
    by (unfold lift; cbn [Py.contains]; now rewrite assoc_contains).
  rewrite (bind_run _ _ _ _ _ _ E2).
  cbn [definition_ok] in Hok.
  destruct (Py.assoc "volumes" fields) as [declared|] eqn:Hv.
  - destruct declared as [| | | | |entries|]; try discriminate.
    assert (E3 : lift (Py.getitem (YMap fields) (YStr "volumes")) s =
                 (Ok (YSeq entries), s, []))
      by (unfold lift; cbn [Py.getitem]; now rewrite Hv).
    rewrite (bind_run _ _ _ _ _ _ E3).
    assert (E4 : lift (Py.iter (YSeq entries)) s = (Ok entries, s, [])) by reflexivity.
    rewrite (bind_run _ _ _ _ _ _ E4).
    destruct (volume_entries_total s entries Hok acc) as (acc' & l & E & Hadd & Hin).
    rewrite E. exists acc'. eexists. split; [reflexivity|]. split; [assumption|].
    intros entries' v o Hent. injection Hent as <-. apply Hin.
  - exists acc. eexists. split; [reflexivity|]. split; [exists []; now rewrite app_nil_r|].
    intros entries v o Hent. discriminate.
Qed.

Lemma services_total s services : forall rest,
  forallb (fun kv : string * yaml =>
             match Py.assoc (fst kv) services with
             | Some definition => definition_ok s definition
             | None => false
             end) rest = true ->
  forall acc, exists acc' l,
    for_fold (map (fun kv : string * yaml => YStr (fst kv)) rest)
      (service_entry (YMap services)) acc s = (Ok acc', s, l) /\
    (exists added, acc' = (acc ++ added)%list) /\
    (forall name fields entries v o,
        In name (map fst rest) ->
        Py.assoc name services = Some (YMap fields) ->
        Py.assoc "volumes" fields = Some (YSeq entries) ->
        In (YStr v) entries -> recorded s (host_path v, o) ->
        In (host_path v, o) acc').
Proof.
  induction rest as [|[k d] r IH]; cbn [map for_fold forallb fst]; intros Hok acc.
  - exists acc, []. split; [reflexivity|]. split; [exists []; now rewrite app_nil_r|].
    intros name fields entries v o [].
  - apply andb_true_iff in Hok as [Hk Hr].
    destruct (Py.assoc k services) as [definition|] eqn:Ek; [|discriminate].
    destruct definition as [| | | | | |fields]; try discriminate.
    destruct (service_entry_total s services k fields Ek Hk acc)
      as (acc1 & l1 & E1 & (added1 & ->) & Hin1).
    destruct (IH Hr (acc ++ added1)%list) as (acc' & l2 & E2 & (added2 & ->) & Hin2).
    exists ((acc ++ added1) ++ added2)%list, (l1 ++ l2)%list.
    split; [now rewrite (bind_run _ _ _ _ _ _ E1), E2|].
    split; [exists (added1 ++ added2)%list; now rewrite app_assoc|].
    intros name fields' entries v o [<-|Hname] Hf He Hv Hrec.
    + rewrite Ek in Hf. injection Hf as <-.
      apply in_or_app. left. now apply (Hin1 entries).
    + now apply (Hin2 name fields' entries).
Qed.

(** On a compose file of the usual shape the extractor returns, and the
    record of every declared volume is in its list. *)
Lemma extractor_total s doc :
  reads s doc -> compose_ok s doc = true ->
  exists out l,
    volumes_from_compose_file s = (Ok out, s, l) /\
    (forall name v o, declares doc name v -> recorded s (host_path v, o) ->
                      In (host_path v, o) out).
Proof.
  intros (f & Hf & Hload) Hok. unfold volumes_from_compose_file.
  rewrite (bind_run _ _ _ _ _ _ (first_file_run _ _)), Hf.
  rewrite (bind_run _ _ _ _ _ _ Hload).
  destruct doc as [| | | | | |top]; try discriminate. cbn [compose_ok] in Hok.
  destruct (Py.assoc "services" top) as [svc|] eqn:Hs; [|discriminate].
  destruct svc as [| | | | | |services]; try discriminate.
  assert (E1 : lift (Py.contains "services" (YMap top)) s = (Ok true, s, []))
    by (unfold lift; cbn [Py.contains]; now rewrite assoc_contains, Hs).
  rewrite (bind_run _ _ _ _ _ _ E1). cbn [negb].
  assert (E2 : lift (Py.getitem (YMap top) (YStr "services")) s =
               (Ok (YMap services), s, []))
    by (unfold lift; cbn [Py.getitem]; now rewrite Hs).
  rewrite (bind_run _ _ _ _ _ _ E2).
  assert (E3 : lift (Py.iter (YMap services)) s =
               (Ok (map (fun kv : string * yaml => YStr (fst kv)) services), s, []))
    by reflexivity.
  rewrite (bind_run _ _ _ _ _ _ E3).
  destruct (services_total s services services Hok []) as (out & l & E & _ & Hin).
  rewrite E. exists out. eexists. split; [reflexivity|].
  intros name v o (top' & services' & fields & entries & Hd & Hs' & Hn & Hv & Hi) Hrec.
  injection Hd as <-. rewrite Hs in Hs'. injection Hs' as <-.
  apply (Hin name fields entries); try assumption.
  now apply assoc_in_keys in Hn.
Qed.

End ExtractorTotal.

(** C2, as stated, fails: a host path outside [/opt/] that is not on disk
    is in the list the extractor returns, with owner ["root"]. *)
Lemma extractor_keeps_missing_path_outside_opt :
  Str.startswith "/opt/" "/srv/x" = false /\
  volumes_from_compose_file (TestHost.in_app TestHost.app_world) =
  (Ok [("/opt/app/data", "alice"); ("/srv/x", "root")],
   TestHost.in_app TestHost.app_world,
   [Print (Str.nl ++ "WARNING: Skipping volume, must start with /opt/ : /tmp" ++ Str.nl)]).
Proof. split; [reflexivity|]. vm_compute. reflexivity. Qed.

(** C2, amended.  In every list the extractor returns, a host path outside
    [/opt/] that is a directory is missing, under any owner.  One that is
    not a directory is there whenever a service declares it, as the pair
    of the path and ["root"], and under no other owner. *)
Theorem extractor_omits_directories_outside_opt {H : Host} s out s' l path :
  volumes_from_compose_file s = (Ok out, s', l) ->
  Str.startswith "/opt/" path = false ->
  (is_type Dir s path = true -> forall owner, ~ In (path, owner) out) /\
  (is_type Dir s path = false ->
   (forall doc name v,
       reads s doc -> declares doc name v -> host_path v = path ->
       In (path, "root") out) /\
   (forall owner, In (path, owner) out -> owner = "root")).
Proof.
  intros E Hp.
  assert (G : forall owner, In (path, owner) out ->
                is_type Dir s path = false /\ owner = "root").
  { intros owner Hin. pose proof (extractor_records _ _ _ _ E) as Hrec.
    rewrite Forall_forall in Hrec.
    destruct (Hrec _ Hin) as [[Hd Ho]|(_ & Hp' & _)]; cbn [fst snd] in *;
      [now split|congruence]. }
  split.
  - intros Hd owner Hin. destruct (G owner Hin) as [Hd' _]. congruence.
  - intros Hd. split.
    + intros doc name v Hreads Hdecl <-.
      apply (extractor_keeps s doc name v out s' l); try assumption.
      unfold entry_records. rewrite Hd. now left.
    + intros owner Hin. now destruct (G owner Hin).
Qed.

Lemma extractor_omits_directories_outside_opt_witness :
  let s := TestHost.in_app TestHost.app_world in
  let doc := TestHost.compose ["/opt/app/data:/data"; "/srv/x:/x"; "/tmp:/t"] in
  let run := volumes_from_compose_file s in
  run = (Ok [("/opt/app/data", "alice"); ("/srv/x", "root")], snd (fst run), snd run) /\
  Str.startswith "/opt/" "/tmp" = false /\
  is_type Dir s "/tmp" = true /\
  ~ In ("/tmp", "root") [("/opt/app/data", "alice"); ("/srv/x", "root")] /\
  Str.startswith "/opt/" "/srv/x" = false /\
  is_type Dir s "/srv/x" = false /\
  reads s doc /\ declares doc "web" "/srv/x:/x" /\
  In ("/srv/x", "root") [("/opt/app/data", "alice"); ("/srv/x", "root")].
Proof.
  assert (Hrun : volumes_from_compose_file (TestHost.in_app TestHost.app_world) =
                 (Ok [("/opt/app/data", "alice"); ("/srv/x", "root")],
                  snd (fst (volumes_from_compose_file (TestHost.in_app TestHost.app_world))),
                  snd (volumes_from_compose_file (TestHost.in_app TestHost.app_world))))
    by (vm_compute; reflexivity).
  assert (Hreads : reads (TestHost.in_app TestHost.app_world)
                     (TestHost.compose ["/opt/app/data:/data"; "/srv/x:/x"; "/tmp:/t"])).
  { exists "./docker-compose.yml". split; vm_compute; reflexivity. }
  assert (Hdecl : declares (TestHost.compose ["/opt/app/data:/data"; "/srv/x:/x"; "/tmp:/t"])
                    "web" "/srv/x:/x").
  { do 4 eexists. split; [reflexivity|]. split; [reflexivity|]. split; [reflexivity|].
    split; [reflexivity|]. right. now left. }
  split; [exact Hrun|]. split; [reflexivity|]. split; [reflexivity|].
  split; [exact (proj1 (extractor_omits_directories_outside_opt _ _ _ _ "/tmp" Hrun eq_refl)
                   eq_refl "root")|].
  split; [reflexivity|]. split; [reflexivity|]. split; [exact Hreads|]. split; [exact Hdecl|].
  exact (proj1 (proj2 (extractor_omits_directories_outside_opt _ _ _ _ "/srv/x" Hrun eq_refl)
                  eq_refl)
           _ "web" "/srv/x:/x" Hreads Hdecl eq_refl).
Defined.

(** C8, as stated, fails: beside a declared volume [/opt/app/data] that is
    a directory of [alice], the compose file has a volume in the long
    syntax.  The extractor ends in an uncaught [AttributeError] and yields
    no list at all. *)
Lemma extractor_raises_beside_owned_volume :
  let s := TestHost.in_app long_syntax_world in
  reads s long_syntax /\
  declares long_syntax "web" ("/opt/app/data" ++ ":" ++ "/data") /\
  is_type Dir s "/opt/app/data" = true /\
  owner_name s "/opt/app/data" = Ok "alice" /\
  volumes_from_compose_file s = (Raise AttributeError, s, []).
Proof.
  cbv zeta. split.
  { exists "./docker-compose.yml". split; vm_compute; reflexivity. }
  split.
  { do 4 eexists. split; [reflexivity|]. split; [reflexivity|]. split; [reflexivity|].
    split; [reflexivity|]. now left. }
  split; [reflexivity|]. split; [reflexivity|]. vm_compute. reflexivity.
Qed.

(** C8, amended.  A declared volume ["/opt/x:/container/path"] whose host
    side is a directory owned by [u]: every list the extractor returns
    holds [("/opt/x", u)]; and on a compose file of the usual shape the
    extractor does return one. *)
Theorem extractor_yields_owned_opt_volume {H : Host} s doc name hp rest u :
  reads s doc ->
  declares doc name (hp ++ ":" ++ rest) ->
  Str.has_char ":"%char hp = false ->
  Str.startswith "/opt/" hp = true ->
  is_type Dir s hp = true ->
  owner_name s hp = Ok u ->
  (forall out s' l, volumes_from_compose_file s = (Ok out, s', l) -> In (hp, u) out) /\
  (compose_ok s doc = true ->
   exists out l, volumes_from_compose_file s = (Ok out, s, l) /\ In (hp, u) out).
Proof.
  intros Hreads Hdecl Hcolon Hopt Hdir Howner.
  assert (Kept : forall out s' l,
             volumes_from_compose_file s = (Ok out, s', l) -> In (hp, u) out).
  { intros out s' l E.
    apply (extractor_keeps s doc name (hp ++ ":" ++ rest) out s' l); try assumption.
    unfold entry_records. rewrite startswith_opt, (host_path_app hp rest Hcolon).
    rewrite Hdir, Hopt, Howner. now left. }
  split; [exact Kept|].
  intros Hok. destruct (extractor_total s doc Hreads Hok) as (out & l & E & _).
  exists out, l. split; [exact E|]. exact (Kept _ _ _ E).
Qed.

Lemma extractor_yields_owned_opt_volume_witness :
  let s := TestHost.in_app TestHost.app_world in
  let doc := TestHost.compose ["/opt/app/data:/data"; "/srv/x:/x"; "/tmp:/t"] in
  reads s doc /\
  declares doc "web" ("/opt/app/data" ++ ":" ++ "/data") /\
  Str.has_char ":"%char "/opt/app/data" = false /\
  Str.startswith "/opt/" "/opt/app/data" = true /\
  is_type Dir s "/opt/app/data" = true /\
  owner_name s "/opt/app/data" = Ok "alice" /\
  compose_ok s doc = true /\
  exists out l,
    volumes_from_compose_file s = (Ok out, s, l) /\ In ("/opt/app/data", "alice") out.
Proof.
  cbv zeta.
  assert (Hreads : reads (TestHost.in_app TestHost.app_world)
                     (TestHost.compose ["/opt/app/data:/data"; "/srv/x:/x"; "/tmp:/t"])).
  { exists "./docker-compose.yml". split; vm_compute; reflexivity. }
  assert (Hdecl : declares (TestHost.compose ["/opt/app/data:/data"; "/srv/x:/x"; "/tmp:/t"])
                    "web" ("/opt/app/data" ++ ":" ++ "/data")).
  { do 4 eexists. split; [reflexivity|]. split; [reflexivity|]. split; [reflexivity|].
    split; [reflexivity|]. now left. }
  split; [exact Hreads|]. split; [exact Hdecl|].
  split; [reflexivity|]. split; [reflexivity|]. split; [reflexivity|].
  split; [reflexivity|]. split; [reflexivity|].
  exact (proj2 (extractor_yields_owned_opt_volume _ _ "web" "/opt/app/data" "/data" "alice"
                  Hreads Hdecl eq_refl eq_refl eq_refl eq_refl) eq_refl).
Defined.

(** ** The ownership repairer *)

Section Repairer.

Context {H : Host}.

Lemma missing_not_dir s path : exists_on_disk s path = false -> is_type Dir s path = false.
Proof.
  unfold exists_on_disk, is_type. destruct (resolve s path) as [d|]; [|reflexivity].
  now destruct (os_stat (env s) d).
Qed.

(** One pass of the loop of the repairer, computed. *)
Lemma fix_volume_run path owner s :
  fix_volume (path, owner) s =
  if negb (is_type Dir s path) then (Ok tt, s, missing_warning path)
  else
    match owner_name s path with
    | Ok current =>
        if String.eqb current "root" then
          (Ok tt, s,
           [Print (Str.nl ++ "WARNING: You should probably set non root owner of volume folder: "
                   ++ path ++ Str.nl);
            Print ("sudo chown -R OWNER_HERE " ++ path ++ Str.nl)])
        else check_call ["sudo"; "chown"; "-R"; owner; path] s
    | Exit n => (Exit n, s, [])
    | Raise e => (Raise e, s, [])
    end.
Proof.
  unfold fix_volume. cbn [fst snd]. unfold bind at 1. unfold isdir at 1.
  destruct (negb (is_type Dir s path)); [reflexivity|].
  unfold bind at 1. unfold stat_owner at 1.
  destruct (owner_name s path) as [current| |]; try reflexivity.
  destruct (String.eqb current "root"); [reflexivity|].
  now destruct (check_call ["sudo"; "chown"; "-R"; owner; path] s) as [[r s'] l].
Qed.

(** A volume that is not on disk: two lines of warning, nothing run. *)
Lemma fix_volume_missing path owner s :
  exists_on_disk s path = false ->
  fix_volume (path, owner) s = (Ok tt, s, missing_warning path).
Proof.
  intros Hm. rewrite fix_volume_run. now rewrite (missing_not_dir _ _ Hm).
Qed.

(** A command that returned was run and gave 0. *)
Lemma check_call_zero argv s s' l :
  check_call argv s = (Ok tt, s', l) ->
  subprocess_run argv (cwd s) (env s) = (env s', Some 0%Z).
Proof.
  unfold check_call. destruct (subprocess_run argv (cwd s) (env s)) as [w [c|]];
    [|discriminate].
  destruct (c =? 0)%Z eqn:Hc; [|discriminate].
  intros E; inversion E; subst. apply Z.eqb_eq in Hc as ->. reflexivity.
Qed.

(** Any pass: the working directory stays; where the pass returns, a
    missing path is still missing; and a command, if one is run, is the
    change of owner of this volume. *)
Lemma fix_volume_step path volume s r s' l :
  exists_on_disk s path = false ->
  chown_creates_nothing_at (cwd s) path ->
  fix_volume volume s = (r, s', l) ->
  cwd s' = cwd s /\
  (r = Ok tt -> exists_on_disk s' path = false) /\
  (forall owner d, In (Call ["sudo"; "chown"; "-R"; owner; path] d) l -> False) /\
  (fst volume = path -> r = Ok tt /\ l = missing_warning path).
Proof.
  intros Hm Hstay E. destruct volume as [q o]. cbn [fst].
  destruct (String.eqb q path) eqn:Hq.
  - apply String.eqb_eq in Hq as ->. rewrite (fix_volume_missing _ _ _ Hm) in E.
    injection E as <- <- <-. split; [reflexivity|]. split; [intros _; exact Hm|].
    split; [|now intros _].
    intros owner d [Hc|[Hc|[]]]; discriminate.
  - apply String.eqb_neq in Hq. rewrite fix_volume_run in E.
    assert (Same : forall r0 l0, (r0, s, l0) = (r, s', l) ->
                     (forall e, In e l0 -> is_call e = false) ->
                     cwd s' = cwd s /\ (r = Ok tt -> exists_on_disk s' path = false) /\
                     (forall owner d, In (Call ["sudo"; "chown"; "-R"; owner; path] d) l -> False) /\
                     (q = path -> r = Ok tt /\ l = missing_warning path)).
    { intros r0 l0 E0 Hl0. injection E0 as <- <- <-.
      split; [reflexivity|]. split; [intros _; exact Hm|].
      split; [|intros Hqp; contradiction].
      intros owner d Hin. apply Hl0 in Hin. discriminate. }
    destruct (negb (is_type Dir s q)).
    { apply (Same _ _ E). intros ev [<-|[<-|[]]]; reflexivity. }
    destruct (owner_name s q) as [current| |].
    + destruct (String.eqb current "root").
      { apply (Same _ _ E). intros ev [<-|[<-|[]]]; reflexivity. }
      pose proof (check_call_inv _ _ _ _ _ E) as (-> & C & _).
      split; [assumption|]. split.
      { intros ->. apply check_call_zero in E. destruct s as [c w], s' as [c' w'].
        cbn [cwd env] in *. subst c'. exact (Hstay o q w w' E Hm). }
      split; [|contradiction].
      intros owner d [Hc|[]]. injection Hc as _ Hc _. contradiction.
    + apply (Same _ _ E). intros ev [].
    + apply (Same _ _ E). intros ev [].
Qed.

Lemma repair_loop_missing path volumes : forall s r s' l,
  exists_on_disk s path = false ->
  chown_creates_nothing_at (cwd s) path ->
  for_each volumes fix_volume s = (r, s', l) ->
  (forall owner d, In (Call ["sudo"; "chown"; "-R"; owner; path] d) l -> False) /\
  (r = Ok tt -> forall owner, In (path, owner) volumes ->
                exists before after, l = (before ++ missing_warning path ++ after)%list).
Proof.
  induction volumes as [|v rest IH]; cbn [for_each]; intros s r s' l Hm Hstay E.
  - injection E as <- <- <-. split; [intros owner d []|intros _ owner []].
  - apply bind_cases in E
      as [(a & s1 & l1 & l2 & E1 & E2 & ->)|[(n & E1 & ->)|(ex & E1 & ->)]].
    + destruct a.
      destruct (fix_volume_step path v s _ _ _ Hm Hstay E1) as (C & Hm1 & Hno1 & Hw1).
      rewrite <- C in Hstay.
      destruct (IH _ _ _ _ (Hm1 eq_refl) Hstay E2) as (Hno2 & Hw2).
      split.
      * intros owner d Hin. apply in_app_or in Hin as [Hin|Hin]; eauto.
      * intros Hr owner [Hv|Hin].
        -- subst v. destruct (Hw1 eq_refl) as [_ ->].
           exists [], l2. reflexivity.
        -- destruct (Hw2 Hr owner Hin) as (before & after & ->).
           exists (l1 ++ before)%list, after. now rewrite <- app_assoc.
    + destruct (fix_volume_step path v s _ _ _ Hm Hstay E1) as (_ & _ & Hno1 & _).
      split; [exact Hno1|discriminate].
    + destruct (fix_volume_step path v s _ _ _ Hm Hstay E1) as (_ & _ & Hno1 & _).
      split; [exact Hno1|discriminate].
Qed.

End Repairer.

Lemma no_calls_no_call l argv d : calls l = [] -> In (Call argv d) l -> False.
Proof.
  intros Hl Hin. assert (Hc : In (Call argv d) (calls l)).
  { apply filter_In. now split. }
  now rewrite Hl in Hc.
Qed.

(** ** What the repair asks of the host *)





Section Answers.

Context {H : Host}.

Lemma is_directory_ftype w d :
  is_directory w d = match ftype_at w d with Some Dir => true | _ => false end.
Proof.
  unfold is_directory, ftype_at. destruct (os_stat w d) as [st|]; [|reflexivity].
  cbn [option_map]. now destruct (st_type st).
Qed.

(** Two hosts on which every entry has the same type resolve every path
    alike. *)
Lemma types_resolve c w w' path :
  (forall d, ftype_at w d = ftype_at w' d) ->
  resolve {| cwd := c; env := w |} path = resolve {| cwd := c; env := w' |} path.
Proof.
  intros Ht. unfold resolve. cbn [cwd env]. apply resolve_ext.
  intros d. now rewrite !is_directory_ftype, Ht.
Qed.


Lemma types_exists c w w' path :
  (forall d, ftype_at w d = ftype_at w' d) ->
  exists_on_disk {| cwd := c; env := w |} path =
  exists_on_disk {| cwd := c; env := w' |} path.
Proof.
  intros Ht. unfold exists_on_disk. rewrite (types_resolve c w w' path Ht). cbn [env].
  destruct (resolve {| cwd := c; env := w' |} path) as [d|]; [|reflexivity].
  specialize (Ht d). unfold ftype_at in Ht.
  destruct (os_stat w d), (os_stat w' d); cbn [option_map] in Ht;
    try discriminate; reflexivity.
Qed.









(** What the law of [chown] gives for an entry that is not under its
    target: the owner is the one it was. *)
Lemma chown_elsewhere owner target c w w' path :
  chown_works ->
  subprocess_run ["sudo"; "chown"; "-R"; owner; target] c w = (w', Some 0%Z) ->
  Path.below (Path.walk c target) (Path.walk c path) = false ->
  owner_name {| cwd := c; env := w' |} path = owner_name {| cwd := c; env := w |} path.
Proof.
  intros Hlaw Hrun Hb. destruct (Hlaw owner target c w w' Hrun) as (Ht & _ & Ho).
  unfold owner_name. rewrite (types_resolve c w' w path Ht). cbn [env].
  destruct (resolve {| cwd := c; env := w |} path) as [d|] eqn:R; [|reflexivity].
  pose proof (resolve_walk _ _ _ _ R) as Hd. cbn [cwd] in Hd.
  destruct (os_stat w d) as [st|] eqn:S.
  - rewrite Ho by congruence.
    destruct (resolve {| cwd := c; env := w |} target) as [top|] eqn:Rt; [|reflexivity].
    pose proof (resolve_walk _ _ _ _ Rt) as Htop. cbn [cwd] in Htop.
    subst d top. now rewrite Hb.
  - specialize (Ht d). unfold ftype_at in Ht. rewrite S in Ht. cbn [option_map] in Ht.
    unfold owner_at. rewrite S. destruct (os_stat w' d); [discriminate|reflexivity].
Qed.

Lemma chown_creates_nothing c path : chown_works -> chown_creates_nothing_at c path.
Proof.
  intros Hlaw owner target w w' Hrun Hm.
  destruct (Hlaw owner target c w w' Hrun) as (Ht & _ & _).
  now rewrite (types_exists c w' w path Ht).
Qed.




End Answers.

(** The commands of the host [LiveHost] do what is asked of [chown]. *)

Lemma dir_eqb_eq a : forall b, TestHost.dir_eqb a b = true -> a = b.
Proof.
  induction a as [|x a' IH]; intros [|y b']; cbn [TestHost.dir_eqb]; try discriminate;
    [reflexivity|].
  intros E. apply andb_true_iff in E as [Exy E]. apply String.eqb_eq in Exy as ->.
  now rewrite (IH _ E).
Qed.

Lemma find_node_chown_tree uid top t d :
  TestHost.find_node (LiveHost.chown_tree uid top t) d =
  option_map (fun n => if Path.below top d then LiveHost.give uid n else n)
    (TestHost.find_node t d).
Proof.
  induction t as [|[p n] r IH]; [reflexivity|].
  unfold LiveHost.chown_tree in *. cbn [map fst snd TestHost.find_node].
  destruct (Path.below top p) eqn:B; cbn [TestHost.find_node];
    destruct (TestHost.dir_eqb p d) eqn:Epd; try exact IH;
    apply dir_eqb_eq in Epd as <-; cbn [option_map]; now rewrite B.
Qed.

Lemma live_chown_works : @chown_works LiveHost.host.
Proof.
  intros owner path c w w' E.
  change (LiveHost.chown_r owner path c w = (w', Some 0%Z)) in E.
  unfold LiveHost.chown_r in E.
  change (@resolve LiveHost.host {| cwd := c; env := w |} path)
    with (Path.resolve (LiveHost.is_dir w) c path).
  destruct (Path.resolve (LiveHost.is_dir w) c path) as [[|comp rest]|]; try discriminate.
  destruct (LiveHost.uid_of (TestHost.passwd w) owner) as [uid|]; [|discriminate].
  destruct (TestHost.find_node (TestHost.nodes w) (comp :: rest)); [|discriminate].
  destruct (TestHost.user (TestHost.passwd w) uid) as [name|] eqn:Hu; [|discriminate].
  destruct (String.eqb name owner) eqn:Hn; [|discriminate].
  apply String.eqb_eq in Hn as ->. injection E as <-.
  assert (St : forall d,
             TestHost.stat (LiveHost.later
                              (LiveHost.chown_tree uid (comp :: rest) (TestHost.nodes w)) w) d =
             match d with
             | [] => Some {| st_type := Dir; st_uid := 0 |}
             | _ =>
                 option_map
                   (fun st => if Path.below (comp :: rest) d
                              then {| st_type := st_type st; st_uid := uid |} else st)
                   (TestHost.stat w d)
             end).
  { intros [|x d']; [reflexivity|]. unfold TestHost.stat, LiveHost.later.
    cbn [TestHost.nodes]. rewrite find_node_chown_tree.
    destruct (TestHost.find_node (TestHost.nodes w) (x :: d')) as [[u content|u]|];
      cbn [option_map]; try reflexivity;
      destruct (Path.below (comp :: rest) (x :: d')); reflexivity. }
  split; [|split].
  - intros d. unfold ftype_at. change (@os_stat LiveHost.host) with TestHost.stat.
    rewrite St. destruct d as [|x d']; [reflexivity|].
    destruct (TestHost.stat w (x :: d')) as [st|]; [|reflexivity].
    cbn [option_map]. now destruct (Path.below (comp :: rest) (x :: d')).
  - intros d. change (@yaml_safe_load LiveHost.host) with TestHost.parse.
    unfold TestHost.parse, LiveHost.later. cbn [TestHost.nodes].
    rewrite find_node_chown_tree.
    destruct (TestHost.find_node (TestHost.nodes w) d) as [[u content|u]|];
      cbn [option_map]; try reflexivity;
      destruct (Path.below (comp :: rest) d); reflexivity.
  - intros d Hd. unfold owner_at.
    change (@os_stat LiveHost.host) with TestHost.stat in *.
    change (@pwd_getpwuid LiveHost.host) with (fun w0 => TestHost.user (TestHost.passwd w0)).
    cbv beta. rewrite St. change (TestHost.passwd (LiveHost.later _ w)) with (TestHost.passwd w).
    destruct d as [|x d']; [reflexivity|].
    destruct (TestHost.stat w (x :: d')) as [st|]; [|contradiction].
    cbn [option_map]. destruct (Path.below (comp :: rest) (x :: d')); [|reflexivity].
    cbn [st_uid]. now rewrite Hu.
Qed.

(** On the host whose commands work, [mkdir -p] does bring a missing path
    into being; [chown -R] does not. *)
Example live_mkdir_makes :
  let s := LiveHost.process ["home"; "u"; "app"] LiveHost.sibling_world in
  let made := fst (subprocess_run ["sudo"; "mkdir"; "-p"; "/srv/x"] (cwd s) (env s)) in
  exists_on_disk s "/srv/x" = false /\
  exists_on_disk (LiveHost.process (cwd s) made) "/srv/x" = true.
Proof. split; reflexivity. Qed.

(** C3, as stated, fails: a declared volume [/srv/x] that is not on disk,
    in a compose file that has, before it, a volume in the long syntax.
    The extractor ends in an uncaught [AttributeError] before it gets to
    [/srv/x]: nothing is recorded, and the repairer, which ends with it,
    prints no warning. *)
Lemma missing_volume_unreported_behind_long_syntax :
  let s := TestHost.in_app long_syntax_world in
  reads s long_syntax /\
  declares long_syntax "web" "/srv/x:/x" /\
  exists_on_disk s "/srv/x" = false /\
  volumes_from_compose_file s = (Raise AttributeError, s, []) /\
  fix_volumes_ownership s = (Raise AttributeError, s, []).
Proof.
  cbv zeta. split.
  { exists "./docker-compose.yml". split; vm_compute; reflexivity. }
  split.
  { do 4 eexists. split; [reflexivity|]. split; [reflexivity|]. split; [reflexivity|].
    split; [reflexivity|]. right. right. now left. }
  split; [reflexivity|]. split; vm_compute; reflexivity.
Qed.

(** C3, amended.  A volume host path that is not on disk, on a host whose
    [chown -R] brings nothing into being.  Every list the extractor
    returns holds the path paired with ["root"], when a service declares
    it.  The pass of the repairer on it prints the two lines of warning and
    runs nothing.  In no run of the repairer, however it ends, is the
    recursive change of owner invoked on the path; and a run that returns
    has printed the two lines, one after the other, for the path a service
    declares. *)
Theorem missing_volume_reported_never_chowned {H : Host} s path :
  exists_on_disk s path = false ->
  chown_creates_nothing_at (cwd s) path ->
  (forall doc name v out s' l,
      reads s doc -> declares doc name v -> host_path v = path ->
      volumes_from_compose_file s = (Ok out, s', l) -> In (path, "root") out) /\
  (forall owner, fix_volume (path, owner) s = (Ok tt, s, missing_warning path)) /\
  (forall r s' l,
      fix_volumes_ownership s = (r, s', l) ->
      (forall owner d, ~ In (Call ["sudo"; "chown"; "-R"; owner; path] d) l) /\
      (r = Ok tt ->
       forall doc name v,
         reads s doc -> declares doc name v -> host_path v = path ->
         exists before after, l = (before ++ missing_warning path ++ after)%list)).
Proof.
  intros Hm Hstay.
  assert (Kept : forall doc name v out s' l,
             reads s doc -> declares doc name v -> host_path v = path ->
             volumes_from_compose_file s = (Ok out, s', l) -> In (path, "root") out).
  { intros doc name v out s' l Hreads Hdecl <- E.
    apply (extractor_keeps s doc name v out s' l); try assumption.
    unfold entry_records. rewrite (missing_not_dir _ _ Hm). now left. }
  split; [exact Kept|]. split.
  - intros owner. now apply fix_volume_missing.
  - intros r s' l E. unfold fix_volumes_ownership in E.
    apply bind_cases in E
      as [(vols & s1 & l1 & l2 & E1 & E2 & ->)|[(n & E1 & ->)|(ex & E1 & ->)]].
    + pose proof (looks_volumes_from_compose_file _ _ _ _ E1) as [-> Hl1].
      destruct (repair_loop_missing path vols _ _ _ _ Hm Hstay E2) as [Hno Hw].
      split.
      * intros owner d Hin. apply in_app_or in Hin as [Hin|Hin].
        -- exact (no_calls_no_call _ _ _ Hl1 Hin).
        -- exact (Hno _ _ Hin).
      * intros Hr doc name v Hreads Hdecl Hv.
        destruct (Hw Hr "root" (Kept doc name v _ _ _ Hreads Hdecl Hv E1))
          as (before & after & ->).
        exists (l1 ++ before)%list, after. now rewrite <- app_assoc.
    + pose proof (looks_volumes_from_compose_file _ _ _ _ E1) as [_ Hl1].
      split; [|discriminate]. intros owner d Hin. exact (no_calls_no_call _ _ _ Hl1 Hin).
    + pose proof (looks_volumes_from_compose_file _ _ _ _ E1) as [_ Hl1].
      split; [|discriminate]. intros owner d Hin. exact (no_calls_no_call _ _ _ Hl1 Hin).
Qed.

Lemma missing_volume_reported_never_chowned_witness :
  let s := LiveHost.process ["home"; "u"; "app"] LiveHost.sibling_world in
  let doc := TestHost.compose ["/opt/app/media:/media"; "/opt/app/data:/data"; "/srv/x:/x"] in
  let run := fix_volumes_ownership s in
  exists_on_disk s "/srv/x" = false /\
  @chown_creates_nothing_at LiveHost.host (cwd s) "/srv/x" /\
  reads s doc /\ declares doc "web" "/srv/x:/x" /\
  fst (fst run) = Ok tt /\
  In (Call ["sudo"; "chown"; "-R"; "alice"; "/opt/app/media"] ["home"; "u"; "app"]) (snd run) /\
  (forall owner d, ~ In (Call ["sudo"; "chown"; "-R"; owner; "/srv/x"] d) (snd run)) /\
  exists before after, snd run = (before ++ missing_warning "/srv/x" ++ after)%list.
Proof.
  cbv zeta.
  assert (Hm : exists_on_disk
                 (LiveHost.process ["home"; "u"; "app"] LiveHost.sibling_world) "/srv/x"
               = false) by reflexivity.
  assert (Hstay : @chown_creates_nothing_at LiveHost.host
                    (cwd (LiveHost.process ["home"; "u"; "app"] LiveHost.sibling_world))
                    "/srv/x")
    by exact (chown_creates_nothing _ _ live_chown_works).
  assert (Hreads : reads (LiveHost.process ["home"; "u"; "app"] LiveHost.sibling_world)
                     (TestHost.compose
                        ["/opt/app/media:/media"; "/opt/app/data:/data"; "/srv/x:/x"])).
  { exists "./docker-compose.yml". split; vm_compute; reflexivity. }
  assert (Hdecl : declares (TestHost.compose
                              ["/opt/app/media:/media"; "/opt/app/data:/data"; "/srv/x:/x"])
                    "web" "/srv/x:/x").
  { do 4 eexists. split; [reflexivity|]. split; [reflexivity|]. split; [reflexivity|].
    split; [reflexivity|]. right. right. now left. }
  split; [exact Hm|]. split; [exact Hstay|]. split; [exact Hreads|]. split; [exact Hdecl|].
  split; [vm_compute; reflexivity|]. split; [vm_compute; tauto|].
  destruct (fix_volumes_ownership
              (LiveHost.process ["home"; "u"; "app"] LiveHost.sibling_world))
    as [[r s'] l] eqn:E.
  assert (Hr : r = Ok tt) by (apply (f_equal (fun x => fst (fst x))) in E; vm_compute in E; congruence).
  destruct (proj2 (proj2 (missing_volume_reported_never_chowned _ "/srv/x" Hm Hstay))
              r s' l E) as [Hno Hw].
  split; [exact Hno|]. exact (Hw Hr _ "web" "/srv/x:/x" Hreads Hdecl eq_refl).
Defined.




(** * Further properties *)

(** ** The entry point *)

Section Membership.

Context {H : Host} {C : Caller}.

Lemma docker_among_others groups s :
  Forall (fun g => exists name,
              grp_getgrgid (env s) g = Some name /\ String.eqb name "docker" = false)
    groups ->
  forall rest, docker_among (groups ++ rest) s = docker_among rest s.
Proof.
  induction groups as [|g r IH]; intros Hall rest; [reflexivity|].
  inversion Hall as [|? ? (name & Hg & Hn) Hr]; subst.
  cbn [app docker_among]. unfold bind at 1. unfold group_name at 1.
  rewrite Hg, Hn. rewrite (IH Hr rest).
  now destruct (docker_among rest s) as [[r0 s0] l0].
Qed.

Lemma docker_among_strangers s :
  docker_stranger (env s) ->
  docker_among (os_getgroups (env s)) s = (Ok false, s, []).
Proof.
  intros Hall.
  rewrite <- (app_nil_r (os_getgroups (env s))).
  now rewrite (docker_among_others _ _ Hall []).
Qed.

Lemma member_passes s :
  docker_member (env s) -> check_docker_membership s = (Ok tt, s, []).
Proof.
  intros (before & gid & after & Hg & Hd & Hb).
  unfold check_docker_membership. unfold bind at 1. rewrite Hg.
  unfold bind at 1. rewrite (docker_among_others _ _ Hb).
  cbn [docker_among]. unfold bind at 1. unfold group_name at 1. rewrite Hd.
  reflexivity.
Qed.

End Membership.

(** X1.  A user in the group [docker] passes the check: it returns, prints
    nothing and runs nothing, whatever groups come after [docker]. *)
Theorem membership_accepts_member {H : Host} {C : Caller} s :
  docker_member (env s) ->
  check_docker_membership s = (Ok tt, s, []).
Proof.
  intros (before & gid & after & Hg & Hd & Hb).
  unfold check_docker_membership. unfold bind at 1. rewrite Hg.
  unfold bind at 1. rewrite (docker_among_others _ _ Hb).
  cbn [docker_among]. unfold bind at 1. unfold group_name at 1. rewrite Hd.
  reflexivity.
Qed.

Lemma membership_accepts_member_witness :
  let C := test_caller [1000; 27; 998; 4242] (Exit 2) in
  let s := TestHost.at_home TestHost.app_world in
  @docker_member _ C (env s) /\
  @check_docker_membership _ C s = (Ok tt, s, []).
Proof.
  cbv zeta.
  assert (Hm : @docker_member _ (test_caller [1000; 27; 998; 4242] (Exit 2))
                 (env (TestHost.at_home TestHost.app_world))).
  { exists [1000; 27], 998, [4242]. split; [reflexivity|]. split; [reflexivity|].
    repeat constructor; eexists; split; reflexivity. }
  split; [exact Hm|].
  exact (@membership_accepts_member _ (test_caller [1000; 27; 998; 4242] (Exit 2)) _ Hm).
Defined.

(** X2.  A user none of whose groups is [docker]: the check prints the
    error, the hint (which names the group [sudo]) and the advice to open a
    new shell, and leaves with status 1.  [main] ends there: the command
    line is not looked at and nothing is run. *)
Theorem membership_rejects_stranger {H : Host} {C : Caller} s user :
  docker_stranger (env s) ->
  os_environ (env s) "USER" = Some user ->
  let refusal :=
    (Exit 1, s,
     [Print "ERROR: Your user is not a member of 'docker' group";
      Print ("sudo usermod -a -G sudo " ++ user);
      Print "Then open a new shell"]) in
  check_docker_membership s = refusal /\ main s = refusal.
Proof.
  intros Hs Hu refusal.
  assert (E : check_docker_membership s = refusal).
  { unfold check_docker_membership. unfold bind at 1.
    unfold bind at 1. rewrite (docker_among_strangers _ Hs).
    unfold bind at 1. unfold print at 1. unfold bind at 1. unfold environ at 1.
    rewrite Hu. reflexivity. }
  split; [exact E|]. unfold main. now rewrite (bind_exit _ _ _ _ _ _ E).
Qed.

Lemma membership_rejects_stranger_witness :
  let C := test_caller [1000; 27]
             (Ok {| argparse.action := "up";
                    argparse.project_path := None;
                    argparse.replace_path := None |}) in
  let s := TestHost.in_app TestHost.app_world in
  @docker_stranger _ C (env s) /\
  @os_environ _ C (env s) "USER" = Some "alice" /\
  @main _ C s =
  (Exit 1, s,
   [Print "ERROR: Your user is not a member of 'docker' group";
    Print "sudo usermod -a -G sudo alice";
    Print "Then open a new shell"]).
Proof.
  cbv zeta.
  assert (Hs : @docker_stranger _
                 (test_caller [1000; 27]
                    (Ok {| argparse.action := "up";
                           argparse.project_path := None;
                           argparse.replace_path := None |}))
                 (env (TestHost.in_app TestHost.app_world))).
  { repeat constructor; eexists; split; reflexivity. }
  split; [exact Hs|]. split; [reflexivity|].
  exact (proj2 (@membership_rejects_stranger _ _ _ "alice" Hs eq_refl)).
Defined.

(** X3.  Two ways the check ends in an uncaught [KeyError] instead: a group
    of the user that the group database does not know, met before any
    group named [docker] (even when [docker] follows), and a stranger whose
    environment has no [USER], after the first line is printed. *)
Theorem membership_key_errors {H : Host} {C : Caller} s :
  (forall before gid after,
      os_getgroups (env s) = (before ++ gid :: after)%list ->
      Forall (fun g => exists name,
                  grp_getgrgid (env s) g = Some name /\ String.eqb name "docker" = false)
        before ->
      grp_getgrgid (env s) gid = None ->
      check_docker_membership s = (Raise KeyError, s, [])) /\
  (docker_stranger (env s) ->
   os_environ (env s) "USER" = None ->
   check_docker_membership s =
   (Raise KeyError, s, [Print "ERROR: Your user is not a member of 'docker' group"])).
Proof.
  split.
  - intros before gid after Hg Hb Hn.
    unfold check_docker_membership. unfold bind at 1. rewrite Hg.
    unfold bind at 1. rewrite (docker_among_others _ _ Hb).
    cbn [docker_among]. unfold bind at 1. unfold group_name at 1. rewrite Hn.
    reflexivity.
  - intros Hs Hu.
    unfold check_docker_membership. unfold bind at 1.
    unfold bind at 1. rewrite (docker_among_strangers _ Hs).
    unfold bind at 1. unfold print at 1. unfold bind at 1. unfold environ at 1.
    rewrite Hu. reflexivity.
Qed.

Lemma membership_key_errors_witness :
  let C := test_caller [1000; 4242; 998] (Exit 2) in
  let s := TestHost.at_home TestHost.app_world in
  @os_getgroups _ C (env s) = ([1000] ++ 4242 :: [998])%list /\
  @grp_getgrgid _ C (env s) 998 = Some "docker" /\
  @grp_getgrgid _ C (env s) 4242 = None /\
  @check_docker_membership _ C s = (Raise KeyError, s, []).
Proof.
  cbv zeta. split; [reflexivity|]. split; [reflexivity|]. split; [reflexivity|].
  refine (proj1 (@membership_key_errors _ (test_caller [1000; 4242; 998] (Exit 2)) _)
            [1000] 4242 [998] eq_refl _ eq_refl).
  repeat constructor; eexists; split; reflexivity.
Defined.

Section EntryPoint.

Context {H : Host} {C : Caller}.

Lemma require_dir_ok path s : reachable s path -> require_dir path s = (Ok tt, s, []).
Proof.
  destruct path as [p|]; simpl; intros Hp; [|reflexivity].
  unfold bind, isdir. now rewrite Hp.
Qed.

Lemma require_dir_missing p s :
  is_type Dir s p = false ->
  require_dir (Some p) s = (Exit 1, s, [Print ("No such project directory: " ++ p)]).
Proof. intros Hp. unfold require_dir, bind, isdir. now rewrite Hp. Qed.

Lemma main_after_checks s args :
  docker_member (env s) ->
  parse_args (env s) = Ok args ->
  main s =
  bind (require_dir (argparse.project_path args))
    (fun _ =>
       bind (require_dir (argparse.replace_path args))
         (fun _ =>
            if String.eqb (argparse.action args) "deploy" then
              deploy_action (argparse.project_path args) (argparse.replace_path args)
            else if String.eqb (argparse.action args) "backup" then
              backup_action (argparse.project_path args)
            else if String.eqb (argparse.action args) "info" then info_action
            else if String.eqb (argparse.action args) "up" then
              up_action (argparse.project_path args)
            else if String.eqb (argparse.action args) "down" then
              down_action (argparse.project_path args)
            else bind (print "ERROR: Wrong action") (fun _ => sys_exit 1))) s.
Proof.
  intros Hm Hp. unfold main.
  rewrite (bind_silent _ _ _ _ (member_passes s Hm)).
  assert (Ep : (fun s0 : proc => (parse_args (env s0), s0, @nil event)) s =
               (Ok args, s, [])) by (cbv beta; now rewrite Hp).
  exact (bind_silent _ _ s args Ep).
Qed.

End EntryPoint.

(** X4.  For a member of [docker], a path argument that is not a directory
    ends [main] with status 1 after one line, before anything is run.  This
    holds for the project path and for the replace path, and for every
    action: also for those that never use the path they are given. *)
Theorem main_rejects_missing_directory {H : Host} {C : Caller} s args :
  docker_member (env s) ->
  parse_args (env s) = Ok args ->
  (forall p,
      argparse.project_path args = Some p -> is_type Dir s p = false ->
      main s = (Exit 1, s, [Print ("No such project directory: " ++ p)])) /\
  (forall r,
      reachable s (argparse.project_path args) ->
      argparse.replace_path args = Some r -> is_type Dir s r = false ->
      main s = (Exit 1, s, [Print ("No such project directory: " ++ r)])).
Proof.
  intros Hm Hparse. rewrite (main_after_checks s args Hm Hparse). split.
  - intros p Hp Hd. rewrite Hp.
    now rewrite (bind_exit _ _ _ _ _ _ (require_dir_missing p s Hd)).
  - intros r Hpp Hr Hd. rewrite Hr.
    rewrite (bind_silent _ _ _ _ (require_dir_ok _ s Hpp)).
    now rewrite (bind_exit _ _ _ _ _ _ (require_dir_missing r s Hd)).
Qed.

Lemma main_rejects_missing_directory_witness :
  let args := {| argparse.action := "down";
                 argparse.project_path := Some "app";
                 argparse.replace_path := Some "nope/../app" |} in
  let C := test_caller [1000; 998] (Ok args) in
  let s := TestHost.at_home TestHost.app_world in
  @docker_member _ C (env s) /\
  @parse_args _ C (env s) = Ok args /\
  reachable s (argparse.project_path args) /\
  Path.walk (cwd s) "nope/../app" = Path.walk (cwd s) "app" /\
  is_type Dir s "nope/../app" = false /\
  @main _ C s = (Exit 1, s, [Print "No such project directory: nope/../app"]).
Proof.
  cbv zeta.
  assert (Hm : @docker_member _
                 (test_caller [1000; 998]
                    (Ok {| argparse.action := "down";
                           argparse.project_path := Some "app";
                           argparse.replace_path := Some "nope/../app" |}))
                 (env (TestHost.at_home TestHost.app_world))).
  { exists [1000], 998, []. split; [reflexivity|]. split; [reflexivity|].
    repeat constructor; eexists; split; reflexivity. }
  split; [exact Hm|]. split; [reflexivity|]. split; [reflexivity|]. split; [reflexivity|].
  split; [reflexivity|].
  exact (proj2 (@main_rejects_missing_directory _ _ _ _ Hm eq_refl)
           "nope/../app" eq_refl eq_refl eq_refl).
Defined.

(** X5.  For a member of [docker] whose path arguments are directories,
    [main] is the action it was asked for, run from the state [main]
    started in with nothing printed or run before: [deploy] with both
    paths, [backup], [up] and [down] with the project path, [info] with
    none.  Only an action outside the five ends in "Wrong action". *)
Theorem main_runs_action {H : Host} {C : Caller} s args :
  docker_member (env s) ->
  parse_args (env s) = Ok args ->
  reachable s (argparse.project_path args) ->
  reachable s (argparse.replace_path args) ->
  let pp := argparse.project_path args in
  let rp := argparse.replace_path args in
  (argparse.action args = "deploy" -> main s = deploy_action pp rp s) /\
  (argparse.action args = "backup" -> main s = backup_action pp s) /\
  (argparse.action args = "info" -> main s = info_action s) /\
  (argparse.action args = "up" -> main s = up_action pp s) /\
  (argparse.action args = "down" -> main s = down_action pp s) /\
  (~ In (argparse.action args) ACTIONS ->
   main s = (Exit 1, s, [Print "ERROR: Wrong action"])).
Proof.
  intros Hm Hparse Hpp Hrp pp rp. rewrite (main_after_checks s args Hm Hparse).
  rewrite (bind_silent _ _ _ _ (require_dir_ok _ s Hpp)).
  rewrite (bind_silent _ _ _ _ (require_dir_ok _ s Hrp)).
  repeat split; try (intros ->; reflexivity).
  intros Hout.
  repeat match goal with
         | |- context [String.eqb (argparse.action args) ?a] =>
             destruct (String.eqb (argparse.action args) a) eqn:?
         end;
    try reflexivity;
    exfalso; apply Hout;
    match goal with
    | E : String.eqb _ _ = true |- _ => apply String.eqb_eq in E; rewrite E
    end; simpl; tauto.
Qed.

Lemma main_runs_action_witness :
  let args := {| argparse.action := "info";
                 argparse.project_path := None;
                 argparse.replace_path := None |} in
  let C := test_caller [1000; 998] (Ok args) in
  let s := TestHost.at_home TestHost.bare_world in
  @docker_member _ C (env s) /\
  @parse_args _ C (env s) = Ok args /\
  reachable s (argparse.project_path args) /\
  reachable s (argparse.replace_path args) /\
  @main _ C s =
  (Ok tt, TestHost.at_home (TestHost.after 1 TestHost.bare_world),
   [Call ["docker"; "ps"] ["home"; "u"]]).
Proof.
  cbv zeta.
  assert (Hm : @docker_member _
                 (test_caller [1000; 998]
                    (Ok {| argparse.action := "info";
                           argparse.project_path := None;
                           argparse.replace_path := None |}))
                 (env (TestHost.at_home TestHost.bare_world))).
  { exists [1000], 998, []. split; [reflexivity|]. split; [reflexivity|].
    repeat constructor; eexists; split; reflexivity. }
  split; [exact Hm|]. split; [reflexivity|]. split; [exact I|]. split; [exact I|].
  exact (proj1 (proj2 (proj2 (@main_runs_action _ _ _ _ Hm eq_refl I I))) eq_refl).
Defined.

(** ** More on the repairer *)

Section RepairCalls.

Context {H : Host}.

Lemma fix_volume_calls path owner s r s' l :
  fix_volume (path, owner) s = (r, s', l) ->
  cwd s' = cwd s /\
  forall argv d, In (Call argv d) l ->
                 argv = ["sudo"; "chown"; "-R"; owner; path] /\ d = cwd s.
Proof.
  rewrite fix_volume_run. intros E.
  assert (Quiet : forall r0 l0, (r0, s, l0) = (r, s', l) ->
                    (forall e, In e l0 -> is_call e = false) ->
                    cwd s' = cwd s /\
                    forall argv d, In (Call argv d) l ->
                                   argv = ["sudo"; "chown"; "-R"; owner; path] /\ d = cwd s).
  { intros r0 l0 E0 Hl0. injection E0 as <- <- <-. split; [reflexivity|].
    intros argv d Hin. apply Hl0 in Hin. discriminate. }
  destruct (negb (is_type Dir s path)).
  { apply (Quiet _ _ E). intros ev [<-|[<-|[]]]; reflexivity. }
  destruct (owner_name s path) as [current| |].
  - destruct (String.eqb current "root").
    { apply (Quiet _ _ E). intros ev [<-|[<-|[]]]; reflexivity. }
    apply check_call_inv in E as (-> & Cw & _). split; [assumption|].
    intros argv d [Hc|[]]. injection Hc as <- <-. now split.
  - apply (Quiet _ _ E). intros ev [].
  - apply (Quiet _ _ E). intros ev [].
Qed.

Lemma repair_loop_calls volumes : forall s r s' l,
  for_each volumes fix_volume s = (r, s', l) ->
  cwd s' = cwd s /\
  forall argv d, In (Call argv d) l ->
                 exists path owner,
                   In (path, owner) volumes /\
                   argv = ["sudo"; "chown"; "-R"; owner; path] /\ d = cwd s.
Proof.
  induction volumes as [|[path owner] rest IH]; cbn [for_each]; intros s r s' l E.
  - injection E as <- <- <-. split; [reflexivity|intros argv d []].
  - apply bind_cases in E
      as [(a & s1 & l1 & l2 & E1 & E2 & ->)|[(n & E1 & ->)|(ex & E1 & ->)]].
    + destruct (fix_volume_calls _ _ _ _ _ _ E1) as [C1 H1].
      destruct (IH _ _ _ _ E2) as [C2 H2]. rewrite C1 in C2, H2.
      split; [assumption|]. intros argv d Hin. apply in_app_or in Hin as [Hin|Hin].
      * destruct (H1 _ _ Hin) as [-> ->]. exists path, owner. split; [now left|now split].
      * destruct (H2 _ _ Hin) as (p & o & Hpo & -> & ->).
        exists p, o. split; [now right|now split].
    + destruct (fix_volume_calls _ _ _ _ _ _ E1) as [C1 H1]. split; [assumption|].
      intros argv d Hin. destruct (H1 _ _ Hin) as [-> ->].
      exists path, owner. split; [now left|now split].
    + destruct (fix_volume_calls _ _ _ _ _ _ E1) as [C1 H1]. split; [assumption|].
      intros argv d Hin. destruct (H1 _ _ Hin) as [-> ->].
      exists path, owner. split; [now left|now split].
Qed.

(** A pass on a directory owned by [root]: two lines of warning, nothing
    run. *)
Lemma fix_volume_root path owner s :
  owner_name s path = Ok "root" ->
  exists l, fix_volume (path, owner) s = (Ok tt, s, l) /\ calls l = [].
Proof.
  intros Ho. rewrite fix_volume_run, Ho.
  destruct (negb (is_type Dir s path)); eexists; split; reflexivity.
Qed.

Lemma repair_loop_root path volumes : forall s r s' l,
  owner_name s path = Ok "root" ->
  (forall q o w w',
      In (q, o) volumes -> q <> path ->
      subprocess_run ["sudo"; "chown"; "-R"; o; q] (cwd s) w = (w', Some 0%Z) ->
      owner_name {| cwd := cwd s; env := w |} path = Ok "root" ->
      owner_name {| cwd := cwd s; env := w' |} path = Ok "root") ->
  for_each volumes fix_volume s = (r, s', l) ->
  forall owner d, In (Call ["sudo"; "chown"; "-R"; owner; path] d) l -> False.
Proof.
  induction volumes as [|[q o] rest IH]; cbn [for_each]; intros s r s' l Ho Hstay E.
  - injection E as <- <- <-. intros owner d [].
  - assert (Step : forall r1 s1 l1,
               fix_volume (q, o) s = (r1, s1, l1) ->
               cwd s1 = cwd s /\ (r1 = Ok tt -> owner_name s1 path = Ok "root") /\
               forall owner d, In (Call ["sudo"; "chown"; "-R"; owner; path] d) l1 -> False).
    { intros r1 s1 l1 E1. destruct (String.eqb q path) eqn:Hq.
      - apply String.eqb_eq in Hq as ->.
        destruct (fix_volume_root path o s Ho) as (l0 & E0 & Hl0).
        rewrite E0 in E1. injection E1 as <- <- <-.
        split; [reflexivity|]. split; [intros _; assumption|].
        intros owner d Hin. exact (no_calls_no_call _ _ _ Hl0 Hin).
      - apply String.eqb_neq in Hq.
        destruct (fix_volume_calls _ _ _ _ _ _ E1) as [C1 H1].
        split; [assumption|]. split.
        + intros ->. rewrite fix_volume_run in E1.
          destruct (negb (is_type Dir s q)); [now injection E1 as <- _|].
          destruct (owner_name s q) as [current| |]; try discriminate.
          destruct (String.eqb current "root"); [now injection E1 as <- _|].
          apply check_call_zero in E1. destruct s as [c w], s1 as [c1 w1].
          cbn [cwd env] in *. subst c1.
          exact (Hstay q o w w1 (or_introl eq_refl) Hq E1 Ho).
        + intros owner d Hin. destruct (H1 _ _ Hin) as [Hargv _].
          injection Hargv as _ Hp. now apply Hq. }
    apply bind_cases in E
      as [(a & s1 & l1 & l2 & E1 & E2 & ->)|[(n & E1 & ->)|(ex & E1 & ->)]].
    + destruct a. destruct (Step _ _ _ E1) as (C1 & Ho1 & Hno1).
      assert (Hstay' : forall q0 o0 w w',
                 In (q0, o0) rest -> q0 <> path ->
                 subprocess_run ["sudo"; "chown"; "-R"; o0; q0] (cwd s1) w = (w', Some 0%Z) ->
                 owner_name {| cwd := cwd s1; env := w |} path = Ok "root" ->
                 owner_name {| cwd := cwd s1; env := w' |} path = Ok "root").
      { rewrite C1. intros q0 o0 w w' Hin. apply Hstay. now right. }
      intros owner d Hin. apply in_app_or in Hin as [Hin|Hin].
      * exact (Hno1 _ _ Hin).
      * exact (IH _ _ _ _ (Ho1 eq_refl) Hstay' E2 _ _ Hin).
    + now destruct (Step _ _ _ E1) as (_ & _ & Hno1).
    + now destruct (Step _ _ _ E1) as (_ & _ & Hno1).
Qed.

End RepairCalls.

(** X6.  Every command the repairer runs, however the run ends, is
    [sudo chown -R owner path] in the working directory, for a pair the
    extractor returned: [path] was, when the compose file was read, either
    a directory under [/opt/] owned by [owner], or not a directory at all,
    with [owner] the placeholder ["root"].  The working directory is left
    as it was. *)
Theorem repairer_runs_recorded_chowns_only {H : Host} s r s' l :
  fix_volumes_ownership s = (r, s', l) ->
  cwd s' = cwd s /\
  forall argv d,
    In (Call argv d) l ->
    exists path owner,
      argv = ["sudo"; "chown"; "-R"; owner; path] /\ d = cwd s /\
      recorded s (path, owner).
Proof.
  unfold fix_volumes_ownership. intros E.
  apply bind_cases in E
    as [(out & s1 & l1 & l2 & E1 & E2 & ->)|[(n & E1 & ->)|(ex & E1 & ->)]].
  - pose proof (extractor_records _ _ _ _ E1) as Hrec.
    pose proof (looks_volumes_from_compose_file _ _ _ _ E1) as [-> Hl1].
    destruct (repair_loop_calls _ _ _ _ _ E2) as [C2 H2]. split; [assumption|].
    intros argv d Hin. apply in_app_or in Hin as [Hin|Hin].
    + destruct (no_calls_no_call _ _ _ Hl1 Hin).
    + destruct (H2 _ _ Hin) as (p & o & Hpo & -> & ->). exists p, o.
      split; [reflexivity|]. split; [reflexivity|].
      rewrite Forall_forall in Hrec. now apply Hrec.
  - pose proof (looks_volumes_from_compose_file _ _ _ _ E1) as [-> Hl1].
    split; [reflexivity|]. intros argv d Hin. destruct (no_calls_no_call _ _ _ Hl1 Hin).
  - pose proof (looks_volumes_from_compose_file _ _ _ _ E1) as [-> Hl1].
    split; [reflexivity|]. intros argv d Hin. destruct (no_calls_no_call _ _ _ Hl1 Hin).
Qed.

Lemma repairer_runs_recorded_chowns_only_witness :
  let s := TestHost.in_app TestHost.app_world in
  let run := fix_volumes_ownership s in
  run = (Ok tt, snd (fst run), snd run) /\
  In (Call ["sudo"; "chown"; "-R"; "alice"; "/opt/app/data"] ["home"; "u"; "app"]) (snd run) /\
  cwd (snd (fst run)) = ["home"; "u"; "app"] /\
  exists path owner,
    ["sudo"; "chown"; "-R"; "alice"; "/opt/app/data"] = ["sudo"; "chown"; "-R"; owner; path] /\
    ["home"; "u"; "app"] = cwd s /\ recorded s (path, owner).
Proof.
  assert (Hrun : fix_volumes_ownership (TestHost.in_app TestHost.app_world) =
                 (Ok tt,
                  snd (fst (fix_volumes_ownership (TestHost.in_app TestHost.app_world))),
                  snd (fix_volumes_ownership (TestHost.in_app TestHost.app_world))))
    by (vm_compute; reflexivity).
  assert (Hin : In (Call ["sudo"; "chown"; "-R"; "alice"; "/opt/app/data"] ["home"; "u"; "app"])
                  (snd (fix_volumes_ownership (TestHost.in_app TestHost.app_world))))
    by (vm_compute; tauto).
  split; [exact Hrun|]. split; [exact Hin|].
  destruct (repairer_runs_recorded_chowns_only _ _ _ _ Hrun) as [Cw Hall].
  split; [exact Cw|]. exact (Hall _ _ Hin).
Defined.

(** X7.  A volume directory that belongs to [root], when the change of
    owner of no other volume of the list takes it away from [root]: the
    repairer never invokes the recursive change of owner on it, however
    the run ends. *)
Theorem root_owned_volume_never_chowned {H : Host} s path :
  owner_name s path = Ok "root" ->
  repairs_leave_root s path ->
  forall r s' l,
    fix_volumes_ownership s = (r, s', l) ->
    forall owner d, ~ In (Call ["sudo"; "chown"; "-R"; owner; path] d) l.
Proof.
  intros Ho Hstay r s' l E owner d Hin. unfold fix_volumes_ownership in E.
  apply bind_cases in E
    as [(out & s1 & l1 & l2 & E1 & E2 & ->)|[(n & E1 & ->)|(ex & E1 & ->)]].
  - pose proof (looks_volumes_from_compose_file _ _ _ _ E1) as [Hs1 Hl1].
    apply in_app_or in Hin as [Hin|Hin].
    + exact (no_calls_no_call _ _ _ Hl1 Hin).
    + subst s1.
      refine (repair_loop_root path out _ _ _ _ Ho _ E2 _ _ Hin).
      intros q o w w' Hqo. exact (Hstay out s l1 q o w w' E1 Hqo).
  - pose proof (looks_volumes_from_compose_file _ _ _ _ E1) as [_ Hl1].
    exact (no_calls_no_call _ _ _ Hl1 Hin).
  - pose proof (looks_volumes_from_compose_file _ _ _ _ E1) as [_ Hl1].
    exact (no_calls_no_call _ _ _ Hl1 Hin).
Qed.

Lemma root_owned_volume_never_chowned_witness :
  let s := LiveHost.process ["home"; "u"; "app"] LiveHost.sibling_world in
  let run := fix_volumes_ownership s in
  owner_name s "/opt/app/data" = Ok "root" /\
  repairs_leave_root s "/opt/app/data" /\
  In (Call ["sudo"; "chown"; "-R"; "alice"; "/opt/app/media"] ["home"; "u"; "app"]) (snd run) /\
  forall owner d, ~ In (Call ["sudo"; "chown"; "-R"; owner; "/opt/app/data"] d) (snd run).
Proof.
  cbv zeta.
  assert (Ho : owner_name (LiveHost.process ["home"; "u"; "app"] LiveHost.sibling_world)
                 "/opt/app/data" = Ok "root") by reflexivity.
  assert (Hstay : repairs_leave_root
                    (LiveHost.process ["home"; "u"; "app"] LiveHost.sibling_world)
                    "/opt/app/data").
  { intros out s' l volume owner w w' E Hin Hne Hrun Hroot.
    apply (f_equal (fun x => fst (fst x))) in E. vm_compute in E. injection E as <-.
    rewrite <- Hroot. apply (chown_elsewhere owner volume _ w w' _ live_chown_works Hrun).
    destruct Hin as [Hin|[Hin|[Hin|[]]]]; injection Hin as <- <-;
      first [reflexivity|now contradiction Hne]. }
  split; [exact Ho|]. split; [exact Hstay|]. split; [vm_compute; tauto|].
  destruct (fix_volumes_ownership
              (LiveHost.process ["home"; "u"; "app"] LiveHost.sibling_world))
    as [[r s'] l] eqn:E.
  exact (root_owned_volume_never_chowned _ _ Ho Hstay r s' l E).
Defined.

(** ** More on the extractor *)

Section ExtractorEdges.

Context {H : Host}.

Lemma volume_entries_records s entries :
  forallb (entry_ok s) entries = true ->
  forall acc,
    for_fold entries volume_entry acc s =
    (Ok (acc ++ flat_map (entry_records s) entries)%list, s,
     flat_map (entry_warnings s) entries).
Proof.
  induction entries as [|e r IH]; cbn [for_fold forallb flat_map]; intros Hok acc.
  - unfold ret. now rewrite app_nil_r.
  - apply andb_true_iff in Hok as [He Hr].
    destruct e as [| | | |v| |]; try discriminate.
    assert (E1 : volume_entry acc (YStr v) s =
                 (Ok (acc ++ entry_records s (YStr v))%list, s, entry_warnings s (YStr v))).
    { rewrite volume_entry_run. unfold entry_ok in He. unfold entry_records, entry_warnings.
      destruct (is_type Dir s (host_path v)); cbn [negb andb] in *; [|reflexivity].
      destruct (Str.startswith "/opt/" v); cbn [negb] in *.
      - now destruct (owner_name s (host_path v)).
      - now rewrite app_nil_r. }
    rewrite (bind_run _ _ _ _ _ _ E1), (IH Hr). now rewrite <- app_assoc.
Qed.

End ExtractorEdges.

Section ExtractorRecords.

Context {H : Host}.

Lemma service_entry_records s services k fields :
  Py.assoc k services = Some (YMap fields) ->
  definition_ok s (YMap fields) = true ->
  forall acc,
    service_entry (YMap services) acc (YStr k) s =
    let entries := match Py.assoc "volumes" fields with
                   | Some (YSeq entries) => entries
                   | _ => []
                   end in
    (Ok (acc ++ flat_map (entry_records s) entries)%list, s,
     flat_map (entry_warnings s) entries).
Proof.
  intros Hk Hok acc. cbv zeta. unfold service_entry.
  assert (E1 : lift (Py.getitem (YMap services) (YStr k)) s = (Ok (YMap fields), s, []))
    by (unfold lift; cbn [Py.getitem]; now rewrite Hk).
  rewrite (bind_silent _ _ _ _ E1).
  assert (E2 : lift (Py.contains "volumes" (YMap fields)) s =
               (Ok (match Py.assoc "volumes" fields with Some _ => true | None => false end),
                s, []))
    by (unfold lift; cbn [Py.contains]; now rewrite assoc_contains).
  rewrite (bind_silent _ _ _ _ E2).
  cbn [definition_ok] in Hok.
  destruct (Py.assoc "volumes" fields) as [declared|] eqn:Hv.
  - destruct declared as [| | | | |entries|]; try discriminate.
    assert (E3 : lift (Py.getitem (YMap fields) (YStr "volumes")) s =
                 (Ok (YSeq entries), s, []))
      by (unfold lift; cbn [Py.getitem]; now rewrite Hv).
    rewrite (bind_silent _ _ _ _ E3).
    assert (E4 : lift (Py.iter (YSeq entries)) s = (Ok entries, s, [])) by reflexivity.
    rewrite (bind_silent _ _ _ _ E4).
    now rewrite (volume_entries_records s entries Hok acc).
  - cbn [flat_map]. unfold ret. now rewrite app_nil_r.
Qed.

Lemma services_records s services : forall rest,
  forallb (fun kv : string * yaml =>
             match Py.assoc (fst kv) services with
             | Some definition => definition_ok s definition
             | None => false
             end) rest = true ->
  forall acc,
    let entries :=
      flat_map (fun kv : string * yaml =>
                  match Py.assoc (fst kv) services with
                  | Some (YMap fields) =>
                      match Py.assoc "volumes" fields with
                      | Some (YSeq entries) => entries
                      | _ => []
                      end
                  | _ => []
                  end) rest in
    for_fold (map (fun kv : string * yaml => YStr (fst kv)) rest)
      (service_entry (YMap services)) acc s =
    (Ok (acc ++ flat_map (entry_records s) entries)%list, s,
     flat_map (entry_warnings s) entries).
Proof.
  induction rest as [|[k d] r IH]; cbn [map for_fold forallb fst flat_map];
    intros Hok acc; cbv zeta.
  - unfold ret. now rewrite app_nil_r.
  - apply andb_true_iff in Hok as [Hk Hr].
    destruct (Py.assoc k services) as [definition|] eqn:Ek; [|discriminate].
    destruct definition as [| | | | | |fields]; try discriminate.
    rewrite (bind_run _ _ _ _ _ _ (service_entry_records s services k fields Ek Hk acc)).
    cbv zeta. rewrite (IH Hr). cbv zeta.
    rewrite !flat_map_app, <- app_assoc. reflexivity.
Qed.

End ExtractorRecords.

(** X8.  On a compose file of the usual shape the extractor returns one
    list, in the order of the document: service after service, volume
    after volume, a pair for every volume that is not a directory (with
    ["root"]) or is a directory under [/opt/] (with its owner), nothing for
    a directory elsewhere, for which it prints one warning.  A volume
    declared twice is there twice. *)
Theorem extractor_returns_records_in_order {H : Host} s doc :
  reads s doc ->
  compose_ok s doc = true ->
  volumes_from_compose_file s =
  (Ok (flat_map (entry_records s) (declared_entries doc)), s,
   flat_map (entry_warnings s) (declared_entries doc)).
Proof.
  intros (f & Hf & Hload) Hok. unfold volumes_from_compose_file.
  rewrite (bind_silent _ _ _ _ (first_file_run _ _)), Hf.
  rewrite (bind_silent _ _ _ _ Hload).
  destruct doc as [| | | | | |top]; try discriminate.
  cbn [compose_ok declared_entries] in *.
  destruct (Py.assoc "services" top) as [svc|] eqn:Hs; [|discriminate].
  destruct svc as [| | | | | |services]; try discriminate.
  assert (E1 : lift (Py.contains "services" (YMap top)) s = (Ok true, s, []))
    by (unfold lift; cbn [Py.contains]; now rewrite assoc_contains, Hs).
  rewrite (bind_silent _ _ _ _ E1). cbn [negb].
  assert (E2 : lift (Py.getitem (YMap top) (YStr "services")) s =
               (Ok (YMap services), s, []))
    by (unfold lift; cbn [Py.getitem]; now rewrite Hs).
  rewrite (bind_silent _ _ _ _ E2).
  assert (E3 : lift (Py.iter (YMap services)) s =
               (Ok (map (fun kv : string * yaml => YStr (fst kv)) services), s, []))
    by reflexivity.
  rewrite (bind_silent _ _ _ _ E3).
  rewrite (services_records s services services Hok []). reflexivity.
Qed.

Lemma extractor_returns_records_in_order_witness :
  let s := TestHost.in_app TestHost.app_world in
  let doc := TestHost.compose ["/opt/app/data:/data"; "/srv/x:/x"; "/tmp:/t"] in
  reads s doc /\
  compose_ok s doc = true /\
  flat_map (entry_records s) (declared_entries doc) =
  [("/opt/app/data", "alice"); ("/srv/x", "root")] /\
  volumes_from_compose_file s =
  (Ok (flat_map (entry_records s) (declared_entries doc)), s,
   flat_map (entry_warnings s) (declared_entries doc)).
Proof.
  cbv zeta.
  assert (Hreads : reads (TestHost.in_app TestHost.app_world)
                     (TestHost.compose ["/opt/app/data:/data"; "/srv/x:/x"; "/tmp:/t"])).
  { exists "./docker-compose.yml". split; vm_compute; reflexivity. }
  split; [exact Hreads|]. split; [reflexivity|]. split; [reflexivity|].
  exact (extractor_returns_records_in_order _ _ Hreads eq_refl).
Defined.

Lemma repairer_refuses {H : Host} s f doc :
  find (is_type Reg s) COMPOSE_FILES = Some f ->
  load_yaml f s = (Ok doc, s, []) ->
  Py.contains "services" doc = Ok false ->
  fix_volumes_ownership s =
  (Exit 1, s,
   [Print ("ERROR: Found compose file at " ++ f ++ " but not 'services' in it")]).
Proof.
  intros Hf Hload Hc. unfold fix_volumes_ownership. apply bind_exit.
  unfold volumes_from_compose_file.
  rewrite (bind_silent _ _ _ _ (first_file_run _ _)), Hf.
  rewrite (bind_silent _ _ _ _ Hload).
  unfold bind at 1. unfold lift at 1. now rewrite Hc.
Qed.

(** X9.  A compose file that parses to something without the key
    [services] stops the extractor with one line naming the file and
    status 1.  One that parses to nothing (an empty file), to a number or
    to a truth value ends it in an uncaught [TypeError] with nothing
    printed.  In both cases the repairer stops there as well. *)
Theorem extractor_without_services {H : Host} s f doc :
  find (is_type Reg s) COMPOSE_FILES = Some f ->
  load_yaml f s = (Ok doc, s, []) ->
  (Py.contains "services" doc = Ok false ->
   let said :=
     [Print ("ERROR: Found compose file at " ++ f ++ " but not 'services' in it")] in
   volumes_from_compose_file s = (Exit 1, s, said) /\
   fix_volumes_ownership s = (Exit 1, s, said)) /\
  (Py.contains "services" doc = Raise TypeError ->
   volumes_from_compose_file s = (Raise TypeError, s, []) /\
   fix_volumes_ownership s = (Raise TypeError, s, [])).
Proof.
  intros Hf Hload.
  assert (Start : forall c,
             Py.contains "services" doc = c ->
             volumes_from_compose_file s =
             bind (lift c)
               (fun has_services =>
                  if negb has_services then
                    bind (print ("ERROR: Found compose file at " ++ f
                                 ++ " but not 'services' in it"))
                      (fun _ => sys_exit 1)
                  else
                    bind (lift (Py.getitem doc (YStr "services")))
                      (fun services =>
                         bind (lift (Py.iter services))
                           (fun names => for_fold names (service_entry services) []))) s).
  { intros c <-. unfold volumes_from_compose_file.
    rewrite (bind_silent _ _ _ _ (first_file_run _ _)), Hf.
    now rewrite (bind_silent _ _ _ _ Hload). }
  split.
  - intros Hc said.
    assert (E : volumes_from_compose_file s = (Exit 1, s, said)) by now rewrite (Start _ Hc).
    split; [exact E|]. unfold fix_volumes_ownership. now rewrite (bind_exit _ _ _ _ _ _ E).
  - intros Hc.
    assert (E : volumes_from_compose_file s = (Raise TypeError, s, []))
      by now rewrite (Start _ Hc).
    split; [exact E|]. unfold fix_volumes_ownership. now rewrite (bind_raise _ _ _ _ _ _ E).
Qed.

Lemma extractor_without_services_witness :
  let s := TestHost.in_app unserviced_world in
  find (is_type Reg s) COMPOSE_FILES = Some "./compose.yml" /\
  load_yaml "./compose.yml" s = (Ok (YMap [("version", YStr "3")]), s, []) /\
  Py.contains "services" (YMap [("version", YStr "3")]) = Ok false /\
  fix_volumes_ownership s =
  (Exit 1, s,
   [Print "ERROR: Found compose file at ./compose.yml but not 'services' in it"]).
Proof.
  cbv zeta. split; [reflexivity|]. split; [reflexivity|]. split; [reflexivity|].
  exact (proj2 (proj1 (extractor_without_services (TestHost.in_app unserviced_world)
                         "./compose.yml" (YMap [("version", YStr "3")]) eq_refl eq_refl)
                  eq_refl)).
Defined.

(** ** More on the lifecycle actions *)

Section Ready.

Context {H : Host}.

Lemma resolve_from_standing w d : forall acc,
  Path.wf d = true ->
  match Path.resolve_from (is_directory w) acc d with
  | Some e => is_directory w e
  | None => false
  end = standing_below w acc d.
Proof.
  induction d as [|c r IH]; intros acc Hd; cbn [Path.resolve_from standing_below].
  - now rewrite andb_true_r.
  - apply andb_true_iff in Hd as [Hc Hr]. rewrite (step_ok _ _ Hc).
    destruct (is_directory w acc); [|reflexivity]. cbn [andb]. now apply IH.
Qed.

(** The directory [os.getcwd()] named can be changed into as long as it,
    and every directory above it, is one. *)
Lemma is_dir_render c w d :
  Path.wf d = true ->
  is_type Dir {| cwd := c; env := w |} (Path.render d) = standing w d.
Proof.
  intros Hwf. rewrite is_type_dir. unfold resolve, Path.resolve, standing. cbn [cwd env].
  change (Path.render d =? EmptyString) with false.
  change (Path.isabs (Path.render d)) with true. cbv iota.
  rewrite (split_render d Hwf). cbn [Path.resolve_from].
  change (Path.step [] EmptyString) with (@nil string).
  destruct d as [|x r].
  - cbn [Path.resolve_from standing_below].
    change (Path.step [] EmptyString) with (@nil string).
    destruct (is_directory w []) eqn:R; [|reflexivity]. now rewrite R.
  - destruct (is_directory w []) eqn:R.
    + exact (resolve_from_standing w (x :: r) [] Hwf).
    + cbn [standing_below]. now rewrite R.
Qed.

Lemma is_dir_root s : is_type Dir s "/" = standing (env s) [].
Proof. destruct s as [c w]. exact (is_dir_render c w [] eq_refl). Qed.

Lemma ready_found s p :
  find (regular (env s) (target s p)) COMPOSE_NAMES <> None ->
  exists f, find (is_type Reg (enter s (target s p))) COMPOSE_FILES = Some f.
Proof.
  intros Hf. rewrite find_candidates. cbn [enter cwd env].
  destruct (find (regular (env s) (target s p)) COMPOSE_NAMES) as [n|]; [|contradiction].
  now eexists.
Qed.

Lemma chdir_back_run s d :
  Path.wf (cwd s) = true ->
  standing (env s) (cwd s) = true ->
  forall w, chdir (Path.render (cwd s)) {| cwd := d; env := w |} =
            if standing w (cwd s)
            then (Ok tt, {| cwd := cwd s; env := w |}, [])
            else (Raise OSError, {| cwd := d; env := w |}, []).
Proof.
  intros Hwf _ w. pose proof (is_dir_render d w (cwd s) Hwf) as Hd.
  destruct (standing w (cwd s)).
  - rewrite (chdir_run _ _ Hd). unfold enter. cbn [cwd env].
    now rewrite (walk_render d (cwd s) Hwf).
  - exact (chdir_fails _ _ Hd).
Qed.

Lemma check_compose_file_run p s :
  Path.wf (cwd s) = true ->
  project_ready s p ->
  check_compose_file p s = (Ok tt, s, []).
Proof.
  intros Hwf (Hp & Hhere & Hfound). unfold check_compose_file.
  rewrite (bind_quiet _ _ _ _ _ (change_cwd_run p s Hp)).
  rewrite (bind_quiet _ _ _ _ _ (first_file_run _ _)).
  destruct (ready_found s p Hfound) as (f & ->).
  unfold enter. rewrite (chdir_back_run s _ Hwf Hhere), Hhere.
  now destruct s.
Qed.

(** An action that wraps one command, when the command fails. *)
Lemma wrapped_command_fails argv p s w rc :
  Path.wf (cwd s) = true ->
  project_ready s p ->
  subprocess_run argv (target s p) (env s) = (w, Some rc) ->
  rc <> 0%Z ->
  (check_compose_file p ;;
   old_cwd <- change_cwd p ;;
   check_call argv ;;
   chdir old_cwd) s =
  (Raise (CalledProcessError argv rc), {| cwd := target s p; env := w |},
   [Call argv (target s p)]).
Proof.
  intros Hwf Hready Hrun Hrc.
  rewrite (bind_quiet _ _ _ _ _ (check_compose_file_run p s Hwf Hready)).
  destruct Hready as (Hp & _).
  rewrite (bind_quiet _ _ _ _ _ (change_cwd_run p s Hp)).
  apply bind_raise. unfold check_call, enter. cbn [cwd env]. rewrite Hrun.
  apply Z.eqb_neq in Hrc. now rewrite Hrc.
Qed.

End Ready.

(** X10.  From a directory that still exists, with a project path that
    can be changed into, [check_compose_file] returns exactly when one of
    the four names is a regular file in the project; it then has printed
    nothing and left the process as it found it, having changed into the
    project and back. *)
Theorem check_compose_file_passes {H : Host} p s :
  Path.wf (cwd s) = true ->
  reachable s p ->
  standing (env s) (cwd s) = true ->
  (find (regular (env s) (target s p)) COMPOSE_NAMES <> None ->
   check_compose_file p s = (Ok tt, s, [])) /\
  (forall s' l,
      check_compose_file p s = (Ok tt, s', l) ->
      find (regular (env s) (target s p)) COMPOSE_NAMES <> None /\ s' = s /\ l = []).
Proof.
  intros Hwf Hp Hhere. split.
  - intros Hfound. apply check_compose_file_run; [assumption|]. now repeat split.
  - intros s' l E.
    apply check_compose_file_ok in E as (-> & -> & (f & Hf)); [|assumption].
    split; [|now split].
    rewrite find_candidates in Hf. cbn [enter cwd env] in Hf.
    now destruct (find (regular (env s) (target s p)) COMPOSE_NAMES).
Qed.

Lemma check_compose_file_passes_witness :
  let s := TestHost.at_home TestHost.app_world in
  Path.wf (cwd s) = true /\
  reachable s (Some "app") /\
  standing (env s) (cwd s) = true /\
  find (regular (env s) (target s (Some "app"))) COMPOSE_NAMES <> None /\
  check_compose_file (Some "app") s = (Ok tt, s, []).
Proof.
  cbv zeta.
  assert (Hf : find (regular (env (TestHost.at_home TestHost.app_world))
                       (target (TestHost.at_home TestHost.app_world) (Some "app")))
                 COMPOSE_NAMES <> None) by (vm_compute; discriminate).
  split; [reflexivity|]. split; [reflexivity|]. split; [reflexivity|]. split; [exact Hf|].
  exact (proj1 (check_compose_file_passes (Some "app")
                  (TestHost.at_home TestHost.app_world) eq_refl eq_refl eq_refl) Hf).
Defined.

(** X11.  [change_cwd] and the [os.chdir] to what it returned undo each
    other: from a directory that still exists, given a path that can be
    changed into, the process is back where it was. *)
Theorem change_cwd_round_trip {H : Host} p s :
  Path.wf (cwd s) = true ->
  reachable s p ->
  standing (env s) (cwd s) = true ->
  (old_cwd <- change_cwd p ;; chdir old_cwd) s = (Ok tt, s, []).
Proof.
  intros Hwf Hp Hhere.
  rewrite (bind_quiet _ _ _ _ _ (change_cwd_run p s Hp)).
  unfold enter. rewrite (chdir_back_run s _ Hwf Hhere), Hhere. now destruct s.
Qed.

Lemma change_cwd_round_trip_witness :
  let s := TestHost.at_home TestHost.app_world in
  Path.wf (cwd s) = true /\
  reachable s (Some "app/../../u/./app/") /\
  standing (env s) (cwd s) = true /\
  (old_cwd <- change_cwd (Some "app/../../u/./app/") ;; chdir old_cwd) s = (Ok tt, s, []).
Proof.
  cbv zeta. split; [reflexivity|]. split; [reflexivity|]. split; [reflexivity|].
  exact (change_cwd_round_trip (Some "app/../../u/./app/")
           (TestHost.at_home TestHost.app_world) eq_refl eq_refl eq_refl).
Defined.

(** X12.  When its subcommand returns a code other than zero, the down or
    build action ends in [CalledProcessError] with the command and the
    code; the subcommand is the only thing run, and the process is left in
    the project directory, not where it started. *)
Theorem lifecycle_failure_stays_in_project {H : Host} (a : lifecycle) p s w rc :
  a <> Up ->
  Path.wf (cwd s) = true ->
  project_ready s p ->
  subprocess_run (subcommand a) (target s p) (env s) = (w, Some rc) ->
  rc <> 0%Z ->
  run_lifecycle a p s =
  (Raise (CalledProcessError (subcommand a) rc),
   {| cwd := target s p; env := w |},
   [Call (subcommand a) (target s p)]).
Proof.
  intros Ha Hwf Hready Hrun Hrc. destruct a; [contradiction| |].
  - exact (wrapped_command_fails _ p s w rc Hwf Hready Hrun Hrc).
  - exact (wrapped_command_fails _ p s w rc Hwf Hready Hrun Hrc).
Qed.

Lemma lifecycle_failure_stays_in_project_witness :
  let s := failing_proc 3 ["home"; "u"] TestHost.app_world in
  Down <> Up /\
  Path.wf (cwd s) = true /\
  project_ready s (Some "app") /\
  subprocess_run (subcommand Down) (target s (Some "app")) (env s) =
  (TestHost.after 1 TestHost.app_world, Some 3%Z) /\
  (3 <> 0)%Z /\
  run_lifecycle Down (Some "app") s =
  (Raise (CalledProcessError ["docker-compose"; "down"] 3),
   failing_proc 3 ["home"; "u"; "app"] (TestHost.after 1 TestHost.app_world),
   [Call ["docker-compose"; "down"] ["home"; "u"; "app"]]).
Proof.
  cbv zeta.
  assert (Hr : project_ready (failing_proc 3 ["home"; "u"] TestHost.app_world) (Some "app")).
  { split; [reflexivity|]. split; [reflexivity|]. vm_compute. discriminate. }
  assert (Hup : Down <> Up) by discriminate.
  assert (Hrc : (3 <> 0)%Z) by discriminate.
  split; [exact Hup|]. split; [reflexivity|]. split; [exact Hr|].
  split; [reflexivity|]. split; [exact Hrc|].
  exact (lifecycle_failure_stays_in_project Down (Some "app")
           (failing_proc 3 ["home"; "u"] TestHost.app_world)
           (TestHost.after 1 TestHost.app_world) 3%Z Hup eq_refl Hr eq_refl Hrc).
Defined.

(** X13.  When [docker-compose up -d] returns a code other than zero, the
    up action ends in [CalledProcessError]: the ownership repair has been
    done, the stack is not started, and the process is left in the project
    directory. *)
Theorem up_failure_after_repairs {H : Host} p s s2 l2 w rc :
  Path.wf (cwd s) = true ->
  project_ready s p ->
  fix_volumes_ownership (enter s (target s p)) = (Ok tt, s2, l2) ->
  subprocess_run ["docker-compose"; "up"; "-d"] (target s p) (env s2) = (w, Some rc) ->
  rc <> 0%Z ->
  up_action p s =
  (Raise (CalledProcessError ["docker-compose"; "up"; "-d"] rc),
   {| cwd := target s p; env := w |},
   (l2 ++ [Call ["docker-compose"; "up"; "-d"] (target s p)])%list).
Proof.
  intros Hwf Hready Hfix Hrun Hrc. unfold up_action.
  rewrite (bind_quiet _ _ _ _ _ (check_compose_file_run p s Hwf Hready)).
  destruct Hready as (Hp & _).
  rewrite (bind_quiet _ _ _ _ _ (change_cwd_run p s Hp)).
  rewrite (bind_run _ _ _ _ _ _ Hfix).
  destruct (stays_fix_volumes_ownership _ _ _ _ Hfix) as [C2 _]. cbn [enter cwd] in C2.
  assert (E : check_call ["docker-compose"; "up"; "-d"] s2 =
              (Raise (CalledProcessError ["docker-compose"; "up"; "-d"] rc),
               {| cwd := target s p; env := w |},
               [Call ["docker-compose"; "up"; "-d"] (target s p)])).
  { unfold check_call. rewrite C2, Hrun. apply Z.eqb_neq in Hrc. now rewrite Hrc. }
  now rewrite (bind_raise _ _ _ _ _ _ E).
Qed.

Lemma up_failure_after_repairs_witness :
  let s := failing_proc 3 ["home"; "u"] created_world in
  let inside := failing_proc 3 ["home"; "u"; "app"] created_world in
  let l2 := snd (fix_volumes_ownership inside) in
  Path.wf (cwd s) = true /\
  project_ready s (Some "app") /\
  fix_volumes_ownership (enter s (target s (Some "app"))) = (Ok tt, inside, l2) /\
  subprocess_run ["docker-compose"; "up"; "-d"] (target s (Some "app")) (env inside) =
  (TestHost.after 1 created_world, Some 3%Z) /\
  (3 <> 0)%Z /\
  up_action (Some "app") s =
  (Raise (CalledProcessError ["docker-compose"; "up"; "-d"] 3),
   failing_proc 3 ["home"; "u"; "app"] (TestHost.after 1 created_world),
   (l2 ++ [Call ["docker-compose"; "up"; "-d"] ["home"; "u"; "app"]])%list).
Proof.
  cbv zeta.
  assert (Hr : project_ready (failing_proc 3 ["home"; "u"] created_world) (Some "app")).
  { split; [reflexivity|]. split; [reflexivity|]. vm_compute. discriminate. }
  assert (Hfix : fix_volumes_ownership
                   (enter (failing_proc 3 ["home"; "u"] created_world)
                      (target (failing_proc 3 ["home"; "u"] created_world) (Some "app"))) =
                 (Ok tt, failing_proc 3 ["home"; "u"; "app"] created_world,
                  snd (fix_volumes_ownership
                         (failing_proc 3 ["home"; "u"; "app"] created_world))))
    by (vm_compute; reflexivity).
  assert (Hrc : (3 <> 0)%Z) by discriminate.
  split; [reflexivity|]. split; [exact Hr|]. split; [exact Hfix|].
  split; [reflexivity|]. split; [exact Hrc|].
  exact (up_failure_after_repairs (Some "app")
           (failing_proc 3 ["home"; "u"] created_world) _ _
           (TestHost.after 1 created_world) 3%Z eq_refl Hr Hfix eq_refl Hrc).
Defined.

(** ** More on deploy and backup *)

(** X14.  Deploy builds first.  When the build returns a code other than
    zero, deploy ends in [CalledProcessError] and the build is the only
    command it has run: in replace mode the old deployment is neither
    stopped nor renamed, in place the stack is not stopped. *)
Theorem deploy_stops_at_failed_build {H : Host} s w rc :
  Path.wf (cwd s) = true ->
  rc <> 0%Z ->
  (forall p r,
      let P := Path.abspath (cwd s) p in
      let R := Path.abspath (cwd s) r in
      let new_dir := Path.walk (cwd s) p in
      standing (env s) [] = true ->
      project_ready (enter s []) (Some R) ->
      project_ready (enter s []) (Some P) ->
      subprocess_run ["docker-compose"; "build"] new_dir (env s) = (w, Some rc) ->
      deploy_action (Some p) (Some r) s =
      (Raise (CalledProcessError ["docker-compose"; "build"] rc),
       {| cwd := new_dir; env := w |},
       [Call ["docker-compose"; "build"] new_dir])) /\
  (forall p,
      project_ready s p ->
      subprocess_run ["docker-compose"; "build"] (target s p) (env s) = (w, Some rc) ->
      deploy_action p None s =
      (Raise (CalledProcessError ["docker-compose"; "build"] rc),
       {| cwd := target s p; env := w |},
       [Call ["docker-compose"; "build"] (target s p)])).
Proof.
  intros Hwf Hrc. split.
  - intros p r P R new_dir Hroot HR HP Hrun. unfold deploy_action.
    assert (E1 : abspath (Some r) s = (Ok R, s, [])) by reflexivity.
    assert (E2 : abspath (Some p) s = (Ok P, s, [])) by reflexivity.
    assert (E3 : getcwd s = (Ok (Path.render (cwd s)), s, [])) by reflexivity.
    assert (E4 : chdir "/" s = (Ok tt, enter s [], [])).
    { rewrite chdir_run; [reflexivity|]. now rewrite is_dir_root. }
    rewrite (bind_quiet _ _ _ _ _ E1), (bind_quiet _ _ _ _ _ E2).
    rewrite (bind_quiet _ _ _ _ _ E3), (bind_quiet _ _ _ _ _ E4).
    rewrite (bind_quiet _ _ _ _ _ (check_compose_file_run (Some R) (enter s []) eq_refl HR)).
    apply bind_raise.
    assert (Ht : target (enter s []) (Some P) = new_dir)
      by (cbn [target enter cwd]; now apply walk_abspath).
    pose proof (wrapped_command_fails ["docker-compose"; "build"] (Some P) (enter s []) w rc
                  eq_refl HP) as Hb.
    rewrite Ht in Hb. now apply Hb.
  - intros p Hp Hrun. unfold deploy_action. apply bind_raise.
    exact (wrapped_command_fails _ p s w rc Hwf Hp Hrun Hrc).
Qed.

Lemma deploy_stops_at_failed_build_witness :
  let s := failing_deploy 1 in
  Path.wf (cwd s) = true /\
  (1 <> 0)%Z /\
  standing (env s) [] = true /\
  project_ready (enter s []) (Some "/prod/app") /\
  project_ready (enter s []) (Some "/home/u/new") /\
  subprocess_run ["docker-compose"; "build"] ["home"; "u"; "new"] (env s) =
  (TestHost.after 1 TestHost.deploy_world, Some 1%Z) /\
  deploy_action (Some "new") (Some "/prod/app") s =
  (Raise (CalledProcessError ["docker-compose"; "build"] 1),
   failing_proc 1 ["home"; "u"; "new"] (TestHost.after 1 TestHost.deploy_world),
   [Call ["docker-compose"; "build"] ["home"; "u"; "new"]]).
Proof.
  cbv zeta.
  assert (Hrc : (1 <> 0)%Z) by discriminate.
  assert (HR : project_ready (enter (failing_deploy 1) []) (Some "/prod/app")).
  { split; [reflexivity|]. split; [reflexivity|]. vm_compute. discriminate. }
  assert (HP : project_ready (enter (failing_deploy 1) []) (Some "/home/u/new")).
  { split; [reflexivity|]. split; [reflexivity|]. vm_compute. discriminate. }
  split; [reflexivity|]. split; [exact Hrc|]. split; [reflexivity|].
  split; [exact HR|]. split; [exact HP|]. split; [reflexivity|].
  exact (proj1 (deploy_stops_at_failed_build (failing_deploy 1)
                  (TestHost.after 1 TestHost.deploy_world) 1%Z eq_refl Hrc)
           "new" "/prod/app" eq_refl HR HP eq_refl).
Defined.

(** X15.  Deploy in place, when it returns: the build, then all of
    [backup_action] from the host the build left. *)
Theorem deploy_in_place_sequence {H : Host} p s s' l :
  Path.wf (cwd s) = true ->
  deploy_action p None s = (Ok tt, s', l) ->
  let built :=
    {| cwd := cwd s;
       env := fst (subprocess_run ["docker-compose"; "build"] (target s p) (env s)) |} in
  exists l_backup,
    l = (Call ["docker-compose"; "build"] (target s p) :: l_backup)%list /\
    backup_action p built = (Ok tt, s', l_backup) /\
    exists l_middle d,
      l_backup = (Call ["docker-compose"; "down"] (target s p) :: l_middle
                  ++ [Call ["docker-compose"; "up"; "-d"] d])%list.
Proof.
  intros Hwf E built. unfold deploy_action in E.
  apply bind_ok in E as ([] & s1 & l1 & l_backup & Eb & Ea & ->).
  apply build_ok in Eb as (-> & ->); [|assumption].
  exists l_backup. split; [reflexivity|]. split; [exact Ea|].
  apply backup_action_ok in Ea
    as (s_down & s_copy & l_copy & l_up & _ & _ & Hup & Hwfc & ->); [|assumption].
  apply up_action_ok in Hup as (s2 & l_repair & _ & _ & -> & _); [|assumption].
  exists (l_copy ++ l_repair)%list, (target s_copy p).
  cbn [target cwd]. now rewrite <- app_assoc.
Qed.

Lemma deploy_in_place_sequence_witness :
  let s := TestHost.in_app TestHost.app_world in
  let run := deploy_action (Some ".") None s in
  Path.wf (cwd s) = true /\
  run = (Ok tt, snd (fst run), snd run) /\
  exists l_backup,
    snd run = (Call ["docker-compose"; "build"] ["home"; "u"; "app"] :: l_backup)%list.
Proof.
  assert (Hrun : deploy_action (Some ".") None (TestHost.in_app TestHost.app_world) =
                 (Ok tt,
                  snd (fst (deploy_action (Some ".") None
                              (TestHost.in_app TestHost.app_world))),
                  snd (deploy_action (Some ".") None (TestHost.in_app TestHost.app_world))))
    by (vm_compute; reflexivity).
  split; [reflexivity|]. split; [exact Hrun|].
  destruct (deploy_in_place_sequence (Some ".") (TestHost.in_app TestHost.app_world)
              _ _ eq_refl Hrun) as (l_backup & Hl & _).
  exists l_backup. exact Hl.
Defined.

Ltac inv_steps :=
  repeat
    (cbv beta in *;
     match goal with
     | u : unit |- _ => destruct u
     | E : bind _ _ _ = (Ok _, _, _) |- _ =>
         apply bind_ok in E as (? & ? & ? & ? & ? & ? & ->)
     | E : getcwd _ = (Ok _, _, _) |- _ => apply getcwd_ok in E as (-> & -> & ->)
     | E : isdir _ _ = (Ok _, _, _) |- _ => apply isdir_ok in E as (-> & -> & ->)
     | E : print _ _ = (Ok _, _, _) |- _ => apply print_ok in E as (-> & ->)
     | E : now_utc _ = (Ok _, _, _) |- _ => apply now_utc_ok in E as (-> & -> & ->)
     | E : chdir _ _ = (Ok _, _, _) |- _ => apply chdir_ok in E as (-> & -> & ?)
     | E : change_cwd _ _ = (Ok _, _, _) |- _ => apply change_cwd_ok in E as (-> & -> & ->)
     | E : check_call _ _ = (Ok _, _, _) |- _ => apply check_call_ok in E as (-> & ->)
     end).

(** X16.  A backup that returns after copying has run, in the project
    directory and in this order: [mkdir -p] of the backup directory, the
    recursive copy to a snapshot named by the clock read after that
    [mkdir], [chown 700] on the snapshot, then one recursive change of
    owner for every entry [os.listdir] gave for the data directory, in that
    order, each on the copy of the entry and never on the data itself.  An
    empty data directory gives the first three commands alone. *)
Theorem backup_changes_owner_of_each_entry {H : Host} p s s' l :
  Path.wf (cwd s) = true ->
  is_type Dir (enter s (target s p))
    ("/opt/" ++ app_name_in (target s p) ++ "/data") = true ->
  backup p s = (Ok tt, s', l) ->
  let d := target s p in
  let from_path := "/opt/" ++ app_name_in d ++ "/data" in
  let backup_dir := "/opt/" ++ app_name_in d ++ "/backup" in
  let w1 := fst (subprocess_run ["sudo"; "mkdir"; "-p"; backup_dir] d (env s)) in
  let to_path :=
    "/opt/" ++ app_name_in d ++ "/backup/data_" ++ strftime_utc (datetime_now w1) in
  let w2 := fst (subprocess_run ["sudo"; "cp"; "-r"; from_path; to_path] d w1) in
  let w3 := fst (subprocess_run ["sudo"; "chown"; "700"; to_path] d w2) in
  let done := Str.nl ++ "Backed up data to " ++ to_path ++ Str.nl in
  exists entries owners,
    listdir from_path {| cwd := d; env := w3 |} = (Ok entries, {| cwd := d; env := w3 |}, []) /\
    List.length owners = List.length entries /\
    l = ([Call ["sudo"; "mkdir"; "-p"; backup_dir] d;
          Call ["sudo"; "cp"; "-r"; from_path; to_path] d;
          Call ["sudo"; "chown"; "700"; to_path] d]
         ++ map (fun eo : string * string =>
                   Call ["sudo"; "chown"; "-R"; snd eo; (to_path ++ "/" ++ fst eo)%string] d)
              (combine entries owners)
         ++ [Print done])%list.
Proof.
  intros Hwf Hdata E. cbv zeta. unfold backup in E. inv_steps.
  change (cwd (enter s (target s p))) with (target s p) in *.
  fold (app_name_in (target s p)) in *.
  rewrite Hdata in *. cbn [negb] in *. inv_steps.
  cbn [cwd env enter] in *.
  match goal with
  | El : listdir _ _ = (Ok ?entries, _, _) |- _ =>
      pose proof (listdir_ok _ _ _ _ _ El) as [Hs Hl]; subst;
      match goal with
      | Ef : for_each _ _ _ = _ |- _ =>
          apply backup_entries_exact in Ef as (owners & Hlen & ->);
          exists entries, owners
      end;
      split; [exact El|]; split; [exact Hlen|]
  end.
  cbn [app cwd]. reflexivity.
Qed.

Lemma backup_changes_owner_of_each_entry_witness :
  let s := TestHost.in_app TestHost.app_world in
  let run := backup (Some ".") s in
  Path.wf (cwd s) = true /\
  is_type Dir (enter s (target s (Some "."))) "/opt/app/data" = true /\
  run = (Ok tt, snd (fst run), snd run) /\
  exists entries owners,
    List.length owners = List.length entries /\
    snd run =
    ([Call ["sudo"; "mkdir"; "-p"; "/opt/app/backup"] ["home"; "u"; "app"];
      Call ["sudo"; "cp"; "-r"; "/opt/app/data"; "/opt/app/backup/data_20240309_120508_utc"]
        ["home"; "u"; "app"];
      Call ["sudo"; "chown"; "700"; "/opt/app/backup/data_20240309_120508_utc"]
        ["home"; "u"; "app"]]
     ++ map (fun eo : string * string =>
               Call ["sudo"; "chown"; "-R"; snd eo;
                     ("/opt/app/backup/data_20240309_120508_utc" ++ "/" ++ fst eo)%string]
                 ["home"; "u"; "app"])
          (combine entries owners)
     ++ [Print (Str.nl ++ "Backed up data to /opt/app/backup/data_20240309_120508_utc"
                ++ Str.nl)%string])%list.
Proof.
  assert (Hrun : backup (Some ".") (TestHost.in_app TestHost.app_world) =
                 (Ok tt,
                  snd (fst (backup (Some ".") (TestHost.in_app TestHost.app_world))),
                  snd (backup (Some ".") (TestHost.in_app TestHost.app_world))))
    by (vm_compute; reflexivity).
  split; [reflexivity|]. split; [reflexivity|]. split; [exact Hrun|].
  destruct (backup_changes_owner_of_each_entry (Some ".")
              (TestHost.in_app TestHost.app_world) _ _ eq_refl eq_refl Hrun)
    as (entries & owners & _ & Hlen & Hl).
  exists entries, owners. split; [exact Hlen|exact Hl].
Defined.



(** X18.  The up action on a project whose compose file has no [services]:
    the check of the compose file passes, the repairer prints the error
    and leaves with status 1.  Nothing is run, [docker-compose up -d] least
    of all, and the process is left in the project directory. *)
Theorem up_stops_without_services {H : Host} p s f doc :
  Path.wf (cwd s) = true ->
  project_ready s p ->
  let inside := enter s (target s p) in
  find (is_type Reg inside) COMPOSE_FILES = Some f ->
  load_yaml f inside = (Ok doc, inside, []) ->
  Py.contains "services" doc = Ok false ->
  up_action p s =
  (Exit 1, inside,
   [Print ("ERROR: Found compose file at " ++ f ++ " but not 'services' in it")]).
Proof.
  intros Hwf Hready inside Hf Hload Hc. unfold up_action.
  rewrite (bind_quiet _ _ _ _ _ (check_compose_file_run p s Hwf Hready)).
  destruct Hready as (Hp & _).
  rewrite (bind_quiet _ _ _ _ _ (change_cwd_run p s Hp)).
  apply bind_exit.
  exact (repairer_refuses inside f doc Hf Hload Hc).
Qed.

Lemma up_stops_without_services_witness :
  let s := TestHost.at_home unserviced_world in
  let inside := TestHost.in_app unserviced_world in
  Path.wf (cwd s) = true /\
  project_ready s (Some "app") /\
  find (is_type Reg inside) COMPOSE_FILES = Some "./compose.yml" /\
  load_yaml "./compose.yml" inside = (Ok (YMap [("version", YStr "3")]), inside, []) /\
  Py.contains "services" (YMap [("version", YStr "3")]) = Ok false /\
  up_action (Some "app") s =
  (Exit 1, inside,
   [Print "ERROR: Found compose file at ./compose.yml but not 'services' in it"]).
Proof.
  cbv zeta.
  assert (Hr : project_ready (TestHost.at_home unserviced_world) (Some "app")).
  { split; [reflexivity|]. split; [reflexivity|]. vm_compute. discriminate. }
  split; [reflexivity|]. split; [exact Hr|]. split; [reflexivity|].
  split; [reflexivity|]. split; [reflexivity|].
  exact (up_stops_without_services (Some "app") (TestHost.at_home unserviced_world)
           "./compose.yml" (YMap [("version", YStr "3")]) eq_refl Hr eq_refl eq_refl eq_refl).
Defined.
